(** * SoulMap: the profile-update protocol of astrbot_plugin_soulmap

    A shallow embedding of [main.py]: the [SoulMapManager] class (storage,
    field merge policy, delete resolver, summary formatter) and the parts of
    [SoulMapPlugin] that order delete targets and strip directive blocks.

    Python strings are sequences of Unicode code points, so a string is a
    [list N] of code points; a profile is a Python [dict] and keeps its
    insertion order, so it is an association list; the store is a finite map
    from profile keys to profiles. *)

From Stdlib Require Import ZArith NArith Lia String Ascii Sorted.
From Stdlib Require DecimalString.
From stdpp Require Import base decidable option list gmap.

Set Default Proof Using "Type".

Abbreviation char := N (only parsing).
Abbreviation str := (list N) (only parsing).

(** ** Python strings *)

Module Py.

(** An ASCII literal as a list of code points. *)
Definition lit (s : string) : str :=
  (λ a, N_of_ascii a) <$> list_ascii_of_string s.

Definition in_range (lo hi c : N) : bool := ((lo <=? c) && (c <=? hi))%N.

Definition in_ranges (tbl : list (N * N)) (c : N) : bool :=
  existsb (λ r, in_range r.1 r.2 c) tbl.

(** [Py_UNICODE_ISSPACE]: the characters removed by [str.strip()] and
    matched by [\s] in a [str] pattern. *)
Definition space_table : list (N * N) :=
  [ (0x9, 0xD); (0x1C, 0x20); (0x85, 0x85); (0xA0, 0xA0); (0x1680, 0x1680);
    (0x2000, 0x200A); (0x2028, 0x2029); (0x202F, 0x202F); (0x205F, 0x205F);
    (0x3000, 0x3000) ]%N.

Definition isspace (c : char) : bool := in_ranges space_table c.

(** Characters for which [str.isdigit()] holds (Numeric_Type Digit or
    Decimal, Unicode 14). *)
Definition digit_table : list (N * N) :=
  [ (0x30, 0x39); (0xB2, 0xB3); (0xB9, 0xB9); (0x660, 0x669); (0x6F0, 0x6F9);
    (0x7C0, 0x7C9); (0x966, 0x96F); (0x9E6, 0x9EF); (0xA66, 0xA6F);
    (0xAE6, 0xAEF); (0xB66, 0xB6F); (0xBE6, 0xBEF); (0xC66, 0xC6F);
    (0xCE6, 0xCEF); (0xD66, 0xD6F); (0xDE6, 0xDEF); (0xE50, 0xE59);
    (0xED0, 0xED9); (0xF20, 0xF29); (0x1040, 0x1049); (0x1090, 0x1099);
    (0x1369, 0x1371); (0x17E0, 0x17E9); (0x1810, 0x1819); (0x1946, 0x194F);
    (0x19D0, 0x19DA); (0x1A80, 0x1A89); (0x1A90, 0x1A99); (0x1B50, 0x1B59);
    (0x1BB0, 0x1BB9); (0x1C40, 0x1C49); (0x1C50, 0x1C59); (0x2070, 0x2070);
    (0x2074, 0x2079); (0x2080, 0x2089); (0x2460, 0x2468); (0x2474, 0x247C);
    (0x2488, 0x2490); (0x24EA, 0x24EA); (0x24F5, 0x24FD); (0x24FF, 0x24FF);
    (0x2776, 0x277E); (0x2780, 0x2788); (0x278A, 0x2792); (0xA620, 0xA629);
    (0xA8D0, 0xA8D9); (0xA900, 0xA909); (0xA9D0, 0xA9D9); (0xA9F0, 0xA9F9);
    (0xAA50, 0xAA59); (0xABF0, 0xABF9); (0xFF10, 0xFF19); (0x104A0, 0x104A9);
    (0x10A40, 0x10A43); (0x10D30, 0x10D39); (0x10E60, 0x10E68);
    (0x11052, 0x1105A); (0x11066, 0x1106F); (0x110F0, 0x110F9);
    (0x11136, 0x1113F); (0x111D0, 0x111D9); (0x112F0, 0x112F9);
    (0x11450, 0x11459); (0x114D0, 0x114D9); (0x11650, 0x11659);
    (0x116C0, 0x116C9); (0x11730, 0x11739); (0x118E0, 0x118E9);
    (0x11950, 0x11959); (0x11C50, 0x11C59); (0x11D50, 0x11D59);
    (0x11DA0, 0x11DA9); (0x16A60, 0x16A69); (0x16AC0, 0x16AC9);
    (0x16B50, 0x16B59); (0x1D7CE, 0x1D7FF); (0x1E140, 0x1E149);
    (0x1E2F0, 0x1E2F9); (0x1E950, 0x1E959); (0x1F100, 0x1F10A);
    (0x1FBF0, 0x1FBF9) ]%N.

(** Decimal digits (category Nd), the only characters [int()] converts.
    Every range starts at a digit zero and is a whole number of decades. *)
Definition decimal_table : list (N * N) :=
  [ (0x30, 0x39); (0x660, 0x669); (0x6F0, 0x6F9); (0x7C0, 0x7C9);
    (0x966, 0x96F); (0x9E6, 0x9EF); (0xA66, 0xA6F); (0xAE6, 0xAEF);
    (0xB66, 0xB6F); (0xBE6, 0xBEF); (0xC66, 0xC6F); (0xCE6, 0xCEF);
    (0xD66, 0xD6F); (0xDE6, 0xDEF); (0xE50, 0xE59); (0xED0, 0xED9);
    (0xF20, 0xF29); (0x1040, 0x1049); (0x1090, 0x1099); (0x17E0, 0x17E9);
    (0x1810, 0x1819); (0x1946, 0x194F); (0x19D0, 0x19D9); (0x1A80, 0x1A89);
    (0x1A90, 0x1A99); (0x1B50, 0x1B59); (0x1BB0, 0x1BB9); (0x1C40, 0x1C49);
    (0x1C50, 0x1C59); (0xA620, 0xA629); (0xA8D0, 0xA8D9); (0xA900, 0xA909);
    (0xA9D0, 0xA9D9); (0xA9F0, 0xA9F9); (0xAA50, 0xAA59); (0xABF0, 0xABF9);
    (0xFF10, 0xFF19); (0x104A0, 0x104A9); (0x10D30, 0x10D39);
    (0x11066, 0x1106F); (0x110F0, 0x110F9); (0x11136, 0x1113F);
    (0x111D0, 0x111D9); (0x112F0, 0x112F9); (0x11450, 0x11459);
    (0x114D0, 0x114D9); (0x11650, 0x11659); (0x116C0, 0x116C9);
    (0x11730, 0x11739); (0x118E0, 0x118E9); (0x11950, 0x11959);
    (0x11C50, 0x11C59); (0x11D50, 0x11D59); (0x11DA0, 0x11DA9);
    (0x16A60, 0x16A69); (0x16AC0, 0x16AC9); (0x16B50, 0x16B59);
    (0x1D7CE, 0x1D7FF); (0x1E140, 0x1E149); (0x1E2F0, 0x1E2F9);
    (0x1E950, 0x1E959); (0x1FBF0, 0x1FBF9) ]%N.

Definition isdigit_char (c : char) : bool := in_ranges digit_table c.

(** [s.isdigit()]: non-empty and every character is a digit. *)
Definition isdigit (s : str) : bool :=
  match s with
  | [] => false
  | _ => forallb isdigit_char s
  end.

(** The value of a decimal digit, [None] for any other character. *)
Definition decimal_value (c : char) : option N :=
  (λ r, ((c - r.1) mod 10)%N) <$> find (λ r, in_range r.1 r.2 c) decimal_table.

Fixpoint int_digits (acc : N) (s : str) : option N :=
  match s with
  | [] => Some acc
  | c :: s' =>
      match decimal_value c with
      | Some d => int_digits (10 * acc + d)%N s'
      | None => None
      end
  end.

(** [int(s)] for a string of digits: [None] stands for [ValueError], raised
    on the empty string, on a digit that is not a decimal digit (a
    superscript or circled digit) and, with the interpreter's default limit
    ([sys.get_int_max_str_digits()] is 4300), on more than 4300 digits. *)
Definition int (s : str) : option Z :=
  match s with
  | [] => None
  | _ => if 4300 <? length s then None else Z.of_N <$> int_digits 0 s
  end.

(** [s.lstrip()], [s.rstrip()] and [s.strip()]. *)
Fixpoint lstrip (s : str) : str :=
  match s with
  | [] => []
  | c :: s' => if isspace c then lstrip s' else s
  end.

Fixpoint rstrip (s : str) : str :=
  match s with
  | [] => []
  | c :: s' =>
      match rstrip s' with
      | [] => if isspace c then [] else [c]
      | r => c :: r
      end
  end.

Definition strip (s : str) : str := rstrip (lstrip s).

(** [re.split] on a pattern that is one character class: every separator
    character ends a piece, empty pieces are kept. *)
Fixpoint re_split (sep : char → bool) (s : str) : list str :=
  match s with
  | [] => [[]]
  | c :: s' =>
      if sep c then [] :: re_split sep s'
      else match re_split sep s' with
           | [] => [[c]]
           | p :: ps => (c :: p) :: ps
           end
  end.

(** [sep.join(l)]. *)
Fixpoint join (sep : str) (l : list str) : str :=
  match l with
  | [] => []
  | [x] => x
  | x :: l' => x ++ sep ++ join sep l'
  end.

(** [l[-m:]]: the slice from index [-m].  A negative start counts from the
    end and is clipped at 0; a start of [-0 = 0] keeps the whole list; a
    positive start (negative [m]) drops from the front. *)
Definition slice_from {A} (start : Z) (l : list A) : list A :=
  let len := Z.of_nat (length l) in
  let i := if (start <? 0)%Z then Z.max (len + start) 0 else Z.min start len in
  drop (Z.to_nat i) l.

Definition last_slice {A} (m : Z) (l : list A) : list A := slice_from (- m) l.

(** [p in s] on strings: [p] occurs in [s] as a substring. *)
Fixpoint startswith (p s : str) : bool :=
  match p, s with
  | [], _ => true
  | _ :: _, [] => false
  | a :: p', b :: s' => (a =? b)%N && startswith p' s'
  end.

Fixpoint contains (p s : str) : bool :=
  startswith p s ||
  match s with
  | [] => false
  | _ :: s' => contains p s'
  end.

(** [s.encode("utf-8")] succeeds: [s] holds no surrogate code point.  On
    any other text a file opened with [encoding="utf-8"] raises
    [UnicodeEncodeError] when it is written to. *)
Definition surrogate (c : char) : bool := in_range 0xD800 0xDFFF c.

Definition encodable (s : str) : bool := forallb (λ c, negb (surrogate c)) s.

(** [str(i)] for a non-negative integer. *)
Definition str_of_nat (n : nat) : str :=
  lit (DecimalString.NilEmpty.string_of_uint (Nat.to_uint n)).

End Py.

(** ** Python dicts: association lists in insertion order *)

Module Dict.

Section Dict.
Context {V : Type}.
Abbreviation dict := (list (list N * V)).

(** [d.get(k)] *)
Fixpoint get (k : str) (d : dict) : option V :=
  match d with
  | [] => None
  | (k', v) :: d' => if decide (k = k') then Some v else get k d'
  end.

(** [k in d] *)
Definition mem (k : str) (d : dict) : bool := bool_decide (is_Some (get k d)).

(** [d[k] = v]: an existing key keeps its position, a new one goes last. *)
Fixpoint set (k : str) (v : V) (d : dict) : dict :=
  match d with
  | [] => [(k, v)]
  | (k', v') :: d' =>
      if decide (k = k') then (k, v) :: d' else (k', v') :: set k v d'
  end.

(** [del d[k]] *)
Fixpoint del (k : str) (d : dict) : dict :=
  match d with
  | [] => []
  | (k', v') :: d' =>
      if decide (k = k') then del k d' else (k', v') :: del k d'
  end.
End Dict.

End Dict.

(** ** SoulMapManager *)

Abbreviation profile := (list (list N * list N)) (only parsing).
Abbreviation store := (gmap (list N) (list (list N * list N))) (only parsing).

(** The manager's mutable state: the in-memory store [self.user_data], the
    stores [_save_data] has been called to write to [user_profiles.json]
    (newest first; what the file holds after them is [on_disk] below), and
    the number of times the wall clock has been read. *)
Record manager := Manager {
  user_data : store;
  saved : list store;
  clock : nat
}.

Inductive exn := ValueError.

(** The result of a call: it returns a value or raises, and either way
    leaves the manager in some state. *)
Inductive outcome (A : Type) :=
  | Ret (m : manager) (a : A)
  | Raise (m : manager) (e : exn).
Arguments Ret {A} m a.
Arguments Raise {A} m e.

Definition final {A} (o : outcome A) : manager :=
  match o with Ret m _ => m | Raise m _ => m end.

Definition NOTES : str := [0x5907; 0x6CE8]%N.            (* 备注 *)
Definition LAST_UPDATED : str := Py.lit "_last_updated".
Definition NOTE_SEP : str := [0xFF1B]%N.                  (* ； *)
Definition NO_DATA : str := [0x6682; 0x65E0; 0x8BB0; 0x5F55]%N.   (* 暂无记录 *)

(** The character class [[；;]]. *)
Definition is_note_sep (c : char) : bool := ((c =? 0xFF1B) || (c =? 0x3B))%N.

(** [[n.strip() for n in re.split(r'[；;]', v) if n.strip()]] *)
Definition split_notes (v : str) : list str :=
  Py.strip <$> filter (λ n, Py.strip n ≠ []) (Py.re_split is_note_sep v).

(** [[n.strip()[:20] for n in re.split(r'[；;]', v) if n.strip()]] *)
Definition split_new_notes (v : str) : list str :=
  (λ n, take 20 (Py.strip n)) <$>
    filter (λ n, Py.strip n ≠ []) (Py.re_split is_note_sep v).

(** The loop [for note in new_notes: if note not in notes: notes.append(note)]. *)
Definition append_new (notes new_notes : list str) : list str :=
  fold_left (λ acc note, if decide (note ∈ acc) then acc else acc ++ [note])
            new_notes notes.

Definition _get_user_key (user_id : str) (session_id : option str) : str :=
  match session_id with
  | Some (c :: s) => (c :: s) ++ Py.lit "_" ++ user_id
  | _ => user_id
  end.

(** The failure messages: [f"字段 '{field}' 不在允许列表中"],
    ["没有找到你的画像数据"], [f"备注第{field}条不存在"] and
    [f"未找到字段或备注条目 '{field}'"]. *)
Definition field_not_allowed (field : str) : str :=
  [0x5B57; 0x6BB5; 0x20; 0x27]%N ++ field ++
  [0x27; 0x20; 0x4E0D; 0x5728; 0x5141; 0x8BB8; 0x5217; 0x8868; 0x4E2D]%N.

Definition no_profile : str :=
  [0x6CA1; 0x6709; 0x627E; 0x5230; 0x4F60; 0x7684; 0x753B; 0x50CF; 0x6570; 0x636E]%N.

Definition no_such_note (field : str) : str :=
  [0x5907; 0x6CE8; 0x7B2C]%N ++ field ++ [0x6761; 0x4E0D; 0x5B58; 0x5728]%N.

Definition no_match_found (field : str) : str :=
  [0x672A; 0x627E; 0x5230; 0x5B57; 0x6BB5; 0x6216; 0x5907; 0x6CE8; 0x6761; 0x76EE;
   0x20; 0x27]%N ++ field ++ [0x27]%N.

(** [_save_data] opens the file for writing and hands the whole store to
    [json.dump].  It is the last thing a changing method does before it
    returns, after the change to the store in memory. *)
Definition _save_data (m : manager) : manager :=
  Manager (user_data m) (user_data m :: saved m) (clock m).

(** A store that [json.dump(..., ensure_ascii=False)] can write to a file
    opened with [encoding="utf-8"]: no key, field name or value holds a
    surrogate code point. *)
Definition encodable_profile (p : profile) : Prop :=
  Forall (λ kv, Py.encodable kv.1 = true ∧ Py.encodable kv.2 = true) p.

Definition dumpable (ud : store) : Prop :=
  map_Forall (λ key p, Py.encodable key = true ∧ encodable_profile p) ud.

#[global] Instance dumpable_dec (ud : store) : Decision (dumpable ud) :=
  map_Forall_dec _ ud.

(** The backing file after the saves so far.  Opening the file for writing
    empties it; on a store that is not [dumpable] the dump then raises
    [UnicodeEncodeError] part of the way and an incomplete document is
    left behind, and the method that saved raises instead of returning,
    with the store in memory already changed.  The results of
    [update_field], [delete_field] and [clear_profile] below are those of
    calls whose save goes through; the state they leave is the same in
    both cases.  (Failures of the operating system are left out.) *)
Inductive file :=
  | Untouched                       (* no save so far: the file is as it was *)
  | Document (ud : gmap (list N) (list (list N * list N)))
  | Truncated.                      (* an incomplete document *)

Definition on_disk (m : manager) : file :=
  match saved m with
  | [] => Untouched
  | ud :: _ => if bool_decide (dumpable ud) then Document ud else Truncated
  end.

(** Since the state [m0] no save has raised: every store handed to
    [_save_data] since then was dumpable, and so is the store in memory. *)
Definition healthy_since (m0 m : manager) : Prop :=
  dumpable (user_data m) ∧
  ∃ new, saved m = new ++ saved m0 ∧ Forall dumpable new.

Section Manager.
(** The configuration the manager is built with, and the wall clock:
    [now n] is what [datetime.now().strftime("%Y-%m-%d %H:%M:%S")]
    returns the [n]-th time it is read. *)
Variable allowed_fields : list str.
Variable max_notes_count : Z.
Variable now : nat → str.

Definition get_user_profile (m : manager) (user_id : str)
    (session_id : option str) : profile :=
  default [] (user_data m !! _get_user_key user_id session_id).

(** The value stored by a write to the notes field. *)
Definition merge_notes (existing value : str) : str :=
  let notes := match existing with [] => [] | _ => split_notes existing end in
  let new_notes := split_new_notes value in
  let notes := append_new notes new_notes in
  let notes := Py.last_slice max_notes_count notes in
  Py.join NOTE_SEP notes.

(** Stamp [_last_updated], put the profile back and save. *)
Definition commit (m : manager) (ud : store) (key : str) (p : profile) : manager :=
  let p := Dict.set LAST_UPDATED (now (clock m)) p in
  _save_data (Manager (<[key := p]> ud) (saved m) (S (clock m))).

Definition update_field (m : manager) (user_id field value : str)
    (session_id : option str) : manager * (bool * str) :=
  if negb (bool_decide (field ∈ allowed_fields)) then
    (m, (false, field_not_allowed field))
  else
    let key := _get_user_key user_id session_id in
    let ud := match user_data m !! key with
              | None => <[key := []]> (user_data m)
              | Some _ => user_data m
              end in
    let p := default [] (ud !! key) in
    let value := Py.strip value in
    let value := if decide (field = NOTES)
                 then merge_notes (default [] (Dict.get NOTES p)) value
                 else value in
    let p := Dict.set field value p in
    (commit m ud key p,
     (true, [0x5DF2; 0x66F4; 0x65B0; 0x20]%N ++ field)).

Definition delete_field (m : manager) (user_id field : str)
    (session_id : option str) : outcome (bool * str) :=
  let key := _get_user_key user_id session_id in
  match user_data m !! key with
  | None =>
      Ret m (false, no_profile)
  | Some p =>
      (* 1. exact field name *)
      if Dict.mem field p then
        Ret (commit m (user_data m) key (Dict.del field p))
            (true, [0x5DF2; 0x5220; 0x9664; 0x5B57; 0x6BB5; 0x20]%N ++ field)
      (* 2. numeric index into the notes *)
      else if Dict.mem NOTES p && Py.isdigit field then
        match Py.int field with
        | None => Raise m ValueError
        | Some n =>
            let idx := (n - 1)%Z in
            let notes := split_notes (default [] (Dict.get NOTES p)) in
            if bool_decide (0 ≤ idx < Z.of_nat (length notes))%Z then
              let deleted_note := default [] (notes !! Z.to_nat idx) in
              let notes := delete (Z.to_nat idx) notes in
              let p := match notes with
                       | [] => Dict.del NOTES p
                       | _ => Dict.set NOTES (Py.join NOTE_SEP notes) p
                       end in
              Ret (commit m (user_data m) key p)
                  (true, [0x5DF2; 0x5220; 0x9664; 0x5907; 0x6CE8; 0x7B2C]%N ++ field
                         ++ [0x6761; 0xFF1A]%N ++ deleted_note)
            else
              Ret m (false, no_such_note field)
        end
      else
        let not_found := Ret m (false, no_match_found field) in
        (* 3. substring match inside the notes *)
        if Dict.mem NOTES p then
          let notes := split_notes (default [] (Dict.get NOTES p)) in
          let new_notes := filter (λ n, Py.contains field n = false) notes in
          if bool_decide (length new_notes < length notes) then
            let p := match new_notes with
                     | [] => Dict.del NOTES p
                     | _ => Dict.set NOTES (Py.join NOTE_SEP new_notes) p
                     end in
            Ret (commit m (user_data m) key p)
                (true, [0x5DF2; 0x4ECE; 0x5907; 0x6CE8; 0x4E2D; 0x5220; 0x9664;
                        0x5305; 0x542B; 0x20; 0x27]%N ++ field
                       ++ [0x27; 0x20; 0x7684; 0x6761; 0x76EE]%N)
          else not_found
        else not_found
  end.

Definition clear_profile (m : manager) (user_id : str)
    (session_id : option str) : manager * bool :=
  let key := _get_user_key user_id session_id in
  match user_data m !! key with
  | Some _ =>
      (_save_data (Manager (delete key (user_data m)) (saved m) (clock m)), true)
  | None => (m, false)
  end.

(** [f"{i}.{note}" for i, note in enumerate(notes, 1)] *)
Fixpoint numbered (i : nat) (notes : list str) : list str :=
  match notes with
  | [] => []
  | note :: rest => (Py.str_of_nat i ++ Py.lit "." ++ note) :: numbered (S i) rest
  end.

(** One pass of the loop body of [format_profile_summary]. *)
Definition summary_step (p : profile) (lines : list str) (field : str) : list str :=
  match Dict.get field p with
  | Some (c :: v) =>
      if decide (field = NOTES) then
        let notes := split_notes (c :: v) in
        let notes_display := Py.join (Py.lit " ") (numbered 1 notes) in
        lines ++ [[0x2D; 0x20; 0x5907; 0x6CE8; 0xFF1A]%N ++ notes_display]
      else
        lines ++ [Py.lit "- " ++ field ++ [0xFF1A]%N ++ (c :: v)]
  | _ => lines
  end.

Definition format_profile_summary (m : manager) (user_id : str)
    (session_id : option str) : str :=
  let p := get_user_profile m user_id session_id in
  match p with
  | [] => NO_DATA
  | _ =>
      let lines := fold_left (summary_step p) allowed_fields [] in
      match lines with
      | [] => NO_DATA
      | _ => Py.join [10%N] lines                 (* "\n".join(lines) *)
      end
  end.

Definition export_all_profiles (m : manager) : store := user_data m.
End Manager.

(** ** Loading the backing document *)

(** What [json.load] can produce: any JSON value, not only an object. *)
#[local] Set Warnings "-register-all".
Inductive json :=
  | JNull
  | JBool (b : bool)
  | JNumber (n : Z)
  | JString (s : str)
  | JArray (l : list json)
  | JObject (o : list (list N * json)).

(** The exceptions that reading and parsing the file can raise. *)
Inductive load_exn :=
  | JSONDecodeError        (* the text is not JSON *)
  | TypeError
  | UnicodeDecodeError     (* the bytes are not UTF-8 *)
  | RecursionError         (* the document is nested too deep *)
  | OSError.               (* the file cannot be opened or read *)

(** [_load_data]: [path_exists] is [path.exists()], and [read] is what
    [open] followed by [json.load] does when the path exists.  Only
    [JSONDecodeError] and [TypeError] are caught. *)
Definition _load_data (path_exists : bool) (read : load_exn + json)
    : load_exn + json :=
  if negb path_exists then inr (JObject [])
  else match read with
       | inr v => inr v
       | inl JSONDecodeError | inl TypeError => inr (JObject [])
       | inl e => inl e
       end.

(** ** SoulMapPlugin: delete directives and the sanitizer *)

(** The character class [[,，;；、]]. *)
Definition is_target_sep (c : char) : bool :=
  ((c =? 0x2C) || (c =? 0xFF0C) || (c =? 0x3B) || (c =? 0xFF1B) || (c =? 0x3001))%N.

(** [[f.strip() for f in re.split(r'[,，;；、]', match) if f.strip()]] *)
Definition split_targets (body : str) : list str :=
  Py.strip <$> filter (λ f, Py.strip f ≠ []) (Py.re_split is_target_sep body).

(** [sorted(l, key=int, reverse=True)]: the keys are computed first, in
    list order, so a target [int] rejects raises before anything is sorted;
    the sort is stable, equal keys keep their order. *)
Fixpoint insert_desc (x : Z * list N) (l : list (Z * list N)) : list (Z * list N) :=
  match l with
  | [] => [x]
  | y :: l' => if (y.1 <=? x.1)%Z then x :: l else y :: insert_desc x l'
  end.

Definition sort_desc (l : list (Z * list N)) : list (Z * list N) :=
  foldr insert_desc [] l.

Definition sorted_by_int_desc (l : list str) : option (list str) :=
  keyed ← mapM (λ f, (λ k, (k, f)) <$> Py.int f) l;
  Some (snd <$> sort_desc keyed).

(** The order in which the targets of one block are deleted:
    [other_fields + digit_fields], where [digit_fields] are the [isdigit]
    targets sorted by descending value and [other_fields] the remaining
    ones in the order written.  [None] when the sort raises. *)
Definition delete_order (fields : list str) : option (list str) :=
  digit_fields ← sorted_by_int_desc (filter (λ f, Py.isdigit f = true) fields);
  let other_fields := filter (λ f, Py.isdigit f = false) fields in
  Some (other_fields ++ digit_fields).

Section Plugin.
Variable allowed_fields : list str.
Variable max_notes_count : Z.
Variable now : nat → str.

(** The loop [for field in other_fields + digit_fields]. *)
Fixpoint delete_each (m : manager) (user_id : str) (session_id : option str)
    (fields : list str) : outcome unit :=
  match fields with
  | [] => Ret m tt
  | field :: rest =>
      match delete_field now m user_id field session_id with
      | Ret m' _ => delete_each m' user_id session_id rest
      | Raise m' e => Raise m' e
      end
  end.

(** The body of [for match in self.delete_pattern.findall(original_text)]
    in [on_llm_resp], for one block body [match]. *)
Definition on_llm_resp_delete (m : manager) (user_id : str)
    (session_id : option str) (body : str) : outcome unit :=
  match delete_order (split_targets body) with
  | None => Raise m ValueError
  | Some fields => delete_each m user_id session_id fields
  end.
End Plugin.

(** A pattern letter under [re.IGNORECASE]: the character's lower case is
    the letter, or one of the letter's case-folding equivalents ([i] also
    matches U+0130 and U+0131).  [lo] is one of the lower-case letters of
    the two keywords. *)
Definition ci_match (lo c : char) : bool :=
  ((c =? lo) || (Py.in_range 0x41 0x5A c && (c + 32 =? lo))
   || ((lo =? 0x69) && ((c =? 0x130) || (c =? 0x131))))%N.

Fixpoint match_keyword (kw : str) (s : str) : option str :=
  match kw, s with
  | [], _ => Some s
  | _ :: _, [] => None
  | k :: kw', c :: s' => if ci_match k c then match_keyword kw' s' else None
  end.

(** One literal character of a pattern. *)
Definition expect (c : char) (s : str) : option str :=
  match s with
  | x :: s' => if (x =? c)%N then Some s' else None
  | [] => None
  end.

Definition KW_PROFILE : str := Eval vm_compute in Py.lit "profile".
Definition KW_DELETE : str := Eval vm_compute in Py.lit "delete".

(** [(?:Profile|ProfileDelete):] *)
Definition match_marker (s : str) : option str :=
  match match_keyword KW_PROFILE s ≫= expect 0x3A with
  | Some s' => Some s'
  | None => match_keyword (KW_PROFILE ++ KW_DELETE) s ≫= expect 0x3A
  end.

(** [[^\]]*]: the longest run without a closing bracket. *)
Fixpoint skip_body (s : str) : str :=
  match s with
  | [] => []
  | c :: s' => if (c =? 0x5D)%N then s else skip_body s'
  end.

(** One match of [block_pattern] at the start of [s]: the text left after
    it.  Greedy [\s*] and [[^\]]*] never give characters back, because what
    follows them (an opening, a closing bracket) is outside what they
    consume; the two keywords exclude each other, because [:] does not
    match [D]. *)
Definition match_block (s : str) : option str :=
  s1 ← expect 0x5B (Py.lstrip s);
  s2 ← match_marker s1;
  s3 ← expect 0x5D (skip_body s2);
  Some (Py.lstrip s3).

(** [block_pattern.sub('', s)]: scan from the left, drop each match and go
    on after it.  A match is never empty, so the length of the text bounds
    the number of steps. *)
Fixpoint sub_blocks (fuel : nat) (s : str) : str :=
  match fuel with
  | O => s
  | S fuel' =>
      match match_block s with
      | Some rest => sub_blocks fuel' rest
      | None =>
          match s with
          | [] => []
          | c :: s' => c :: sub_blocks fuel' s'
          end
      end
  end.

Definition block_sub (s : str) : str := sub_blocks (length s) s.

(** [self.block_pattern.sub('', text).strip()], the sanitizer. *)
Definition strip_blocks (text : str) : str := Py.strip (block_sub text).

(** ** Auxiliary notions used in the statements *)

(** A well-formed note entry: non-empty, trimmed, free of separators. *)
Definition clean_note (e : str) : Prop :=
  e ≠ [] ∧ Py.strip e = e ∧ Forall (λ c, is_note_sep c = false) e.

(** The notes value stored for a profile key, if any. *)
Definition notes_value (m : manager) (key : str) : option str :=
  user_data m !! key ≫= Dict.get NOTES.

(** The note entries of a profile key, as every reader of the field parses
    them (none when the field is absent). *)
Definition notes_of (m : manager) (key : str) : list str :=
  split_notes (default [] (notes_value m key)).

(** The note entries of a notes value, as the specification has them: the
    value is a sequence of pieces separated by [；] or [;], and its entries
    are the pieces, trimmed, without those that are blank. *)
Definition entry_of (piece : str) : list str :=
  match Py.strip piece with [] => [] | e => [e] end.

Inductive note_entries : str → list str → Prop :=
  | note_entries_last piece :
      Forall (λ c, is_note_sep c = false) piece →
      note_entries piece (entry_of piece)
  | note_entries_more piece sep rest entries :
      Forall (λ c, is_note_sep c = false) piece → is_note_sep sep = true →
      note_entries rest entries →
      note_entries (piece ++ sep :: rest) (entry_of piece ++ entries).

(** The summary as the specification words it, for comparison with
    [format_profile_summary].  The profile is given by its lookups and by
    its note entries.  One line [- field：value] per field of the allow-list
    whose value is present and not empty, in the order of the allow-list;
    for the notes field the line [- 备注：1.note 2.note ...]; the no-data
    sentinel when there is no line. *)
Definition spec_line (notes : list str) (field value : str) : str :=
  if decide (field = NOTES) then
    [0x2D; 0x20; 0x5907; 0x6CE8; 0xFF1A]%N ++
    Py.join [0x20%N]
      (imap (λ i note, Py.str_of_nat (S i) ++ [0x2E%N] ++ note) notes)
  else [0x2D; 0x20]%N ++ field ++ [0xFF1A]%N ++ value.

Definition spec_summary (allowed_fields : list str)
    (lookup : list N → option (list N)) (notes : list str) : str :=
  let lines :=
    omap (λ field, match lookup field with
                   | Some (c :: value) => Some (spec_line notes field (c :: value))
                   | _ => None
                   end) allowed_fields in
  match lines with
  | [] => NO_DATA
  | _ => Py.join [0x0A%N] lines
  end.

(** A manager whose store holds one profile. *)
Definition single_profile (key : str) (p : profile) : manager :=
  Manager {[ key := p ]} [] 0.

(** A wall clock that always reads the same time. *)
Definition fixed_clock : nat → str := λ _, Py.lit "2026-01-01 00:00:00".

(** The manager of a new installation: empty store, nothing saved yet. *)
Definition fresh : manager := Manager ∅ [] 0.

(** Bracket shape of a text.  [plain_until_close s]: no opening bracket
    occurs in [s] before its first closing bracket.  [brackets_flat s]: no
    opening bracket of [s] has another opening bracket between it and the
    next closing bracket, that is, brackets are not nested. *)
Fixpoint plain_until_close (s : str) : bool :=
  match s with
  | [] => true
  | c :: s' =>
      if (c =? 0x5D)%N then true
      else if (c =? 0x5B)%N then false
      else plain_until_close s'
  end.

Fixpoint brackets_flat (s : str) : bool :=
  match s with
  | [] => true
  | c :: s' =>
      (if (c =? 0x5B)%N then plain_until_close s' else true) && brackets_flat s'
  end.

(** No directive block starts anywhere in [s]. *)
Definition block_free (s : str) : Prop :=
  ∀ u, u `suffix_of` s → match_block u = None.





(** [valid_indices k targets]: each target in turn is a valid 1-based index
    into a list that starts with [k] entries and loses one per target. *)
Fixpoint valid_indices (k : nat) (targets : list str) : Prop :=
  match targets with
  | [] => True
  | t :: ts =>
      Py.isdigit t = true ∧
      (∃ n, Py.int t = Some n ∧ (1 ≤ n ≤ Z.of_nat k)%Z) ∧
      valid_indices (k - 1) ts
  end.

(** The invariant C3 states for a stored notes value. *)
Definition notes_invariant (max_notes_count : Z) (v : str) : Prop :=
  ∃ entries,
    v = Py.join NOTE_SEP entries ∧
    (Z.of_nat (length entries) ≤ max_notes_count)%Z ∧
    Forall (λ e, e ≠ [] ∧ Py.strip e = e ∧ length e ≤ 20) entries ∧
    NoDup entries.

(** Writing a note list back: the field goes when the list is empty. *)
Definition put_notes (notes : list str) (p : profile) : profile :=
  match notes with
  | [] => Dict.del NOTES p
  | _ => Dict.set NOTES (Py.join NOTE_SEP notes) p
  end.

Definition NICKNAME : str := [0x6635; 0x79F0]%N.          (* 昵称 *)

(** Nineteen letters, a space and one more letter: trimmed, and one
    character too long for a note, with the space as its twentieth. *)
Definition LONG_NOTE : str := Py.lit "aaaaaaaaaaaaaaaaaaa b".
Definition LONG_NOTE_HEAD : str := Py.lit "aaaaaaaaaaaaaaaaaaa".

(** What does hold of every note entry the code stores: it is not empty,
    has at most 20 characters, starts with a visible character and holds
    no separator. *)
Definition note_ok (e : str) : Prop :=
  e ≠ [] ∧ length e ≤ 20 ∧ Py.lstrip e = e ∧ Forall (λ c, is_note_sep c = false) e.

Definition notes_bounded (max_notes_count : Z) (v : str) : Prop :=
  ∃ entries,
    v = Py.join NOTE_SEP entries ∧ Forall note_ok entries ∧
    ((0 < max_notes_count)%Z → (Z.of_nat (length entries) ≤ max_notes_count)%Z).

Section Reachable.
Variable allowed_fields : list str.
Variable max_notes_count : Z.
Variable now : nat → str.

(** One call of [update_field] or [delete_field]. *)
Inductive transition : manager → manager → Prop :=
  | transition_update m user_id field value session_id :
      transition m (update_field allowed_fields max_notes_count now m
                      user_id field value session_id).1
  | transition_delete m user_id field session_id :
      transition m (final (delete_field now m user_id field session_id)).

Definition reachable (m : manager) : Prop := rtc transition fresh m.
End Reachable.

(** ** SoulMapPlugin: the response hook *)

Module Re.

(** The class [[\w一-鿿]]: the characters [\w] matches in a [str]
    pattern (alphanumeric characters and the underscore, Unicode 14); the
    ideograph range lies inside it. *)
Definition word_table : list (N * N) :=
  [
    (0x30, 0x39); (0x41, 0x5A); (0x5F, 0x5F); (0x61, 0x7A); (0xAA, 0xAA);
    (0xB2, 0xB3); (0xB5, 0xB5); (0xB9, 0xBA); (0xBC, 0xBE); (0xC0, 0xD6);
    (0xD8, 0xF6); (0xF8, 0x2C1); (0x2C6, 0x2D1); (0x2E0, 0x2E4);
    (0x2EC, 0x2EC); (0x2EE, 0x2EE); (0x370, 0x374); (0x376, 0x377);
    (0x37A, 0x37D); (0x37F, 0x37F); (0x386, 0x386); (0x388, 0x38A);
    (0x38C, 0x38C); (0x38E, 0x3A1); (0x3A3, 0x3F5); (0x3F7, 0x481);
    (0x48A, 0x52F); (0x531, 0x556); (0x559, 0x559); (0x560, 0x588);
    (0x5D0, 0x5EA); (0x5EF, 0x5F2); (0x620, 0x64A); (0x660, 0x669);
    (0x66E, 0x66F); (0x671, 0x6D3); (0x6D5, 0x6D5); (0x6E5, 0x6E6);
    (0x6EE, 0x6FC); (0x6FF, 0x6FF); (0x710, 0x710); (0x712, 0x72F);
    (0x74D, 0x7A5); (0x7B1, 0x7B1); (0x7C0, 0x7EA); (0x7F4, 0x7F5);
    (0x7FA, 0x7FA); (0x800, 0x815); (0x81A, 0x81A); (0x824, 0x824);
    (0x828, 0x828); (0x840, 0x858); (0x860, 0x86A); (0x870, 0x887);
    (0x889, 0x88E); (0x8A0, 0x8C9); (0x904, 0x939); (0x93D, 0x93D);
    (0x950, 0x950); (0x958, 0x961); (0x966, 0x96F); (0x971, 0x980);
    (0x985, 0x98C); (0x98F, 0x990); (0x993, 0x9A8); (0x9AA, 0x9B0);
    (0x9B2, 0x9B2); (0x9B6, 0x9B9); (0x9BD, 0x9BD); (0x9CE, 0x9CE);
    (0x9DC, 0x9DD); (0x9DF, 0x9E1); (0x9E6, 0x9F1); (0x9F4, 0x9F9);
    (0x9FC, 0x9FC); (0xA05, 0xA0A); (0xA0F, 0xA10); (0xA13, 0xA28);
    (0xA2A, 0xA30); (0xA32, 0xA33); (0xA35, 0xA36); (0xA38, 0xA39);
    (0xA59, 0xA5C); (0xA5E, 0xA5E); (0xA66, 0xA6F); (0xA72, 0xA74);
    (0xA85, 0xA8D); (0xA8F, 0xA91); (0xA93, 0xAA8); (0xAAA, 0xAB0);
    (0xAB2, 0xAB3); (0xAB5, 0xAB9); (0xABD, 0xABD); (0xAD0, 0xAD0);
    (0xAE0, 0xAE1); (0xAE6, 0xAEF); (0xAF9, 0xAF9); (0xB05, 0xB0C);
    (0xB0F, 0xB10); (0xB13, 0xB28); (0xB2A, 0xB30); (0xB32, 0xB33);
    (0xB35, 0xB39); (0xB3D, 0xB3D); (0xB5C, 0xB5D); (0xB5F, 0xB61);
    (0xB66, 0xB6F); (0xB71, 0xB77); (0xB83, 0xB83); (0xB85, 0xB8A);
    (0xB8E, 0xB90); (0xB92, 0xB95); (0xB99, 0xB9A); (0xB9C, 0xB9C);
    (0xB9E, 0xB9F); (0xBA3, 0xBA4); (0xBA8, 0xBAA); (0xBAE, 0xBB9);
    (0xBD0, 0xBD0); (0xBE6, 0xBF2); (0xC05, 0xC0C); (0xC0E, 0xC10);
    (0xC12, 0xC28); (0xC2A, 0xC39); (0xC3D, 0xC3D); (0xC58, 0xC5A);
    (0xC5D, 0xC5D); (0xC60, 0xC61); (0xC66, 0xC6F); (0xC78, 0xC7E);
    (0xC80, 0xC80); (0xC85, 0xC8C); (0xC8E, 0xC90); (0xC92, 0xCA8);
    (0xCAA, 0xCB3); (0xCB5, 0xCB9); (0xCBD, 0xCBD); (0xCDD, 0xCDE);
    (0xCE0, 0xCE1); (0xCE6, 0xCEF); (0xCF1, 0xCF2); (0xD04, 0xD0C);
    (0xD0E, 0xD10); (0xD12, 0xD3A); (0xD3D, 0xD3D); (0xD4E, 0xD4E);
    (0xD54, 0xD56); (0xD58, 0xD61); (0xD66, 0xD78); (0xD7A, 0xD7F);
    (0xD85, 0xD96); (0xD9A, 0xDB1); (0xDB3, 0xDBB); (0xDBD, 0xDBD);
    (0xDC0, 0xDC6); (0xDE6, 0xDEF); (0xE01, 0xE30); (0xE32, 0xE33);
    (0xE40, 0xE46); (0xE50, 0xE59); (0xE81, 0xE82); (0xE84, 0xE84);
    (0xE86, 0xE8A); (0xE8C, 0xEA3); (0xEA5, 0xEA5); (0xEA7, 0xEB0);
    (0xEB2, 0xEB3); (0xEBD, 0xEBD); (0xEC0, 0xEC4); (0xEC6, 0xEC6);
    (0xED0, 0xED9); (0xEDC, 0xEDF); (0xF00, 0xF00); (0xF20, 0xF33);
    (0xF40, 0xF47); (0xF49, 0xF6C); (0xF88, 0xF8C); (0x1000, 0x102A);
    (0x103F, 0x1049); (0x1050, 0x1055); (0x105A, 0x105D); (0x1061, 0x1061);
    (0x1065, 0x1066); (0x106E, 0x1070); (0x1075, 0x1081); (0x108E, 0x108E);
    (0x1090, 0x1099); (0x10A0, 0x10C5); (0x10C7, 0x10C7); (0x10CD, 0x10CD);
    (0x10D0, 0x10FA); (0x10FC, 0x1248); (0x124A, 0x124D); (0x1250, 0x1256);
    (0x1258, 0x1258); (0x125A, 0x125D); (0x1260, 0x1288); (0x128A, 0x128D);
    (0x1290, 0x12B0); (0x12B2, 0x12B5); (0x12B8, 0x12BE); (0x12C0, 0x12C0);
    (0x12C2, 0x12C5); (0x12C8, 0x12D6); (0x12D8, 0x1310); (0x1312, 0x1315);
    (0x1318, 0x135A); (0x1369, 0x137C); (0x1380, 0x138F); (0x13A0, 0x13F5);
    (0x13F8, 0x13FD); (0x1401, 0x166C); (0x166F, 0x167F); (0x1681, 0x169A);
    (0x16A0, 0x16EA); (0x16EE, 0x16F8); (0x1700, 0x1711); (0x171F, 0x1731);
    (0x1740, 0x1751); (0x1760, 0x176C); (0x176E, 0x1770); (0x1780, 0x17B3);
    (0x17D7, 0x17D7); (0x17DC, 0x17DC); (0x17E0, 0x17E9); (0x17F0, 0x17F9);
    (0x1810, 0x1819); (0x1820, 0x1878); (0x1880, 0x1884); (0x1887, 0x18A8);
    (0x18AA, 0x18AA); (0x18B0, 0x18F5); (0x1900, 0x191E); (0x1946, 0x196D);
    (0x1970, 0x1974); (0x1980, 0x19AB); (0x19B0, 0x19C9); (0x19D0, 0x19DA);
    (0x1A00, 0x1A16); (0x1A20, 0x1A54); (0x1A80, 0x1A89); (0x1A90, 0x1A99);
    (0x1AA7, 0x1AA7); (0x1B05, 0x1B33); (0x1B45, 0x1B4C); (0x1B50, 0x1B59);
    (0x1B83, 0x1BA0); (0x1BAE, 0x1BE5); (0x1C00, 0x1C23); (0x1C40, 0x1C49);
    (0x1C4D, 0x1C7D); (0x1C80, 0x1C88); (0x1C90, 0x1CBA); (0x1CBD, 0x1CBF);
    (0x1CE9, 0x1CEC); (0x1CEE, 0x1CF3); (0x1CF5, 0x1CF6); (0x1CFA, 0x1CFA);
    (0x1D00, 0x1DBF); (0x1E00, 0x1F15); (0x1F18, 0x1F1D); (0x1F20, 0x1F45);
    (0x1F48, 0x1F4D); (0x1F50, 0x1F57); (0x1F59, 0x1F59); (0x1F5B, 0x1F5B);
    (0x1F5D, 0x1F5D); (0x1F5F, 0x1F7D); (0x1F80, 0x1FB4); (0x1FB6, 0x1FBC);
    (0x1FBE, 0x1FBE); (0x1FC2, 0x1FC4); (0x1FC6, 0x1FCC); (0x1FD0, 0x1FD3);
    (0x1FD6, 0x1FDB); (0x1FE0, 0x1FEC); (0x1FF2, 0x1FF4); (0x1FF6, 0x1FFC);
    (0x2070, 0x2071); (0x2074, 0x2079); (0x207F, 0x2089); (0x2090, 0x209C);
    (0x2102, 0x2102); (0x2107, 0x2107); (0x210A, 0x2113); (0x2115, 0x2115);
    (0x2119, 0x211D); (0x2124, 0x2124); (0x2126, 0x2126); (0x2128, 0x2128);
    (0x212A, 0x212D); (0x212F, 0x2139); (0x213C, 0x213F); (0x2145, 0x2149);
    (0x214E, 0x214E); (0x2150, 0x2189); (0x2460, 0x249B); (0x24EA, 0x24FF);
    (0x2776, 0x2793); (0x2C00, 0x2CE4); (0x2CEB, 0x2CEE); (0x2CF2, 0x2CF3);
    (0x2CFD, 0x2CFD); (0x2D00, 0x2D25); (0x2D27, 0x2D27); (0x2D2D, 0x2D2D);
    (0x2D30, 0x2D67); (0x2D6F, 0x2D6F); (0x2D80, 0x2D96); (0x2DA0, 0x2DA6);
    (0x2DA8, 0x2DAE); (0x2DB0, 0x2DB6); (0x2DB8, 0x2DBE); (0x2DC0, 0x2DC6);
    (0x2DC8, 0x2DCE); (0x2DD0, 0x2DD6); (0x2DD8, 0x2DDE); (0x2E2F, 0x2E2F);
    (0x3005, 0x3007); (0x3021, 0x3029); (0x3031, 0x3035); (0x3038, 0x303C);
    (0x3041, 0x3096); (0x309D, 0x309F); (0x30A1, 0x30FA); (0x30FC, 0x30FF);
    (0x3105, 0x312F); (0x3131, 0x318E); (0x3192, 0x3195); (0x31A0, 0x31BF);
    (0x31F0, 0x31FF); (0x3220, 0x3229); (0x3248, 0x324F); (0x3251, 0x325F);
    (0x3280, 0x3289); (0x32B1, 0x32BF); (0x3400, 0x4DBF); (0x4E00, 0xA48C);
    (0xA4D0, 0xA4FD); (0xA500, 0xA60C); (0xA610, 0xA62B); (0xA640, 0xA66E);
    (0xA67F, 0xA69D); (0xA6A0, 0xA6EF); (0xA717, 0xA71F); (0xA722, 0xA788);
    (0xA78B, 0xA7CA); (0xA7D0, 0xA7D1); (0xA7D3, 0xA7D3); (0xA7D5, 0xA7D9);
    (0xA7F2, 0xA801); (0xA803, 0xA805); (0xA807, 0xA80A); (0xA80C, 0xA822);
    (0xA830, 0xA835); (0xA840, 0xA873); (0xA882, 0xA8B3); (0xA8D0, 0xA8D9);
    (0xA8F2, 0xA8F7); (0xA8FB, 0xA8FB); (0xA8FD, 0xA8FE); (0xA900, 0xA925);
    (0xA930, 0xA946); (0xA960, 0xA97C); (0xA984, 0xA9B2); (0xA9CF, 0xA9D9);
    (0xA9E0, 0xA9E4); (0xA9E6, 0xA9FE); (0xAA00, 0xAA28); (0xAA40, 0xAA42);
    (0xAA44, 0xAA4B); (0xAA50, 0xAA59); (0xAA60, 0xAA76); (0xAA7A, 0xAA7A);
    (0xAA7E, 0xAAAF); (0xAAB1, 0xAAB1); (0xAAB5, 0xAAB6); (0xAAB9, 0xAABD);
    (0xAAC0, 0xAAC0); (0xAAC2, 0xAAC2); (0xAADB, 0xAADD); (0xAAE0, 0xAAEA);
    (0xAAF2, 0xAAF4); (0xAB01, 0xAB06); (0xAB09, 0xAB0E); (0xAB11, 0xAB16);
    (0xAB20, 0xAB26); (0xAB28, 0xAB2E); (0xAB30, 0xAB5A); (0xAB5C, 0xAB69);
    (0xAB70, 0xABE2); (0xABF0, 0xABF9); (0xAC00, 0xD7A3); (0xD7B0, 0xD7C6);
    (0xD7CB, 0xD7FB); (0xF900, 0xFA6D); (0xFA70, 0xFAD9); (0xFB00, 0xFB06);
    (0xFB13, 0xFB17); (0xFB1D, 0xFB1D); (0xFB1F, 0xFB28); (0xFB2A, 0xFB36);
    (0xFB38, 0xFB3C); (0xFB3E, 0xFB3E); (0xFB40, 0xFB41); (0xFB43, 0xFB44);
    (0xFB46, 0xFBB1); (0xFBD3, 0xFD3D); (0xFD50, 0xFD8F); (0xFD92, 0xFDC7);
    (0xFDF0, 0xFDFB); (0xFE70, 0xFE74); (0xFE76, 0xFEFC); (0xFF10, 0xFF19);
    (0xFF21, 0xFF3A); (0xFF41, 0xFF5A); (0xFF66, 0xFFBE); (0xFFC2, 0xFFC7);
    (0xFFCA, 0xFFCF); (0xFFD2, 0xFFD7); (0xFFDA, 0xFFDC); (0x10000, 0x1000B);
    (0x1000D, 0x10026); (0x10028, 0x1003A); (0x1003C, 0x1003D);
    (0x1003F, 0x1004D); (0x10050, 0x1005D); (0x10080, 0x100FA);
    (0x10107, 0x10133); (0x10140, 0x10178); (0x1018A, 0x1018B);
    (0x10280, 0x1029C); (0x102A0, 0x102D0); (0x102E1, 0x102FB);
    (0x10300, 0x10323); (0x1032D, 0x1034A); (0x10350, 0x10375);
    (0x10380, 0x1039D); (0x103A0, 0x103C3); (0x103C8, 0x103CF);
    (0x103D1, 0x103D5); (0x10400, 0x1049D); (0x104A0, 0x104A9);
    (0x104B0, 0x104D3); (0x104D8, 0x104FB); (0x10500, 0x10527);
    (0x10530, 0x10563); (0x10570, 0x1057A); (0x1057C, 0x1058A);
    (0x1058C, 0x10592); (0x10594, 0x10595); (0x10597, 0x105A1);
    (0x105A3, 0x105B1); (0x105B3, 0x105B9); (0x105BB, 0x105BC);
    (0x10600, 0x10736); (0x10740, 0x10755); (0x10760, 0x10767);
    (0x10780, 0x10785); (0x10787, 0x107B0); (0x107B2, 0x107BA);
    (0x10800, 0x10805); (0x10808, 0x10808); (0x1080A, 0x10835);
    (0x10837, 0x10838); (0x1083C, 0x1083C); (0x1083F, 0x10855);
    (0x10858, 0x10876); (0x10879, 0x1089E); (0x108A7, 0x108AF);
    (0x108E0, 0x108F2); (0x108F4, 0x108F5); (0x108FB, 0x1091B);
    (0x10920, 0x10939); (0x10980, 0x109B7); (0x109BC, 0x109CF);
    (0x109D2, 0x10A00); (0x10A10, 0x10A13); (0x10A15, 0x10A17);
    (0x10A19, 0x10A35); (0x10A40, 0x10A48); (0x10A60, 0x10A7E);
    (0x10A80, 0x10A9F); (0x10AC0, 0x10AC7); (0x10AC9, 0x10AE4);
    (0x10AEB, 0x10AEF); (0x10B00, 0x10B35); (0x10B40, 0x10B55);
    (0x10B58, 0x10B72); (0x10B78, 0x10B91); (0x10BA9, 0x10BAF);
    (0x10C00, 0x10C48); (0x10C80, 0x10CB2); (0x10CC0, 0x10CF2);
    (0x10CFA, 0x10D23); (0x10D30, 0x10D39); (0x10E60, 0x10E7E);
    (0x10E80, 0x10EA9); (0x10EB0, 0x10EB1); (0x10F00, 0x10F27);
    (0x10F30, 0x10F45); (0x10F51, 0x10F54); (0x10F70, 0x10F81);
    (0x10FB0, 0x10FCB); (0x10FE0, 0x10FF6); (0x11003, 0x11037);
    (0x11052, 0x1106F); (0x11071, 0x11072); (0x11075, 0x11075);
    (0x11083, 0x110AF); (0x110D0, 0x110E8); (0x110F0, 0x110F9);
    (0x11103, 0x11126); (0x11136, 0x1113F); (0x11144, 0x11144);
    (0x11147, 0x11147); (0x11150, 0x11172); (0x11176, 0x11176);
    (0x11183, 0x111B2); (0x111C1, 0x111C4); (0x111D0, 0x111DA);
    (0x111DC, 0x111DC); (0x111E1, 0x111F4); (0x11200, 0x11211);
    (0x11213, 0x1122B); (0x11280, 0x11286); (0x11288, 0x11288);
    (0x1128A, 0x1128D); (0x1128F, 0x1129D); (0x1129F, 0x112A8);
    (0x112B0, 0x112DE); (0x112F0, 0x112F9); (0x11305, 0x1130C);
    (0x1130F, 0x11310); (0x11313, 0x11328); (0x1132A, 0x11330);
    (0x11332, 0x11333); (0x11335, 0x11339); (0x1133D, 0x1133D);
    (0x11350, 0x11350); (0x1135D, 0x11361); (0x11400, 0x11434);
    (0x11447, 0x1144A); (0x11450, 0x11459); (0x1145F, 0x11461);
    (0x11480, 0x114AF); (0x114C4, 0x114C5); (0x114C7, 0x114C7);
    (0x114D0, 0x114D9); (0x11580, 0x115AE); (0x115D8, 0x115DB);
    (0x11600, 0x1162F); (0x11644, 0x11644); (0x11650, 0x11659);
    (0x11680, 0x116AA); (0x116B8, 0x116B8); (0x116C0, 0x116C9);
    (0x11700, 0x1171A); (0x11730, 0x1173B); (0x11740, 0x11746);
    (0x11800, 0x1182B); (0x118A0, 0x118F2); (0x118FF, 0x11906);
    (0x11909, 0x11909); (0x1190C, 0x11913); (0x11915, 0x11916);
    (0x11918, 0x1192F); (0x1193F, 0x1193F); (0x11941, 0x11941);
    (0x11950, 0x11959); (0x119A0, 0x119A7); (0x119AA, 0x119D0);
    (0x119E1, 0x119E1); (0x119E3, 0x119E3); (0x11A00, 0x11A00);
    (0x11A0B, 0x11A32); (0x11A3A, 0x11A3A); (0x11A50, 0x11A50);
    (0x11A5C, 0x11A89); (0x11A9D, 0x11A9D); (0x11AB0, 0x11AF8);
    (0x11C00, 0x11C08); (0x11C0A, 0x11C2E); (0x11C40, 0x11C40);
    (0x11C50, 0x11C6C); (0x11C72, 0x11C8F); (0x11D00, 0x11D06);
    (0x11D08, 0x11D09); (0x11D0B, 0x11D30); (0x11D46, 0x11D46);
    (0x11D50, 0x11D59); (0x11D60, 0x11D65); (0x11D67, 0x11D68);
    (0x11D6A, 0x11D89); (0x11D98, 0x11D98); (0x11DA0, 0x11DA9);
    (0x11EE0, 0x11EF2); (0x11FB0, 0x11FB0); (0x11FC0, 0x11FD4);
    (0x12000, 0x12399); (0x12400, 0x1246E); (0x12480, 0x12543);
    (0x12F90, 0x12FF0); (0x13000, 0x1342E); (0x14400, 0x14646);
    (0x16800, 0x16A38); (0x16A40, 0x16A5E); (0x16A60, 0x16A69);
    (0x16A70, 0x16ABE); (0x16AC0, 0x16AC9); (0x16AD0, 0x16AED);
    (0x16B00, 0x16B2F); (0x16B40, 0x16B43); (0x16B50, 0x16B59);
    (0x16B5B, 0x16B61); (0x16B63, 0x16B77); (0x16B7D, 0x16B8F);
    (0x16E40, 0x16E96); (0x16F00, 0x16F4A); (0x16F50, 0x16F50);
    (0x16F93, 0x16F9F); (0x16FE0, 0x16FE1); (0x16FE3, 0x16FE3);
    (0x17000, 0x187F7); (0x18800, 0x18CD5); (0x18D00, 0x18D08);
    (0x1AFF0, 0x1AFF3); (0x1AFF5, 0x1AFFB); (0x1AFFD, 0x1AFFE);
    (0x1B000, 0x1B122); (0x1B150, 0x1B152); (0x1B164, 0x1B167);
    (0x1B170, 0x1B2FB); (0x1BC00, 0x1BC6A); (0x1BC70, 0x1BC7C);
    (0x1BC80, 0x1BC88); (0x1BC90, 0x1BC99); (0x1D2E0, 0x1D2F3);
    (0x1D360, 0x1D378); (0x1D400, 0x1D454); (0x1D456, 0x1D49C);
    (0x1D49E, 0x1D49F); (0x1D4A2, 0x1D4A2); (0x1D4A5, 0x1D4A6);
    (0x1D4A9, 0x1D4AC); (0x1D4AE, 0x1D4B9); (0x1D4BB, 0x1D4BB);
    (0x1D4BD, 0x1D4C3); (0x1D4C5, 0x1D505); (0x1D507, 0x1D50A);
    (0x1D50D, 0x1D514); (0x1D516, 0x1D51C); (0x1D51E, 0x1D539);
    (0x1D53B, 0x1D53E); (0x1D540, 0x1D544); (0x1D546, 0x1D546);
    (0x1D54A, 0x1D550); (0x1D552, 0x1D6A5); (0x1D6A8, 0x1D6C0);
    (0x1D6C2, 0x1D6DA); (0x1D6DC, 0x1D6FA); (0x1D6FC, 0x1D714);
    (0x1D716, 0x1D734); (0x1D736, 0x1D74E); (0x1D750, 0x1D76E);
    (0x1D770, 0x1D788); (0x1D78A, 0x1D7A8); (0x1D7AA, 0x1D7C2);
    (0x1D7C4, 0x1D7CB); (0x1D7CE, 0x1D7FF); (0x1DF00, 0x1DF1E);
    (0x1E100, 0x1E12C); (0x1E137, 0x1E13D); (0x1E140, 0x1E149);
    (0x1E14E, 0x1E14E); (0x1E290, 0x1E2AD); (0x1E2C0, 0x1E2EB);
    (0x1E2F0, 0x1E2F9); (0x1E7E0, 0x1E7E6); (0x1E7E8, 0x1E7EB);
    (0x1E7ED, 0x1E7EE); (0x1E7F0, 0x1E7FE); (0x1E800, 0x1E8C4);
    (0x1E8C7, 0x1E8CF); (0x1E900, 0x1E943); (0x1E94B, 0x1E94B);
    (0x1E950, 0x1E959); (0x1EC71, 0x1ECAB); (0x1ECAD, 0x1ECAF);
    (0x1ECB1, 0x1ECB4); (0x1ED01, 0x1ED2D); (0x1ED2F, 0x1ED3D);
    (0x1EE00, 0x1EE03); (0x1EE05, 0x1EE1F); (0x1EE21, 0x1EE22);
    (0x1EE24, 0x1EE24); (0x1EE27, 0x1EE27); (0x1EE29, 0x1EE32);
    (0x1EE34, 0x1EE37); (0x1EE39, 0x1EE39); (0x1EE3B, 0x1EE3B);
    (0x1EE42, 0x1EE42); (0x1EE47, 0x1EE47); (0x1EE49, 0x1EE49);
    (0x1EE4B, 0x1EE4B); (0x1EE4D, 0x1EE4F); (0x1EE51, 0x1EE52);
    (0x1EE54, 0x1EE54); (0x1EE57, 0x1EE57); (0x1EE59, 0x1EE59);
    (0x1EE5B, 0x1EE5B); (0x1EE5D, 0x1EE5D); (0x1EE5F, 0x1EE5F);
    (0x1EE61, 0x1EE62); (0x1EE64, 0x1EE64); (0x1EE67, 0x1EE6A);
    (0x1EE6C, 0x1EE72); (0x1EE74, 0x1EE77); (0x1EE79, 0x1EE7C);
    (0x1EE7E, 0x1EE7E); (0x1EE80, 0x1EE89); (0x1EE8B, 0x1EE9B);
    (0x1EEA1, 0x1EEA3); (0x1EEA5, 0x1EEA9); (0x1EEAB, 0x1EEBB);
    (0x1F100, 0x1F10C); (0x1FBF0, 0x1FBF9); (0x20000, 0x2A6DF);
    (0x2A700, 0x2B738); (0x2B740, 0x2B81D); (0x2B820, 0x2CEA1);
    (0x2CEB0, 0x2EBE0); (0x2F800, 0x2FA1D); (0x30000, 0x3134A) ]%N.

Definition isword (c : char) : bool := Py.in_ranges word_table c.

(** The longest prefix of characters in a class, and what follows it. *)
Fixpoint span (cls : char → bool) (s : str) : str * str :=
  match s with
  | [] => ([], [])
  | c :: s' =>
      if cls c then let '(a, b) := span cls s' in (c :: a, b) else ([], s)
  end.

(** The characters of a value, [[^,\]]]. *)
Definition isvalue (c : char) : bool := negb ((c =? 0x2C) || (c =? 0x5D))%N.

(** The last white space character that [lstrip] removed from [s]. *)
Fixpoint last_space (s : str) : option char :=
  match s with
  | c :: s' =>
      if Py.isspace c then
        match last_space s' with Some w => Some w | None => Some c end
      else None
  | [] => None
  end.

(** One match of [([\w一-鿿]+)\s*=\s*([^,\]]+)] at the start of [s]:
    the two groups and the text after the match.  The name is the longest
    run of word characters (a shorter one would be followed by a word
    character, which is neither white space nor [=]).  The value starts
    after the white space behind [=]; when nothing of a value follows, the
    greedy [\s*] gives its last character back and that is the value. *)
Definition match_pair (s : str) : option (list N * list N * list N) :=
  let '(name, r) := span isword s in
  match name with
  | [] => None
  | _ =>
      r2 ← expect 0x3D (Py.lstrip r);
      let '(value, rest) := span isvalue (Py.lstrip r2) in
      match value with
      | [] => (λ w, (name, [w], rest)) <$> last_space r2
      | _ => Some (name, value, rest)
      end
  end.

(** [re.findall] of the pair pattern: the matches from left to right, each
    search starting where the last match ended. *)
Fixpoint find_pairs_from (fuel : nat) (s : str) : list (list N * list N) :=
  match fuel, s with
  | S fuel', c :: s' =>
      match match_pair s with
      | Some (name, value, rest) => (name, value) :: find_pairs_from fuel' rest
      | None => find_pairs_from fuel' s'
      end
  | _, _ => []
  end.

Definition find_pairs (s : str) : list (list N * list N) :=
  find_pairs_from (length s) s.

(** One match of [\[KEYWORD:\s*([^\]]+)\]] (ignoring case) at the start of
    [s]: the group and the text after the match.  The group is the body
    without its leading white space, or, when the body is white space
    only, the last character of the body. *)
Definition match_directive (kw : str) (s : str) : option (list N * list N) :=
  s1 ← expect 0x5B s;
  s2 ← match_keyword kw s1 ≫= expect 0x3A;
  let '(body, rest) := span (λ c, negb (c =? 0x5D)%N) s2 in
  s3 ← expect 0x5D rest;
  match Py.lstrip body with
  | [] => (λ w, ([w], s3)) <$> last_space body
  | group => Some (group, s3)
  end.

Fixpoint findall_from (kw : str) (fuel : nat) (s : str) : list str :=
  match fuel, s with
  | S fuel', c :: s' =>
      match match_directive kw s with
      | Some (group, rest) => group :: findall_from kw fuel' rest
      | None => findall_from kw fuel' s'
      end
  | _, _ => []
  end.

(** [self.profile_pattern.findall(text)] and
    [self.delete_pattern.findall(text)]. *)
Definition profile_matches (text : str) : list str :=
  findall_from KW_PROFILE (length text) text.

Definition delete_matches (text : str) : list str :=
  findall_from (KW_PROFILE ++ KW_DELETE) (length text) text.

End Re.

(** A component of a message chain: plain text, or anything else. *)
Inductive component :=
  | Plain (text : str)
  | Other (kind : nat).

(** What the hooks do to one component: a plain component with text gets
    its text sanitized, everything else is left alone. *)
Definition clean_component (c : component) : component :=
  match c with
  | Plain (x :: t) => Plain (strip_blocks (x :: t))
  | _ => c
  end.

(** [on_decorating_result], and the interceptor around [send_message]. *)
Definition on_decorating_result (chain : list component) : list component :=
  clean_component <$> chain.

(** [self._get_session_id(event)] *)
Definition _get_session_id (session_based : bool) (unified_msg_origin : str)
    : option str :=
  if session_based then Some unified_msg_origin else None.

(** The operations on the manager, and runs of them from a state. *)
Inductive operation :=
  | Update (user_id field value : str) (session_id : option str)
  | Delete (user_id field : str) (session_id : option str)
  | Clear (user_id : str) (session_id : option str).

Section Hook.
Variable allowed_fields : list str.
Variable max_notes_count : Z.
Variable now : nat → str.
(** The response object belongs to the framework.  The hook reads its
    [completion_text] ([None] taken as the empty string), assigns to it,
    which runs the framework's setter, and then changes the text of the
    components of [resp.result_chain.chain] in place.  [chain resp] are
    these components, none when [resp.result_chain] or its [chain] is
    missing or empty, and [set_chain] is the response with the components
    as changed. *)
Variable response : Type.
Variable completion_text : response → str.
Variable set_completion_text : str → response → response.
Variable chain : response → list component.
Variable set_chain : list component → response → response.

(** The loop [for field, value in pairs] of [on_llm_resp]. *)
Definition update_pairs (m : manager) (user_id : str) (session_id : option str)
    (pairs : list (list N * list N)) : manager :=
  fold_left (λ m pair,
               (update_field allowed_fields max_notes_count now m user_id
                  (Py.strip pair.1) (Py.strip pair.2) session_id).1)
            pairs m.

(** The loop [for match in profile_matches]. *)
Definition update_blocks (m : manager) (user_id : str) (session_id : option str)
    (bodies : list str) : manager :=
  fold_left (λ m body, update_pairs m user_id session_id (Re.find_pairs body))
            bodies m.

(** The loop [for match in self.delete_pattern.findall(original_text)]. *)
Fixpoint delete_blocks (m : manager) (user_id : str) (session_id : option str)
    (bodies : list str) : outcome unit :=
  match bodies with
  | [] => Ret m tt
  | body :: rest =>
      match on_llm_resp_delete now m user_id session_id body with
      | Ret m' _ => delete_blocks m' user_id session_id rest
      | Raise m' e => Raise m' e
      end
  end.

(** The loop over [resp.result_chain.chain] at the end of [on_llm_resp]. *)
Definition clean_chain (resp : response) : response :=
  match chain resp with
  | [] => resp
  | components => set_chain (clean_component <$> components) resp
  end.

(** [on_llm_resp]: nothing at all on an empty text; otherwise the updates,
    then the deletes, then the sanitized text is assigned to
    [resp.completion_text] and the chain, as it is after that assignment,
    is cleaned.  When a delete raises, the response has not been
    touched. *)
Definition on_llm_resp (m : manager) (user_id : str) (session_id : option str)
    (resp : response) : outcome response :=
  match completion_text resp with
  | [] => Ret m resp
  | original_text =>
      let m1 := update_blocks m user_id session_id
                  (Re.profile_matches original_text) in
      match delete_blocks m1 user_id session_id
              (Re.delete_matches original_text) with
      | Raise m2 e => Raise m2 e
      | Ret m2 _ =>
          Ret m2 (clean_chain
                    (set_completion_text (strip_blocks original_text) resp))
      end
  end.

Definition run (m : manager) (o : operation) : manager :=
  match o with
  | Update user_id field value session_id =>
      (update_field allowed_fields max_notes_count now m user_id field value
         session_id).1
  | Delete user_id field session_id =>
      final (delete_field now m user_id field session_id)
  | Clear user_id session_id => (clear_profile m user_id session_id).1
  end.

Definition run_all (m : manager) (ops : list operation) : manager :=
  fold_left run ops m.
End Hook.

Arguments clean_chain {response} chain set_chain resp.
Arguments on_llm_resp allowed_fields max_notes_count now {response}
  completion_text set_completion_text chain set_chain m user_id session_id resp.

(** The profile key an operation works on. *)
Definition op_key (o : operation) : str :=
  match o with
  | Update user_id _ _ session_id => _get_user_key user_id session_id
  | Delete user_id _ session_id => _get_user_key user_id session_id
  | Clear user_id session_id => _get_user_key user_id session_id
  end.

(** An operation that puts no surrogate code point into the store: only
    an update brings strings of its own. *)
Definition op_encodable (o : operation) : Prop :=
  match o with
  | Update user_id field value session_id =>
      Py.encodable user_id = true ∧ Py.encodable field = true ∧
      Py.encodable value = true ∧ Py.encodable (default [] session_id) = true
  | _ => True
  end.

(** The body of an update block as it is usually written: [name=value]
    items, separated by a comma and a space. *)
Fixpoint render_pairs (items : list (list N * list N)) : str :=
  match items with
  | [] => []
  | [(name, value)] => name ++ 0x3D%N :: value
  | (name, value) :: rest =>
      name ++ 0x3D%N :: value ++ 0x2C%N :: 0x20%N :: render_pairs rest
  end.

(** An item [render_pairs] can write so that it can be read back: the name
    is a non-empty run of word characters; the value is not empty, starts
    with a visible character and holds neither comma nor closing bracket. *)
Definition plain_pair (item : list N * list N) : Prop :=
  item.1 ≠ [] ∧ Forall (λ c, Re.isword c = true) item.1 ∧
  item.2 ≠ [] ∧ Forall (λ c, Re.isvalue c = true) item.2 ∧
  Py.lstrip item.2 = item.2.

(** A delete block holds a target that passes [isdigit] and that [int]
    rejects. *)
Definition bad_target (body : str) : Prop :=
  ∃ t, t ∈ split_targets body ∧ Py.isdigit t = true ∧ Py.int t = None.

(** Sample data for the examples below. *)
Definition CITY : str := Py.lit "city".
Definition JOB : str := Py.lit "job".
Definition USER : str := Py.lit "u".

(** A response object for the examples: its text and the components of its
    chain.  Assigning the text to a response with a chain replaces the
    [Plain] components of the chain by a single one, put first. *)
Definition is_plain (c : component) : bool :=
  match c with Plain _ => true | Other _ => false end.

Definition sample_text (resp : list N * list component) : str := resp.1.

Definition sample_set_text (value : str) (resp : list N * list component)
    : list N * list component :=
  match resp.2 with
  | [] => (value, [])
  | components => (value, Plain value :: filter (λ c, is_plain c = false) components)
  end.

Definition sample_chain (resp : list N * list component) : list component := resp.2.

Definition sample_set_chain (components : list component)
    (resp : list N * list component) : list N * list component :=
  (resp.1, components).

(** * Properties *)

(** ** Python strings *)

Module PyFacts.
Import Py.

Lemma lstrip_head s :
  lstrip s = [] ∨ ∃ c t, lstrip s = c :: t ∧ isspace c = false.
Proof.
  induction s as [|c s IH]; simpl; [by left|].
  destruct (isspace c) eqn:E; [done|]. right; eauto.
Qed.

Lemma lstrip_nonspace c s : isspace c = false → lstrip (c :: s) = c :: s.
Proof. intros E. simpl. by rewrite E. Qed.

Lemma rstrip_nonspace c s : isspace c = false → rstrip (c :: s) = c :: rstrip s.
Proof. intros E. simpl. rewrite E. by destruct (rstrip s). Qed.

Lemma rstrip_idem s : rstrip (rstrip s) = rstrip s.
Proof.
  induction s as [|c s IH]; [done|]. simpl.
  destruct (rstrip s) as [|x r] eqn:E.
  - destruct (isspace c) eqn:Ec; [done|]. simpl. by rewrite Ec.
  - change (rstrip (c :: x :: r)) with
      (match rstrip (x :: r) with
       | [] => if isspace c then [] else [c]
       | r0 => c :: r0 end).
    by rewrite IH.
Qed.

Lemma lstrip_idem s : lstrip (lstrip s) = lstrip s.
Proof.
  destruct (lstrip_head s) as [->|(c & t & -> & E)]; [done|].
  by apply lstrip_nonspace.
Qed.

Lemma strip_idem s : strip (strip s) = strip s.
Proof.
  unfold strip.
  destruct (lstrip_head s) as [->|(c & t & -> & E)]; [done|].
  rewrite (rstrip_nonspace c t E), (lstrip_nonspace _ _ E).
  rewrite <- (rstrip_nonspace c t E). apply rstrip_idem.
Qed.

(** A stripped string that is not empty starts with a visible character. *)
Lemma strip_head s :
  strip s = [] ∨ ∃ c t, strip s = c :: t ∧ isspace c = false.
Proof.
  unfold strip.
  destruct (lstrip_head s) as [->|(c & t & -> & E)]; [by left|].
  right. rewrite (rstrip_nonspace c t E). eauto.
Qed.

Lemma lstrip_suffix s : lstrip s `suffix_of` s.
Proof.
  induction s as [|c s IH]; simpl; [done|].
  destruct (isspace c); [by apply suffix_cons_r|done].
Qed.

Lemma rstrip_prefix s : ∃ w, s = rstrip s ++ w.
Proof.
  induction s as [|c s [w IH]]; [by exists []|]. simpl.
  destruct (rstrip s) as [|x r].
  - destruct (isspace c); [by exists (c :: s)|].
    exists w. by rewrite IH at 1.
  - exists w. by rewrite IH at 1.
Qed.

Lemma strip_length s : length (strip s) ≤ length s.
Proof.
  unfold strip. destruct (rstrip_prefix (lstrip s)) as [w Hw].
  pose proof (suffix_length _ _ (lstrip_suffix s)) as Hl.
  apply (f_equal length) in Hw. rewrite length_app in Hw. lia.
Qed.

Lemma Forall_lstrip (P : N → Prop) s : Forall P s → Forall P (lstrip s).
Proof.
  induction 1 as [|c s Hc Hs IH]; simpl; [done|].
  destruct (isspace c); [done|]. by constructor.
Qed.

Lemma Forall_rstrip (P : N → Prop) s : Forall P s → Forall P (rstrip s).
Proof.
  induction 1 as [|c s Hc Hs IH]; simpl; [done|].
  destruct (rstrip s); [destruct (isspace c)|]; auto.
Qed.

Lemma Forall_strip (P : N → Prop) s : Forall P s → Forall P (strip s).
Proof. intros. by apply Forall_rstrip, Forall_lstrip. Qed.

(** Splitting: no piece holds a separator, and the pieces of a joined list
    of separator-free strings are the strings. *)
Lemma re_split_nonempty sep s : re_split sep s ≠ [].
Proof. destruct s as [|c s]; simpl; [done|]. destruct (sep c), (re_split sep s); done. Qed.

Lemma re_split_pieces sep s :
  Forall (Forall (λ c, sep c = false)) (re_split sep s).
Proof.
  induction s as [|c s IH]; simpl; [by repeat constructor|].
  destruct (sep c) eqn:E; [by constructor|].
  destruct (re_split sep s) as [|p ps]; [by repeat constructor|].
  inversion IH; subst. constructor; [by constructor|done].
Qed.

Lemma re_split_free sep s :
  Forall (λ c, sep c = false) s → re_split sep s = [s].
Proof.
  induction 1 as [|c s Hc Hs IH]; simpl; [done|]. by rewrite Hc, IH.
Qed.

Lemma re_split_app sep s c rest :
  Forall (λ c, sep c = false) s → sep c = true →
  re_split sep (s ++ c :: rest) = s :: re_split sep rest.
Proof.
  intros Hs Hc. induction Hs as [|x s Hx Hs IH]; simpl.
  - by rewrite Hc.
  - by rewrite Hx, IH.
Qed.

Lemma re_split_join sep c l :
  sep c = true → l ≠ [] → Forall (Forall (λ c, sep c = false)) l →
  re_split sep (join [c] l) = l.
Proof.
  intros Hc Hne Hl. induction Hl as [|x l Hx Hl IH]; [done|].
  destruct l as [|y l].
  - simpl. by apply re_split_free.
  - change (join [c] (x :: y :: l)) with (x ++ c :: join [c] (y :: l)).
    rewrite re_split_app by done. f_equal. by apply IH.
Qed.

Lemma join_nil_inv sep l : l ≠ [] → Forall (λ e, e ≠ []) l → join sep l ≠ [].
Proof.
  intros Hne Hl. destruct Hl as [|x l Hx Hl]; [done|].
  destruct l; simpl; [done|]. by destruct x.
Qed.

(** Slices [l[-m:]]. *)
Lemma last_slice_length {A} m (l : list A) :
  (0 < m)%Z → Z.of_nat (length (last_slice m l)) = Z.min m (Z.of_nat (length l)).
Proof.
  intros Hm. unfold last_slice, slice_from.
  destruct (Z.ltb_spec (- m) 0); [|lia].
  rewrite length_drop. lia.
Qed.

Lemma last_slice_zero {A} (l : list A) : last_slice 0 l = l.
Proof. unfold last_slice, slice_from. simpl. by rewrite Z.min_l by lia. Qed.

Lemma last_slice_short {A} m (l : list A) :
  (Z.of_nat (length l) ≤ m)%Z → last_slice m l = l.
Proof.
  intros Hm. unfold last_slice, slice_from.
  destruct (Z.ltb_spec (- m) 0).
  - rewrite Z.max_r by lia. done.
  - assert (m = 0%Z) as -> by lia. simpl. rewrite Z.min_l by lia. done.
Qed.

Lemma last_slice_idem {A} m (l : list A) :
  (0 ≤ m)%Z → last_slice m (last_slice m l) = last_slice m l.
Proof.
  intros Hm. destruct (decide (m = 0%Z)) as [->|].
  - by rewrite !last_slice_zero.
  - apply last_slice_short. rewrite last_slice_length by lia. lia.
Qed.

Lemma last_slice_suffix {A} m (l : list A) : ∃ n, last_slice m l = drop n l.
Proof. unfold last_slice, slice_from. eauto. Qed.

End PyFacts.

(** ** Dicts *)

Module DictFacts.
Section DictFacts.
Context {V : Type}.
Implicit Types (d : list (list N * V)) (k : list N) (v : V).

Lemma get_set_eq k v d : Dict.get k (Dict.set k v d) = Some v.
Proof.
  induction d as [|[k' v'] d IH]; simpl.
  - by rewrite decide_True.
  - destruct (decide (k = k')) as [->|Hne]; simpl.
    + by rewrite decide_True.
    + by rewrite decide_False.
Qed.

Lemma get_set_ne k k' v d : k ≠ k' → Dict.get k' (Dict.set k v d) = Dict.get k' d.
Proof.
  intros Hne. induction d as [|[k0 v0] d IH]; simpl.
  - by rewrite decide_False.
  - destruct (decide (k = k0)) as [->|Hne0]; simpl.
    + by rewrite !decide_False by done.
    + by rewrite IH.
Qed.

Lemma get_del_eq k d : Dict.get k (Dict.del k d) = None.
Proof.
  induction d as [|[k' v'] d IH]; simpl; [done|].
  destruct (decide (k = k')) as [->|Hne]; simpl; [done|].
  by rewrite decide_False.
Qed.

Lemma get_del_ne k k' d : k ≠ k' → Dict.get k' (Dict.del k d) = Dict.get k' d.
Proof.
  intros Hne. induction d as [|[k0 v0] d IH]; simpl; [done|].
  destruct (decide (k = k0)) as [->|Hne0]; simpl.
  - by rewrite decide_False.
  - by rewrite IH.
Qed.

Lemma mem_true k d : Dict.mem k d = true ↔ is_Some (Dict.get k d).
Proof. unfold Dict.mem. apply bool_decide_eq_true. Qed.

Lemma mem_false k d : Dict.mem k d = false ↔ Dict.get k d = None.
Proof.
  unfold Dict.mem. rewrite bool_decide_eq_false, <- eq_None_not_Some. done.
Qed.
End DictFacts.
End DictFacts.

(** ** Note lists *)

Lemma note_sep_is_sep : is_note_sep 0xFF1B%N = true.
Proof. done. Qed.

Lemma split_notes_clean v : Forall clean_note (split_notes v).
Proof.
  unfold split_notes. apply Forall_fmap, Forall_forall. intros n Hn.
  apply list_elem_of_filter in Hn as [Hne Hin]. split; [done|]. split.
  - apply PyFacts.strip_idem.
  - apply PyFacts.Forall_strip.
    by eapply (proj1 (Forall_forall _ _) (PyFacts.re_split_pieces is_note_sep v)).
Qed.

Lemma split_notes_nil : split_notes [] = [].
Proof. done. Qed.

Lemma split_notes_join l :
  Forall clean_note l → split_notes (Py.join NOTE_SEP l) = l.
Proof.
  intros Hl. destruct (decide (l = [])) as [->|Hne]; [done|].
  unfold split_notes, NOTE_SEP.
  rewrite PyFacts.re_split_join; [|done|done|].
  - clear Hne. induction Hl as [|e l (He & Hs & _) Hl IH]; [done|].
    rewrite filter_cons_True by congruence. rewrite fmap_cons, IH. by f_equal.
  - eapply Forall_impl; [exact Hl|]. by intros e (_ & _ & ?).
Qed.

Lemma join_clean_nonempty l :
  l ≠ [] → Forall clean_note l → Py.join NOTE_SEP l ≠ [].
Proof.
  intros Hne Hl. apply PyFacts.join_nil_inv; [done|].
  eapply Forall_impl; [exact Hl|]. by intros e (? & _).
Qed.

(** ** The manager's bookkeeping *)

Section ManagerFacts.
Variable allowed_fields : list str.
Variable max_notes_count : Z.
Variable now : nat → str.

Lemma commit_lookup m ud key p :
  user_data (commit now m ud key p) !! key
  = Some (Dict.set LAST_UPDATED (now (clock m)) p).
Proof. simpl. by rewrite lookup_insert_eq. Qed.

Lemma commit_lookup_ne m ud key key' p :
  key ≠ key' → user_data (commit now m ud key p) !! key' = ud !! key'.
Proof. intros. simpl. by rewrite lookup_insert_ne. Qed.

Lemma commit_saved m ud key p :
  saved (commit now m ud key p) = user_data (commit now m ud key p) :: saved m.
Proof. done. Qed.

Lemma commit_notes m ud key p :
  notes_value (commit now m ud key p) key = Dict.get NOTES p.
Proof.
  unfold notes_value. rewrite commit_lookup. simpl.
  by rewrite DictFacts.get_set_ne.
Qed.
End ManagerFacts.

(** ** Writes outside the allow-list *)

(** C6: a write to a field outside the allow-list returns the
    field-not-allowed failure and leaves the manager exactly as it was: the
    store (no profile created or changed, no [_last_updated] stamp), the
    list of saved documents and the clock are all unchanged. *)
Theorem update_field_not_allowed allowed max_notes now m user_id field value session_id :
  field ∉ allowed →
  update_field allowed max_notes now m user_id field value session_id
  = (m, (false, field_not_allowed field)).
Proof.
  intros Hf. unfold update_field.
  by rewrite (bool_decide_eq_false_2 _ Hf).
Qed.

Lemma update_field_not_allowed_witness :
  update_field [NOTES] 5 (λ _, Py.lit "2026-01-01 00:00:00")
    (Manager ∅ [] 0) (Py.lit "u") (Py.lit "nickname") (Py.lit "x") None
  = (Manager ∅ [] 0, (false, field_not_allowed (Py.lit "nickname"))).
Proof.
  apply update_field_not_allowed.
  apply (bool_decide_eq_false_1 (Py.lit "nickname" ∈ [NOTES])). reflexivity.
Defined.

(** ** Writing a blank value *)



(** ** Failing deletes *)

Section DeleteFacts.
Variable now : nat → str.

(** A delete that reports failure has not touched the manager. *)
Lemma delete_field_failure m user_id field session_id m' msg :
  delete_field now m user_id field session_id = Ret m' (false, msg) → m' = m.
Proof.
  unfold delete_field.
  destruct (user_data m !! _) as [p|]; [|congruence].
  destruct (Dict.mem field p); [congruence|].
  destruct (Dict.mem NOTES p); simpl.
  - destruct (Py.isdigit field).
    + destruct (Py.int field); [|congruence].
      destruct (bool_decide _); congruence.
    + destruct (bool_decide _); congruence.
  - destruct (Py.isdigit field); congruence.
Qed.



(** A non-numeric target that names no field and occurs in no note. *)
Lemma delete_field_no_match m user_id field session_id p :
  user_data m !! _get_user_key user_id session_id = Some p →
  Dict.get field p = None → Py.isdigit field = false →
  Forall (λ n, Py.contains field n = false)
         (split_notes (default [] (Dict.get NOTES p))) →
  delete_field now m user_id field session_id = Ret m (false, no_match_found field).
Proof.
  intros Hp Hf Hd Hall. unfold delete_field. rewrite Hp.
  rewrite (proj2 (DictFacts.mem_false _ _) Hf), Hd, andb_false_r.
  destruct (Dict.mem NOTES p); [|done].
  rewrite bool_decide_eq_false_2; [done|].
  clear -Hall. induction Hall as [|x l Hx Hl IH]; simpl; [lia|].
  rewrite filter_cons_True by done. simpl. lia.
Qed.
End DeleteFacts.

(** C7: a failing delete must report not-found and leave the store
    unchanged.  The code does so whenever it returns a failure (see
    [delete_field_failure], [delete_field_no_profile],
    [delete_field_out_of_range], [delete_field_no_match]), but a target made
    of digits that are not decimal digits, such as the superscript two,
    passes [isdigit] and makes [int] raise: on a profile with one note,
    where the target names no field and occurs in no note, the delete
    raises [ValueError] instead of reporting not-found. *)
Theorem delete_field_superscript_raises :
  let m := (update_field [NOTES] 5 fixed_clock fresh
              (Py.lit "u") NOTES (Py.lit "a") None).1 in
  notes_of m (Py.lit "u") = [Py.lit "a"] ∧
  (user_data m !! Py.lit "u") ≫= Dict.get [0xB2%N] = None ∧
  Py.contains [0xB2%N] (Py.lit "a") = false ∧
  delete_field fixed_clock m (Py.lit "u") [0xB2%N] None = Raise m ValueError.
Proof. vm_compute. done. Qed.

(** ** Loading *)

(** C4 fails as stated: a document that parses to a JSON array is returned
    as it is, not replaced by the empty store, and a file that is not valid
    UTF-8 makes the load raise. *)
Lemma load_data_wrong_shape_counterexample :
  _load_data true (inr (JArray [])) ≠ inr (JObject []) ∧
  _load_data true (inl UnicodeDecodeError) = inl UnicodeDecodeError.
Proof. split; [discriminate|reflexivity]. Qed.

(** C4, amended: [_load_data] returns the empty store, without raising,
    exactly when the file is missing, when reading it raises
    [JSONDecodeError] or [TypeError], or when the document is the empty
    object.  It raises exactly the other exceptions of the read, among them
    [UnicodeDecodeError] for a file that is not valid UTF-8.  A document
    that parses is returned as parsed, whatever its shape. *)
Theorem load_data_spec path_exists read :
  (_load_data path_exists read = inr (JObject []) ↔
     path_exists = false ∨ read = inl JSONDecodeError ∨ read = inl TypeError ∨
     read = inr (JObject [])) ∧
  (∀ e, _load_data path_exists read = inl e ↔
     path_exists = true ∧ read = inl e ∧ e ≠ JSONDecodeError ∧ e ≠ TypeError) ∧
  (∀ v, path_exists = true → read = inr v → _load_data path_exists read = inr v).
Proof.
  unfold _load_data. split; [|split].
  - destruct path_exists; simpl; [|tauto].
    destruct read as [[]|v]; intuition congruence.
  - intros e. destruct path_exists; simpl; [|intuition congruence].
    destruct read as [[]|v]; intuition congruence.
  - by intros v -> ->.
Qed.

(** ** The summary *)

Lemma note_entries_split v entries :
  note_entries v entries → split_notes v = entries.
Proof.
  assert (∀ piece rest,
            Py.strip <$> filter (λ n, Py.strip n ≠ []) (piece :: rest)
            = entry_of piece
              ++ (Py.strip <$> filter (λ n : list N, Py.strip n ≠ []) rest)) as Hcons.
  { intros piece rest. rewrite filter_cons. unfold entry_of.
    destruct (decide (Py.strip piece ≠ [])) as [Hne|He].
    - rewrite fmap_cons. by destruct (Py.strip piece).
    - apply dec_stable in He. by rewrite He. }
  unfold split_notes. induction 1 as [piece Hp|piece sep rest entries Hp Hsep _ IH].
  - rewrite PyFacts.re_split_free by done. by rewrite Hcons, app_nil_r.
  - rewrite PyFacts.re_split_app by done. by rewrite Hcons, IH.
Qed.

(** Every notes value has its entries. *)
Lemma note_entries_total v : note_entries v (split_notes v).
Proof.
  assert (∃ entries, note_entries v entries) as [entries H].
  { induction v as [|c v [entries IH]].
    - eexists. by apply note_entries_last.
    - destruct (is_note_sep c) eqn:Hc.
      + eexists. by apply (note_entries_more [] c v entries).
      + inversion IH as [piece Hp|piece sep rest entries' Hp Hsep Hrest]; subst.
        * eexists. apply note_entries_last. by constructor.
        * eexists. apply (note_entries_more (c :: piece) sep rest entries');
            [by constructor|done|done]. }
  by rewrite (note_entries_split _ _ H).
Qed.

Lemma numbered_imap i notes :
  numbered i notes
  = imap (λ k note, Py.str_of_nat (i + k) ++ [0x2E%N] ++ note) notes.
Proof.
  revert i. induction notes as [|note notes IH]; intros i; [done|].
  simpl. rewrite Nat.add_0_r, IH. f_equal.
  apply imap_ext. intros k x _. simpl. by rewrite Nat.add_succ_r.
Qed.

Section SummaryFacts.
Variable allowed_fields : list str.

(** The loop of [format_profile_summary] on a profile with the note
    entries [notes]. *)
Lemma summary_fold p notes fields lines :
  note_entries (default [] (Dict.get NOTES p)) notes →
  fold_left (summary_step p) fields lines
  = lines ++ omap (λ field, match Dict.get field p with
                            | Some (c :: value) =>
                                Some (spec_line notes field (c :: value))
                            | _ => None
                            end) fields.
Proof.
  intros Hnotes%note_entries_split.
  revert lines. induction fields as [|f fields IH]; intros lines; simpl.
  - by rewrite app_nil_r.
  - rewrite IH. unfold summary_step.
    destruct (Dict.get f p) as [[|c value]|] eqn:Hf; [done| |done].
    destruct (decide (f = NOTES)) as [->|Hne];
      rewrite <- app_assoc; f_equal; cbn [app]; f_equal; unfold spec_line.
    + rewrite decide_True by done. rewrite Hf in Hnotes. simpl in Hnotes.
      by rewrite Hnotes, numbered_imap.
    + by rewrite decide_False by done.
Qed.

Lemma summary_same_lookups p p' fields lines :
  (∀ field, Dict.get field p' = Dict.get field p) →
  fold_left (summary_step p') fields lines = fold_left (summary_step p) fields lines.
Proof.
  intros Hsame.
  rewrite (summary_fold p' (split_notes (default [] (Dict.get NOTES p')))),
          (summary_fold p (split_notes (default [] (Dict.get NOTES p'))));
    [|rewrite <- Hsame; apply note_entries_total|apply note_entries_total].
  f_equal. clear -Hsame.
  induction fields as [|f fields IH]; [done|]. csimpl. by rewrite Hsame, IH.
Qed.

(** C9: the summary is the one the specification words.  On a profile
    whose notes value has the entries [notes] (the pieces between [；] or
    [;], trimmed, blank ones dropped), it is one line [- field：value] per
    entry of the allow-list that is present and not empty in the profile,
    in allow-list order, joined by newlines, where the line of the notes
    field is [- 备注：1.note 2.note ...], the entries numbered from 1 and
    separated by spaces.  When no allowed field is present and not empty
    (in particular on an empty profile) the result is the no-data sentinel.
    The profile enters through its lookups only, so that its insertion
    order has no influence. *)
Theorem format_profile_summary_spec m user_id session_id notes :
  let p := get_user_profile m user_id session_id in
  note_entries (default [] (Dict.get NOTES p)) notes →
  format_profile_summary allowed_fields m user_id session_id
    = spec_summary allowed_fields (λ field, Dict.get field p) notes
  ∧ ((∀ field, field ∈ allowed_fields → default [] (Dict.get field p) = []) →
     format_profile_summary allowed_fields m user_id session_id = NO_DATA)
  ∧ (∀ m', (∀ field, Dict.get field (get_user_profile m' user_id session_id)
                     = Dict.get field p) →
           format_profile_summary allowed_fields m' user_id session_id
           = format_profile_summary allowed_fields m user_id session_id).
Proof.
  intros p Hnotes.
  assert (format_profile_summary allowed_fields m user_id session_id
          = spec_summary allowed_fields (λ field, Dict.get field p) notes) as Hmain.
  { unfold format_profile_summary, spec_summary. fold p.
    destruct p as [|kv p'] eqn:Hp.
    - replace (omap _ allowed_fields) with (@nil (list N)); [done|].
      clear. by induction allowed_fields.
    - by rewrite (summary_fold _ notes) by done. }
  split; [exact Hmain|]. split.
  - intros Hnone. rewrite Hmain. unfold spec_summary.
    replace (omap _ allowed_fields) with (@nil (list N)); [done|].
    symmetry. clear -Hnone. induction allowed_fields as [|f l IH]; [done|].
    csimpl. rewrite <- IH by (intros g Hg; apply Hnone; by right).
    assert (default [] (Dict.get f p) = []) as Hf by (apply Hnone; by left).
    by destruct (Dict.get f p) as [[|c v]|].
  - intros m' Hsame. unfold format_profile_summary. fold p.
    set (p' := get_user_profile m' user_id session_id) in *.
    rewrite (summary_same_lookups p p') by done.
    assert (fold_left (summary_step []) allowed_fields [] = []) as Hnil
      by (clear; by induction allowed_fields).
    clearbody p p'. destruct p' as [|kv' q'], p as [|kv q]; try done.
    + by rewrite (summary_same_lookups [] (kv :: q)), Hnil.
    + by rewrite Hnil.
Qed.
End SummaryFacts.

(** ** The sanitizer *)

Module Sanitizer.
Import Py.

Lemma skip_body_suffix s : skip_body s `suffix_of` s.
Proof.
  induction s as [|c s IH]; simpl; [done|].
  destruct (c =? 0x5D)%N; [done|by apply suffix_cons_r].
Qed.

Lemma expect_Some c s r : expect c s = Some r ↔ s = c :: r.
Proof.
  destruct s as [|x s]; simpl; [done|].
  destruct (N.eqb_spec x c) as [->|]; split; intros H; by simplify_eq.
Qed.

Lemma match_keyword_suffix kw s r :
  match_keyword kw s = Some r → r `suffix_of` s.
Proof.
  revert s. induction kw as [|k kw IH]; intros [|c s] H; simpl in H;
    try congruence.
  - by inversion H.
  - by inversion H.
  - destruct (ci_match k c); [|done]. by apply suffix_cons_r, IH.
Qed.

Lemma keyword_colon_shorter kw s r :
  match_keyword kw s ≫= expect 0x3A = Some r →
  r `suffix_of` s ∧ length r < length s.
Proof.
  intros H. apply bind_Some in H as (x & Hx & He).
  apply expect_Some in He as ->. apply match_keyword_suffix in Hx.
  split; [by eapply suffix_cons_l|].
  apply suffix_length in Hx. simpl in Hx. lia.
Qed.

Lemma match_marker_shorter s r :
  match_marker s = Some r → r `suffix_of` s ∧ length r < length s.
Proof.
  unfold match_marker.
  destruct (match_keyword KW_PROFILE s ≫= expect 0x3A) eqn:E.
  - intros [= <-]. by eapply keyword_colon_shorter.
  - apply keyword_colon_shorter.
Qed.

Lemma match_block_shorter s r :
  match_block s = Some r → r `suffix_of` s ∧ length r < length s.
Proof.
  unfold match_block. intros H.
  apply bind_Some in H as (s1 & H1 & H).
  apply bind_Some in H as (s2 & H2 & H).
  apply bind_Some in H as (s3 & H3 & H). inversion H; subst; clear H.
  apply expect_Some in H1, H3.
  apply match_marker_shorter in H2 as [H2 H2'].
  pose proof (PyFacts.lstrip_suffix s) as Ha. rewrite H1 in Ha.
  pose proof (skip_body_suffix s2) as Hb. rewrite H3 in Hb.
  pose proof (PyFacts.lstrip_suffix s3) as Hc.
  assert (s3 `suffix_of` s) as Hs.
  { etrans; [by eapply suffix_cons_l|]. etrans; [exact H2|].
    by eapply suffix_cons_l. }
  split; [by etrans|].
  apply suffix_length in Hc, Hb, Ha. simpl in *. lia.
Qed.

(** The scan does not depend on the fuel once there is enough of it. *)
Lemma sub_blocks_fuel f1 f2 s :
  length s ≤ f1 → length s ≤ f2 → sub_blocks f1 s = sub_blocks f2 s.
Proof.
  revert f2 s. induction f1 as [|f1 IH]; intros f2 s H1 H2.
  - destruct s; [|simpl in H1; lia]. by destruct f2.
  - destruct f2 as [|f2].
    { destruct s; [done|simpl in H2; lia]. }
    simpl. destruct (match_block s) as [r|] eqn:E.
    + apply match_block_shorter in E as [_ E]. apply IH; lia.
    + destruct s as [|c s]; [done|]. f_equal. simpl in *. apply IH; lia.
Qed.

Lemma block_sub_eq s :
  block_sub s =
  match match_block s with
  | Some rest => block_sub rest
  | None => match s with [] => [] | c :: s' => c :: block_sub s' end
  end.
Proof.
  unfold block_sub. destruct s as [|c s]; [done|].
  change (sub_blocks (length (c :: s)) (c :: s)) with
    (match match_block (c :: s) with
     | Some rest => sub_blocks (length s) rest
     | None => c :: sub_blocks (length s) s
     end).
  destruct (match_block (c :: s)) as [r|] eqn:E; [|done].
  apply match_block_shorter in E as [_ E]. simpl in E.
  apply sub_blocks_fuel; lia.
Qed.

(** A text without blocks is left as it is. *)
Lemma block_free_suffix s u : block_free s → u `suffix_of` s → block_free u.
Proof. intros Hs Hu v Hv. apply Hs. by etrans. Qed.

Lemma block_sub_block_free s : block_free s → block_sub s = s.
Proof.
  induction s as [|c s IH]; intros Hs; rewrite block_sub_eq.
  - by rewrite (Hs [] (reflexivity _)).
  - rewrite (Hs (c :: s) (reflexivity _)). f_equal. apply IH.
    eapply block_free_suffix; [exact Hs|]. by apply suffix_cons_r.
Qed.

(** A match is decided by the text up to its closing bracket: text added
    behind does not undo it. *)
Lemma lstrip_app_visible s c t w : lstrip s = c :: t → lstrip (s ++ w) = c :: t ++ w.
Proof.
  induction s as [|x s IH]; simpl; [done|].
  destruct (isspace x); [done|]. by intros [= -> ->].
Qed.

Lemma match_keyword_app kw s r w :
  match_keyword kw s = Some r → match_keyword kw (s ++ w) = Some (r ++ w).
Proof.
  revert s. induction kw as [|k kw IH]; intros [|c s] H; simpl in *;
    try congruence.
  - by inversion H.
  - by inversion H.
  - destruct (ci_match k c); [by apply IH|done].
Qed.

Lemma keyword_colon_app kw s r w :
  match_keyword kw s ≫= expect 0x3A = Some r →
  match_keyword kw (s ++ w) ≫= expect 0x3A = Some (r ++ w).
Proof.
  intros H. apply bind_Some in H as (x & Hx & He).
  apply expect_Some in He as ->.
  by rewrite (match_keyword_app _ _ _ w Hx).
Qed.

Lemma skip_body_app s c t w : skip_body s = c :: t → skip_body (s ++ w) = c :: t ++ w.
Proof.
  induction s as [|x s IH]; simpl; [done|].
  destruct (x =? 0x5D)%N; [by intros [= -> ->]|done].
Qed.
Lemma match_keyword_split k1 k2 s :
  match_keyword (k1 ++ k2) s = match_keyword k1 s ≫= match_keyword k2.
Proof.
  revert s. induction k1 as [|k k1 IH]; intros s; simpl.
  - by destruct s.
  - destruct s as [|c s]; [done|]. destruct (ci_match k c); [apply IH|done].
Qed.

(** The two keywords exclude each other: after [Profile], the [D] of
    [ProfileDelete] is not a colon. *)
Lemma marker_exclusive s y w :
  match_keyword (KW_PROFILE ++ KW_DELETE) s = Some y →
  match_keyword KW_PROFILE (s ++ w) ≫= expect 0x3A = None.
Proof.
  rewrite match_keyword_split. intros H.
  apply bind_Some in H as (x & Hx & Hy).
  rewrite (match_keyword_app _ _ _ w Hx).
  destruct x as [|d x]; [done|]. simpl.
  destruct (N.eqb_spec d 0x3A) as [->|]; [|done].
  exfalso. unfold KW_DELETE in Hy. simpl in Hy.
  change (ci_match 100 58) with false in Hy. done.
Qed.

Lemma match_marker_app s r w :
  match_marker s = Some r → match_marker (s ++ w) = Some (r ++ w).
Proof.
  unfold match_marker.
  destruct (match_keyword KW_PROFILE s ≫= expect 0x3A) eqn:E.
  - intros [= <-]. by rewrite (keyword_colon_app _ _ _ w E).
  - intros H. pose proof H as H'.
    apply bind_Some in H' as (y & Hy & _).
    rewrite (marker_exclusive _ _ w Hy). by apply keyword_colon_app.
Qed.

Lemma match_block_app u w :
  is_Some (match_block u) → is_Some (match_block (u ++ w)).
Proof.
  intros [r H]. unfold match_block in *.
  apply bind_Some in H as (s1 & H1 & H).
  apply bind_Some in H as (s2 & H2 & H).
  apply bind_Some in H as (s3 & H3 & H).
  apply expect_Some in H1, H3.
  rewrite (lstrip_app_visible _ _ _ w H1). simpl.
  rewrite (match_marker_app _ _ w H2). simpl.
  rewrite (skip_body_app _ _ _ w H3). simpl. eauto.
Qed.

Lemma block_free_strip s : block_free s → block_free (strip s).
Proof.
  intros Hs u [k Hu]. unfold strip in Hu.
  destruct (PyFacts.rstrip_prefix (lstrip s)) as [w Hw]. rewrite Hu in Hw.
  destruct (match_block u) eqn:E; [|done].
  assert (is_Some (match_block (u ++ w))) as [r Hr].
  { apply match_block_app. eauto. }
  rewrite (Hs (u ++ w)) in Hr; [done|].
  etrans; [|apply PyFacts.lstrip_suffix]. exists k. by rewrite Hw, <- app_assoc.
Qed.

(** Once a text holds no block, the sanitizer only trims it, and trimming
    twice is trimming once. *)
Lemma strip_blocks_block_free s :
  block_free s → strip_blocks (strip s) = strip s.
Proof.
  intros Hs. unfold strip_blocks.
  rewrite (block_sub_block_free _ (block_free_strip _ Hs)).
  apply PyFacts.strip_idem.
Qed.

(** Whether a block starts at an opening bracket is decided by the text up
    to the next closing bracket. *)
Lemma match_keyword_tail kw body :
  Forall (λ k, ci_match k 0x5D = false) kw → Forall (λ c, c ≠ 0x5D%N) body →
  (∀ X, match_keyword kw (body ++ 0x5D%N :: X) = None) ∨
  (∃ body', Forall (λ c, c ≠ 0x5D%N) body' ∧
            ∀ X, match_keyword kw (body ++ 0x5D%N :: X) = Some (body' ++ 0x5D%N :: X)).
Proof.
  intros Hkw. revert body. induction Hkw as [|k kw Hk Hkw IH]; intros body Hb.
  - right. exists body. split; [done|]. intros X. simpl. by destruct body.
  - destruct Hb as [|c b Hc Hb]; simpl.
    + left. intros X. by rewrite Hk.
    + destruct (ci_match k c); [by apply IH|by left].
Qed.

Lemma keyword_colon_tail kw body :
  Forall (λ k, ci_match k 0x5D = false) kw → Forall (λ c, c ≠ 0x5D%N) body →
  (∀ X, match_keyword kw (body ++ 0x5D%N :: X) ≫= expect 0x3A = None) ∨
  (∃ body', Forall (λ c, c ≠ 0x5D%N) body' ∧
            ∀ X, match_keyword kw (body ++ 0x5D%N :: X) ≫= expect 0x3A
                 = Some (body' ++ 0x5D%N :: X)).
Proof.
  intros Hkw Hb.
  destruct (match_keyword_tail kw body Hkw Hb) as [H|(b' & Hb' & H)].
  - left. intros X. by rewrite H.
  - destruct Hb' as [|c b' Hc Hb'].
    + left. intros X. by rewrite H.
    + destruct (N.eqb_spec c 0x3A) as [->|Hne].
      * right. exists b'. split; [done|]. intros X. by rewrite H.
      * left. intros X. rewrite H. simpl.
        by rewrite (proj2 (N.eqb_neq _ _) Hne).
Qed.

Lemma match_marker_tail body :
  Forall (λ c, c ≠ 0x5D%N) body →
  (∀ X, match_marker (body ++ 0x5D%N :: X) = None) ∨
  (∃ body', Forall (λ c, c ≠ 0x5D%N) body' ∧
            ∀ X, match_marker (body ++ 0x5D%N :: X) = Some (body' ++ 0x5D%N :: X)).
Proof.
  intros Hb. unfold match_marker.
  destruct (keyword_colon_tail KW_PROFILE body) as [H1|(b' & Hb' & H1)];
    [by repeat constructor|done| |].
  - destruct (keyword_colon_tail (KW_PROFILE ++ KW_DELETE) body)
      as [H2|(b' & Hb' & H2)]; [by repeat constructor|done| |].
    + left. intros X. by rewrite H1, H2.
    + right. exists b'. split; [done|]. intros X. by rewrite H1, H2.
  - right. exists b'. split; [done|]. intros X. by rewrite H1.
Qed.

Lemma skip_body_close body X :
  Forall (λ c, c ≠ 0x5D%N) body → skip_body (body ++ 0x5D%N :: X) = 0x5D%N :: X.
Proof.
  induction 1 as [|c b Hc Hb IH]; simpl; [done|].
  by rewrite (proj2 (N.eqb_neq _ _) Hc).
Qed.

Lemma skip_body_open body : Forall (λ c, c ≠ 0x5D%N) body → skip_body body = [].
Proof.
  induction 1 as [|c b Hc Hb IH]; simpl; [done|].
  by rewrite (proj2 (N.eqb_neq _ _) Hc).
Qed.

Lemma match_open_tail body :
  Forall (λ c, c ≠ 0x5D%N) body →
  (∀ X, match_block (0x5B%N :: body ++ 0x5D%N :: X) = None) ∨
  (∀ X, match_block (0x5B%N :: body ++ 0x5D%N :: X) = Some (lstrip X)).
Proof.
  intros Hb. destruct (match_marker_tail body Hb) as [H|(b' & Hb' & H)].
  - left. intros X. unfold match_block. simpl. by rewrite H.
  - right. intros X. unfold match_block. simpl. rewrite H. simpl.
    by rewrite skip_body_close.
Qed.

Lemma match_open_unclosed body :
  Forall (λ c, c ≠ 0x5D%N) body → match_block (0x5B%N :: body) = None.
Proof.
  intros Hb. unfold match_block. simpl.
  destruct (match_marker body) as [s2|] eqn:E; [|done]. simpl.
  apply match_marker_shorter in E as [[k ->] _].
  apply Forall_app in Hb as [_ Hb]. by rewrite skip_body_open.
Qed.
(** Scanning text that holds no opening bracket. *)
Lemma match_block_no_open body tail :
  Forall (λ c, c ≠ 0x5B%N) body → (tail = [] ∨ ∃ x, tail = 0x5D%N :: x) →
  match_block (body ++ tail) = None.
Proof.
  intros Hb Ht. unfold match_block.
  assert (expect 0x5B (lstrip (body ++ tail)) = None) as ->; [|done].
  induction Hb as [|c b Hc Hb IH]; simpl.
  - by destruct Ht as [->|[x ->]].
  - destruct (isspace c); [done|]. simpl.
    by rewrite (proj2 (N.eqb_neq _ _) Hc).
Qed.

Lemma block_sub_plain body x :
  Forall (λ c, c ≠ 0x5B%N) body →
  block_sub (body ++ 0x5D%N :: x) = body ++ 0x5D%N :: block_sub x.
Proof.
  induction 1 as [|c b Hc Hb IH]; rewrite block_sub_eq.
  - by rewrite (match_block_no_open [] (0x5D%N :: x)) by eauto.
  - rewrite (match_block_no_open (c :: b) (0x5D%N :: x)) by eauto.
    simpl. by rewrite IH.
Qed.

Lemma block_sub_no_open body :
  Forall (λ c, c ≠ 0x5B%N) body → block_sub body = body.
Proof.
  induction 1 as [|c b Hc Hb IH]; rewrite block_sub_eq; [done|].
  assert (match_block ((c :: b) ++ []) = None) as H
    by (apply match_block_no_open; eauto).
  rewrite app_nil_r in H. by rewrite H, IH.
Qed.

Lemma plain_until_close_inv s :
  plain_until_close s = true →
  ∃ body tail, s = body ++ tail ∧
    Forall (λ c, c ≠ 0x5B%N) body ∧ Forall (λ c, c ≠ 0x5D%N) body ∧
    (tail = [] ∨ ∃ x, tail = 0x5D%N :: x).
Proof.
  induction s as [|c s IH]; simpl; intros H.
  - exists [], []. eauto.
  - destruct (N.eqb_spec c 0x5D) as [->|Hc].
    + exists [], (0x5D%N :: s). eauto 10.
    + destruct (N.eqb_spec c 0x5B) as [->|Ho]; [done|].
      destruct (IH H) as (body & tail & -> & H1 & H2 & H3).
      exists (c :: body), tail. eauto 10.
Qed.

Lemma brackets_flat_suffix s u :
  brackets_flat s = true → u `suffix_of` s → brackets_flat u = true.
Proof.
  intros Hs [k ->]. induction k as [|c k IH]; [done|].
  simpl in Hs. apply andb_true_iff in Hs as [_ Hs]. by apply IH.
Qed.

Lemma block_free_nil : block_free [].
Proof. intros u Hu. by apply suffix_nil_inv in Hu as ->. Qed.

Lemma block_free_cons c s :
  match_block (c :: s) = None → block_free s → block_free (c :: s).
Proof.
  intros Hc Hs [|x u] Hu; [done|].
  apply suffix_cons_inv in Hu as [->|Hu]; [done|by apply Hs].
Qed.

(** When brackets are not nested, what the scan leaves holds no block. *)
Lemma block_sub_flat n t :
  length t ≤ n → brackets_flat t = true → block_free (block_sub t).
Proof.
  revert t. induction n as [|n IH]; intros t Hn Hflat.
  { destruct t; [|simpl in Hn; lia]. apply block_free_nil. }
  rewrite block_sub_eq. destruct (match_block t) as [rest|] eqn:E.
  { apply match_block_shorter in E as [Hsuf Hlen].
    apply IH; [lia|by eapply brackets_flat_suffix]. }
  destruct t as [|c t]; [apply block_free_nil|].
  simpl in Hn, Hflat. apply andb_true_iff in Hflat as [Hopen Hflat].
  assert (block_free (block_sub t)) as HR by (apply IH; [lia|done]).
  apply block_free_cons; [|done].
  destruct (N.eqb_spec c 0x5B) as [->|Hc].
  - destruct (plain_until_close_inv _ Hopen)
      as (body & tail & -> & Hb1 & Hb2 & [->|[x ->]]).
    + rewrite app_nil_r. rewrite block_sub_no_open by done.
      by apply match_open_unclosed.
    + rewrite block_sub_plain by done.
      destruct (match_open_tail body Hb2) as [H|H]; [apply H|].
      by rewrite H in E.
  - unfold match_block. simpl. destruct (isspace c) eqn:Es.
    + apply (HR (block_sub t)). done.
    + simpl. by rewrite (proj2 (N.eqb_neq _ _) Hc).
Qed.

End Sanitizer.

(** C1 fails as stated: removing an inner block can join what is left into
    a new block, which only the second pass removes. *)
Lemma strip_blocks_not_idempotent_counterexample :
  strip_blocks (Py.lit "[Prof[Profile:x]ile:y]") = Py.lit "[Profile:y]" ∧
  strip_blocks (strip_blocks (Py.lit "[Prof[Profile:x]ile:y]")) = [] ∧
  strip_blocks (strip_blocks (Py.lit "[Prof[Profile:x]ile:y]"))
  ≠ strip_blocks (Py.lit "[Prof[Profile:x]ile:y]").
Proof. vm_compute. by repeat split. Qed.

(** C1, amended: the sanitizer (drop every directive block with the white
    space around it, then trim) is idempotent on every text whose brackets
    are not nested, that is, in which no opening bracket occurs between
    another opening bracket and the next closing bracket. *)
Theorem strip_blocks_idempotent t :
  brackets_flat t = true → strip_blocks (strip_blocks t) = strip_blocks t.
Proof.
  intros Hflat. unfold strip_blocks at 2 3.
  apply Sanitizer.strip_blocks_block_free.
  by apply (Sanitizer.block_sub_flat (length t)).
Qed.

Lemma strip_blocks_idempotent_witness :
  strip_blocks (strip_blocks (Py.lit "Hi [Profile: a=b]  there [x] [ProfileDelete: 1] "))
  = strip_blocks (Py.lit "Hi [Profile: a=b]  there [x] [ProfileDelete: 1] ").
Proof. apply strip_blocks_idempotent. reflexivity. Defined.

(** A profile stored with the notes first and a field that is not in the
    allow-list: the summary follows the allow-list. *)
Lemma format_profile_summary_spec_witness :
  format_profile_summary [CITY; NOTES]
    (single_profile USER
       [(NOTES, Py.lit " tea; jazz;"); (JOB, Py.lit "cook"); (CITY, Py.lit "Paris")])
    USER None
  = Py.lit "- city" ++ [0xFF1A%N] ++ Py.lit "Paris" ++ [0x0A%N] ++
    [0x2D; 0x20; 0x5907; 0x6CE8; 0xFF1A]%N ++ Py.lit "1.tea 2.jazz".
Proof.
  etrans.
  - refine (proj1 (format_profile_summary_spec [CITY; NOTES]
                     (single_profile USER
                        [(NOTES, Py.lit " tea; jazz;"); (JOB, Py.lit "cook");
                         (CITY, Py.lit "Paris")])
                     USER None [Py.lit "tea"; Py.lit "jazz"] _)).
    refine (note_entries_more (Py.lit " tea") 0x3B%N (Py.lit " jazz;")
              [Py.lit "jazz"] _ eq_refl
              (note_entries_more (Py.lit " jazz") 0x3B%N [] [] _ eq_refl
                 (note_entries_last [] _)));
      apply (bool_decide_unpack _); vm_compute; exact I.
  - reflexivity.
Defined.

(** ** Successful deletes *)

Lemma put_notes_get notes p :
  Dict.get NOTES (put_notes notes p)
  = match notes with [] => None | _ => Some (Py.join NOTE_SEP notes) end.
Proof.
  destruct notes; simpl; [apply DictFacts.get_del_eq|apply DictFacts.get_set_eq].
Qed.

Lemma put_notes_get_ne notes p field :
  field ≠ NOTES → Dict.get field (put_notes notes p) = Dict.get field p.
Proof.
  intros Hne. destruct notes; simpl;
    [apply DictFacts.get_del_ne|apply DictFacts.get_set_ne]; done.
Qed.

Lemma isdigit_not_reserved t : Py.isdigit t = true → t ≠ NOTES ∧ t ≠ LAST_UPDATED.
Proof. intros H. split; intros ->; by vm_compute in H. Qed.

Section DeleteSteps.
Variable now : nat → str.

(** The state after notes [notes] are written back to the profile [p]. *)
Lemma commit_put_notes m key p notes :
  Forall clean_note notes →
  let m' := commit now m (user_data m) key (put_notes notes p) in
  notes_of m' key = notes ∧
  notes_value m' key ≠ Some [] ∧
  (notes = [] → notes_value m' key = None) ∧
  (∀ field, field ≠ NOTES → field ≠ LAST_UPDATED →
     user_data m' !! key ≫= Dict.get field = Dict.get field p).
Proof.
  intros Hclean m'.
  assert (notes_value m' key
          = match notes with [] => None | _ => Some (Py.join NOTE_SEP notes) end)
    as Hv by (unfold m'; by rewrite commit_notes, put_notes_get).
  repeat split.
  - unfold notes_of. rewrite Hv. destruct notes as [|e l]; [done|].
    by apply split_notes_join.
  - rewrite Hv. destruct notes as [|e l] eqn:E; [done|].
    intros [= H]. by apply (join_clean_nonempty (e :: l)).
  - intros ->. by rewrite Hv.
  - intros field H1 H2. unfold m'. rewrite commit_lookup. simpl.
    rewrite DictFacts.get_set_ne by done. by apply put_notes_get_ne.
Qed.

(** Step 2 of [delete_field] on a valid index. *)
Lemma delete_field_index m user_id session_id t p v n :
  let key := _get_user_key user_id session_id in
  user_data m !! key = Some p → Dict.get t p = None →
  Dict.get NOTES p = Some v →
  Py.isdigit t = true → Py.int t = Some n →
  (1 ≤ n ≤ Z.of_nat (length (split_notes v)))%Z →
  ∃ msg, delete_field now m user_id t session_id
         = Ret (commit now m (user_data m) key
                  (put_notes (delete (Z.to_nat (n - 1)) (split_notes v)) p))
               (true, msg).
Proof.
  intros key Hp Ht Hv Hd Hn Hr. unfold delete_field. fold key. rewrite Hp.
  rewrite (proj2 (DictFacts.mem_false _ _) Ht).
  rewrite (proj2 (DictFacts.mem_true NOTES p)) by (rewrite Hv; eauto).
  rewrite Hd, Hn, Hv. simpl.
  rewrite bool_decide_eq_true_2 by lia.
  unfold put_notes. destruct (delete _ _); eauto.
Qed.

(** Step 3 of [delete_field] when some note holds the target. *)
Lemma delete_field_substring m user_id session_id t p v :
  let key := _get_user_key user_id session_id in
  let notes := split_notes v in
  let kept := filter (λ n, Py.contains t n = false) notes in
  user_data m !! key = Some p → Dict.get t p = None →
  Dict.get NOTES p = Some v → Py.isdigit t = false →
  length kept < length notes →
  ∃ msg, delete_field now m user_id t session_id
         = Ret (commit now m (user_data m) key (put_notes kept p)) (true, msg).
Proof.
  intros key notes kept Hp Ht Hv Hd Hlen. unfold delete_field. fold key.
  rewrite Hp, (proj2 (DictFacts.mem_false _ _) Ht), Hd, andb_false_r.
  rewrite (proj2 (DictFacts.mem_true NOTES p)) by (rewrite Hv; eauto).
  rewrite Hv. simpl. fold notes. fold kept.
  rewrite bool_decide_eq_true_2 by done.
  unfold put_notes. destruct kept; eauto.
Qed.


End DeleteSteps.

(** ** Deleting the last notes *)

Section LastNotes.
Variable now : nat → str.

Lemma delete_by_index_run user_id session_id targets :
  let key := _get_user_key user_id session_id in
  ∀ m p v,
    user_data m !! key = Some p → Dict.get NOTES p = Some v →
    targets ≠ [] → valid_indices (length (split_notes v)) targets →
    (∀ t, t ∈ targets → Dict.get t p = None) →
    ∃ m', delete_each now m user_id session_id targets = Ret m' tt ∧
      notes_value m' key ≠ Some [] ∧
      (length targets = length (split_notes v) → notes_value m' key = None).
Proof.
  intros key. induction targets as [|t ts IH]; intros m p v Hp Hv Hne Hvalid Hfree;
    [done|].
  destruct Hvalid as (Hd & (n & Hn & Hr) & Hvalid).
  destruct (delete_field_index now m user_id session_id t p v n) as [msg Hstep];
    try done; [apply Hfree; by left|].
  set (notes' := delete (Z.to_nat (n - 1)) (split_notes v)) in *.
  assert (Forall clean_note notes') as Hclean
    by apply Forall_delete, split_notes_clean.
  assert (length notes' = length (split_notes v) - 1) as Hlen.
  { apply length_delete, lookup_lt_is_Some_2. lia. }
  destruct (commit_put_notes now m key p notes' Hclean) as (H1 & H2 & H3 & H4).
  simpl. rewrite Hstep.
  set (m1 := commit now m (user_data m) (_get_user_key user_id session_id)
               (put_notes notes' p)) in *.
  destruct ts as [|t2 ts].
  - exists m1. split; [done|]. split; [exact H2|].
    intros Hk. apply H3. apply nil_length_inv. simpl in Hk. lia.
  - destruct Hvalid as (Hd2 & (n2 & Hn2 & Hr2) & Hvalid2).
    destruct notes' as [|e l] eqn:En; [simpl in Hlen; lia|].
    destruct (IH m1 (Dict.set LAST_UPDATED (now (clock m)) (put_notes (e :: l) p))
                (Py.join NOTE_SEP (e :: l))) as (m' & Hrun & Hnb & Hlast).
    + apply commit_lookup.
    + rewrite DictFacts.get_set_ne by done. apply put_notes_get.
    + done.
    + rewrite split_notes_join by done. rewrite Hlen. by repeat split; eauto.
    + intros t' Ht'.
      assert (Py.isdigit t' = true) as Hdt'.
      { clear -Ht' Hd2 Hvalid2. apply elem_of_cons in Ht' as [->|Ht']; [done|].
        revert Hvalid2. generalize (length (split_notes v) - 1 - 1).
        induction ts as [|x ts IH]; intros k Hk; [by apply elem_of_nil in Ht'|].
        destruct Hk as (? & _ & ?). apply elem_of_cons in Ht' as [->|Ht']; eauto. }
      apply isdigit_not_reserved in Hdt' as [? ?].
      rewrite DictFacts.get_set_ne, put_notes_get_ne by done.
      apply Hfree. by right.
    + exists m'. split; [exact Hrun|]. split; [exact Hnb|].
      intros Hk. apply Hlast. rewrite split_notes_join by done.
      simpl in *. lia.
Qed.

(** C8: deleting note entries one per call, each by an index valid at the
    time of the call, never leaves the notes field holding an empty
    string, and once as many entries have been deleted as there were, the
    field is absent; likewise a substring delete that matches every
    remaining entry removes the field. *)
Theorem delete_last_notes_removes_field m user_id session_id p v :
  let key := _get_user_key user_id session_id in
  user_data m !! key = Some p → Dict.get NOTES p = Some v →
  (∀ targets,
     targets ≠ [] → valid_indices (length (split_notes v)) targets →
     (∀ t, t ∈ targets → Dict.get t p = None) →
     ∃ m', delete_each now m user_id session_id targets = Ret m' tt ∧
       notes_value m' key ≠ Some [] ∧
       (length targets = length (split_notes v) → notes_value m' key = None))
  ∧
  (∀ t, Dict.get t p = None → Py.isdigit t = false →
     split_notes v ≠ [] →
     Forall (λ n, Py.contains t n = true) (split_notes v) →
     ∃ m' msg, delete_field now m user_id t session_id = Ret m' (true, msg) ∧
       notes_value m' key = None).
Proof.
  intros key Hp Hv. split.
  - intros targets Hne Hvalid Hfree.
    by apply (delete_by_index_run user_id session_id targets m p v).
  - intros t Ht Hd Hne Hall.
    assert (filter (λ n, Py.contains t n = false) (split_notes v) = []) as Hkept.
    { clear -Hall. induction Hall as [|x l Hx Hl IH]; [done|].
      rewrite filter_cons_False by congruence. done. }
    destruct (delete_field_substring now m user_id session_id t p v) as [msg Hstep];
      try done.
    { rewrite Hkept. destruct (split_notes v); [done|simpl; lia]. }
    rewrite Hkept in Hstep. eexists _, msg. split; [exact Hstep|].
    by apply (commit_put_notes now m key p []).
Qed.

End LastNotes.

Lemma delete_last_notes_removes_field_witness :
  let m := single_profile (Py.lit "u") [(NOTES, Py.lit "tea;jazz")] in
  (∃ m', delete_each fixed_clock m (Py.lit "u") None [Py.lit "2"; Py.lit "1"] = Ret m' tt ∧
     notes_value m' (Py.lit "u") ≠ Some [] ∧
     (2 = 2 → notes_value m' (Py.lit "u") = None))
  ∧
  (∃ m' msg, delete_field fixed_clock
               (single_profile (Py.lit "u") [(NOTES, Py.lit "green tea;black tea")])
               (Py.lit "u") (Py.lit "tea") None = Ret m' (true, msg) ∧
     notes_value m' (Py.lit "u") = None).
Proof.
  split.
  - refine (proj1 (delete_last_notes_removes_field fixed_clock
              (single_profile (Py.lit "u") [(NOTES, Py.lit "tea;jazz")])
              (Py.lit "u") None [(NOTES, Py.lit "tea;jazz")] (Py.lit "tea;jazz")
              eq_refl eq_refl) [Py.lit "2"; Py.lit "1"] _ _ _).
    + discriminate.
    + repeat split; try reflexivity.
      * exists 2%Z. split; [reflexivity|]. vm_compute. split; discriminate.
      * exists 1%Z. split; [reflexivity|]. vm_compute. split; discriminate.
    + intros t Ht. apply elem_of_cons in Ht as [->|Ht]; [reflexivity|].
      apply elem_of_cons in Ht as [->|Ht]; [reflexivity|].
      by apply elem_of_nil in Ht.
  - refine (proj2 (delete_last_notes_removes_field fixed_clock
              (single_profile (Py.lit "u") [(NOTES, Py.lit "green tea;black tea")])
              (Py.lit "u") None [(NOTES, Py.lit "green tea;black tea")]
              (Py.lit "green tea;black tea") eq_refl eq_refl)
              (Py.lit "tea") eq_refl eq_refl _ _).
    + discriminate.
    + repeat constructor.
Defined.

(** ** The order of deletes within one block *)

Module Order.





(** The stable descending sort. *)
Lemma elem_of_insert_desc z x l : z ∈ insert_desc x l ↔ z = x ∨ z ∈ l.
Proof.
  induction l as [|y l IH]; simpl.
  - rewrite list_elem_of_singleton, elem_of_nil. tauto.
  - destruct (y.1 <=? x.1)%Z.
    + by rewrite elem_of_cons.
    + rewrite !elem_of_cons, IH. tauto.
Qed.

Lemma elem_of_sort_desc z l : z ∈ sort_desc l ↔ z ∈ l.
Proof.
  induction l as [|x l IH]; simpl; [done|].
  by rewrite elem_of_insert_desc, elem_of_cons, IH.
Qed.

Lemma insert_desc_sorted x l :
  StronglySorted (λ a b : Z * list N, (b.1 ≤ a.1)%Z) l →
  StronglySorted (λ a b : Z * list N, (b.1 ≤ a.1)%Z) (insert_desc x l).
Proof.
  induction 1 as [|y l Hl IH Hy]; simpl.
  - by repeat constructor.
  - destruct (Z.leb_spec y.1 x.1).
    + constructor; [by constructor|]. constructor; [done|].
      eapply Forall_impl; [exact Hy|]. simpl. lia.
    + constructor; [done|]. apply Forall_forall. intros z Hz.
      apply elem_of_insert_desc in Hz as [->|Hz]; [lia|].
      by apply (proj1 (Forall_forall _ _) Hy).
Qed.

Lemma sort_desc_sorted l :
  StronglySorted (λ a b : Z * list N, (b.1 ≤ a.1)%Z) (sort_desc l).
Proof.
  induction l as [|x l IH]; simpl; [constructor|by apply insert_desc_sorted].
Qed.

Lemma sorted_by_int_desc_spec l digits :
  sorted_by_int_desc l = Some digits →
  (∀ d, d ∈ digits → d ∈ l) ∧
  ∃ keys, Forall2 (λ d k, Py.int d = Some k) digits keys ∧
          StronglySorted (λ a b : Z, (b ≤ a)%Z) keys.
Proof.
  unfold sorted_by_int_desc. intros H.
  apply bind_Some in H as (keyed & Hk & [= <-]).
  apply mapM_Some_1 in Hk.
  assert (∀ kf, kf ∈ keyed → kf.2 ∈ l ∧ Py.int kf.2 = Some kf.1) as Hpairs.
  { clear -Hk. induction Hk as [|f kf l keyed Hf Hk IH]; intros z Hz.
    - by apply elem_of_nil in Hz.
    - apply elem_of_cons in Hz as [->|Hz].
      + apply fmap_Some in Hf as (k & Hk' & ->). simpl. split; [by left|done].
      + destruct (IH z Hz). split; [by right|done]. }
  assert (∀ kf, kf ∈ sort_desc keyed → kf.2 ∈ l ∧ Py.int kf.2 = Some kf.1) as Hs.
  { intros kf Hkf. by apply Hpairs, elem_of_sort_desc. }
  pose proof (sort_desc_sorted keyed) as Hsorted.
  revert Hs Hsorted. generalize (sort_desc keyed). clear. intros s Hs Hsorted.
  split.
  - intros d Hd. apply list_elem_of_fmap in Hd as (kf & -> & Hkf). by apply Hs.
  - exists (s.*1). split.
    + clear Hsorted. induction s as [|kf s IH]; [constructor|].
      rewrite !fmap_cons. constructor.
      * apply Hs. by left.
      * apply IH. intros z Hz. apply Hs. by right.
    + induction Hsorted as [|kf s Hsorted IH Hkf]; [constructor|].
      rewrite fmap_cons. constructor.
      * apply IH. intros z Hz. apply Hs. by right.
      * by apply Forall_fmap.
Qed.


End Order.

Section BlockOrder.
Variable now : nat → str.


(** Only a numeric target can make [delete_field] raise. *)
Lemma delete_field_other_returns m user_id session_id t :
  Py.isdigit t = false →
  ∃ m' r, delete_field now m user_id t session_id = Ret m' r.
Proof.
  intros Hd. unfold delete_field. rewrite Hd.
  destruct (user_data m !! _) as [p|]; [|eauto].
  destruct (Dict.mem t p); [eauto|].
  destruct (Dict.mem NOTES p); [|eauto]. simpl.
  destruct (bool_decide _); eauto.
Qed.



Lemma int_keys_unique digits keys keys' :
  Forall2 (λ d k, Py.int d = Some k) digits keys →
  Forall2 (λ d k, Py.int d = Some k) digits keys' → keys = keys'.
Proof.
  intros H. revert keys'. induction H as [|d k ds ks Hk H IH]; intros keys' H'.
  - by inversion H'.
  - inversion H' as [|? k' ? ks' Hk' H'']; subst. f_equal; [congruence|by apply IH].
Qed.


End BlockOrder.

(** ** The notes field under updates *)

Lemma join_one_piece v entries :
  Forall (λ c, c ≠ 0xFF1B%N) v → v ≠ [] →
  v = Py.join NOTE_SEP entries → Forall (λ e, e ≠ []) entries → entries = [v].
Proof.
  intros Hv Hne -> Hentries.
  destruct entries as [|x [|y l]]; [done|done|].
  exfalso. change (Py.join NOTE_SEP (x :: y :: l))
    with (x ++ 0xFF1B%N :: Py.join NOTE_SEP (y :: l)) in Hv.
  apply Forall_app in Hv as [_ Hv]. by apply Forall_cons in Hv as [? _].
Qed.

(** C3: the stored notes should always be a list of at most
    [max_notes_count] trimmed, non-empty, distinct entries of at most 20
    characters.  The code truncates an incoming entry after trimming it and
    does not trim the result again, so an entry cut behind a space is
    stored with that space: after one update of the empty store with
    [LONG_NOTE] the stored value breaks the invariant.  Read back, the entry
    is trimmed, so the same text is then taken for new, and after a further
    update the stored list holds the same entry twice. *)
Theorem update_field_notes_untrimmed :
  let upd := λ m value,
    (update_field [NOTES] 5 fixed_clock m (Py.lit "u") NOTES value None).1 in
  let m1 := upd fresh LONG_NOTE in
  let m3 := upd (upd m1 LONG_NOTE) (Py.lit "z") in
  notes_value m1 (Py.lit "u") = Some (LONG_NOTE_HEAD ++ Py.lit " ") ∧
  ¬ notes_invariant 5 (LONG_NOTE_HEAD ++ Py.lit " ") ∧
  (notes_value m3 (Py.lit "u")
   = Some (Py.join NOTE_SEP [LONG_NOTE_HEAD; LONG_NOTE_HEAD; Py.lit "z"])) ∧
  notes_of m3 (Py.lit "u") = [LONG_NOTE_HEAD; LONG_NOTE_HEAD; Py.lit "z"] ∧
  ¬ NoDup (notes_of m3 (Py.lit "u")).
Proof.
  split; [by vm_compute|]. split; [|split; [by vm_compute|split; [by vm_compute|]]].
  - intros (entries & Hjoin & _ & Hall & _).
    apply join_one_piece in Hjoin.
    + subst entries. apply Forall_cons in Hall as [(_ & Hstrip & _) _].
      by vm_compute in Hstrip.
    + by repeat constructor.
    + done.
    + eapply Forall_impl; [exact Hall|]. by intros e (? & _).
  - intros H. vm_compute in H. apply NoDup_cons in H as [H _]. apply H. by left.
Qed.

Section Resubmit.
Variable allowed_fields : list str.
Variable max_notes_count : Z.
Variable now : nat → str.

Lemma append_new_present notes note rest :
  note ∈ notes → append_new notes (note :: rest) = append_new notes rest.
Proof. intros H. unfold append_new. simpl. by rewrite decide_True. Qed.

Lemma append_new_all_present notes new_notes :
  (∀ n, n ∈ new_notes → n ∈ notes) → append_new notes new_notes = notes.
Proof.
  induction new_notes as [|n l IH]; intros H; [done|].
  rewrite append_new_present by (apply H; by left).
  apply IH. intros x Hx. apply H. by right.
Qed.

Lemma append_new_Forall (P : list N → Prop) notes new_notes :
  Forall P notes → Forall P new_notes → Forall P (append_new notes new_notes).
Proof.
  intros Hn Hnew. revert notes Hn. unfold append_new.
  induction Hnew as [|n l Hp Hl IH]; intros notes Hn; simpl; [done|].
  apply IH. destruct (decide (n ∈ notes)); [done|].
  apply Forall_app. by repeat constructor.
Qed.

(** The notes value an update of the notes field stores. *)
Lemma update_field_notes m user_id session_id value :
  NOTES ∈ allowed_fields →
  let key := _get_user_key user_id session_id in
  notes_value (update_field allowed_fields max_notes_count now m user_id NOTES
                 value session_id).1 key
  = Some (merge_notes max_notes_count
            (default [] (notes_value m key)) (Py.strip value)).
Proof.
  intros Hin key. unfold update_field. fold key.
  rewrite (bool_decide_eq_true_2 _ Hin). simpl negb. cbv iota.
  rewrite decide_True by done. simpl fst.
  rewrite commit_notes, DictFacts.get_set_eq. do 2 f_equal.
  unfold notes_value. destruct (user_data m !! key) as [p|] eqn:Hp; simpl.
  - by rewrite Hp.
  - by rewrite lookup_insert_eq.
Qed.

(** C5, amended: an incoming entry equal to one already in the accumulated
    list is not appended again.  Submitting the same text again leaves the
    stored notes value as it is, provided [max_notes_count] is not negative
    and every incoming entry (a piece of the text, trimmed, then cut to 20
    characters) is equal to one of the entries that the second call reads
    back from the stored value, that is, to one of the pieces of the stored
    value after trimming.  This leaves out an entry that the cap evicted,
    and an entry that the cut left with white space at its end: the stored
    piece ends in that white space and is read back without it. *)
Theorem update_field_notes_resubmit m user_id session_id value :
  let key := _get_user_key user_id session_id in
  let m1 := (update_field allowed_fields max_notes_count now m user_id NOTES
               value session_id).1 in
  let m2 := (update_field allowed_fields max_notes_count now m1 user_id NOTES
               value session_id).1 in
  NOTES ∈ allowed_fields → (0 ≤ max_notes_count)%Z →
  (∀ n, n ∈ split_new_notes (Py.strip value) → n ∈ notes_of m1 key) →
  notes_value m2 key = notes_value m1 key ∧
  ∀ notes note rest,
    note ∈ notes → append_new notes (note :: rest) = append_new notes rest.
Proof.
  intros key m1 m2 Hin Hmax Hkept. split; [|apply append_new_present].
  unfold m2. rewrite update_field_notes by done. fold key.
  assert (notes_value m1 key
          = Some (merge_notes max_notes_count
                    (default [] (notes_value m key)) (Py.strip value))) as H1
    by (unfold m1; by rewrite update_field_notes).
  unfold notes_of in Hkept. rewrite H1 in *. simpl in *. f_equal.
  set (v0 := default [] (notes_value m key)) in *.
  set (v1 := merge_notes max_notes_count v0 (Py.strip value)) in *.
  set (acc := append_new (match v0 with [] => [] | _ => split_notes v0 end)
                (split_new_notes (Py.strip value))).
  assert (v1 = Py.join NOTE_SEP (Py.last_slice max_notes_count acc)) as Hv1 by done.
  assert (Forall clean_note acc) as Hclean.
  { apply append_new_Forall.
    - destruct v0; [done|apply split_notes_clean].
    - apply Forall_forall. intros n Hn.
      by apply (proj1 (Forall_forall _ _) (split_notes_clean v1)), Hkept. }
  assert (split_notes v1 = Py.last_slice max_notes_count acc) as Hsplit.
  { rewrite Hv1. apply split_notes_join.
    destruct (PyFacts.last_slice_suffix max_notes_count acc) as [k ->].
    by apply Forall_drop. }
  unfold merge_notes at 1.
  replace (match v1 with [] => [] | _ => split_notes v1 end)
    with (split_notes v1) by (by destruct v1).
  rewrite append_new_all_present by done.
  rewrite Hsplit, PyFacts.last_slice_idem by done. done.
Qed.

End Resubmit.

(** C5 fails as stated.  With a cap of two notes, submitting [a;b;c] once
    stores b, c; submitting it again appends a, which the first submission
    had evicted, and stores c, a.  And with a cap of five, where nothing is
    evicted, submitting [LONG_NOTE] once stores its first 20 characters,
    the last of them a space; the second call reads the entry back without
    the space, takes the incoming entry for new and stores it a second
    time. *)
Lemma update_field_notes_resubmit_counterexample :
  let upd := λ m,
    (update_field [NOTES] 2 fixed_clock m (Py.lit "u") NOTES (Py.lit "a;b;c") None).1 in
  let upd' := λ m,
    (update_field [NOTES] 5 fixed_clock m (Py.lit "u") NOTES LONG_NOTE None).1 in
  notes_of (upd fresh) (Py.lit "u") = [Py.lit "b"; Py.lit "c"] ∧
  notes_of (upd (upd fresh)) (Py.lit "u") = [Py.lit "c"; Py.lit "a"] ∧
  notes_value (upd (upd fresh)) (Py.lit "u") ≠ notes_value (upd fresh) (Py.lit "u") ∧
  notes_value (upd' fresh) (Py.lit "u") = Some (LONG_NOTE_HEAD ++ Py.lit " ") ∧
  notes_value (upd' (upd' fresh)) (Py.lit "u")
  = Some (LONG_NOTE_HEAD ++ [0xFF1B%N] ++ LONG_NOTE_HEAD ++ Py.lit " ").
Proof. vm_compute. by repeat split. Qed.

Lemma update_field_notes_resubmit_witness :
  let upd := λ m,
    (update_field [NOTES] 2 fixed_clock m (Py.lit "u") NOTES (Py.lit "tea; jazz") None).1 in
  notes_value (upd (upd fresh)) (Py.lit "u") = notes_value (upd fresh) (Py.lit "u") ∧
  ∀ notes note rest,
    note ∈ notes → append_new notes (note :: rest) = append_new notes rest.
Proof.
  apply (update_field_notes_resubmit [NOTES] 2 fixed_clock fresh
           (Py.lit "u") None (Py.lit "tea; jazz")).
  - by left.
  - lia.
  - intros n Hn. vm_compute in Hn.
    apply elem_of_cons in Hn as [->|Hn]; [vm_compute; by left|].
    apply elem_of_cons in Hn as [->|Hn]; [vm_compute; right; by left|].
    by apply elem_of_nil in Hn.
Defined.

(** ** What holds of the notes in every reachable store *)

Lemma note_ok_visible e : note_ok e → ∃ c t, e = c :: t ∧ Py.isspace c = false.
Proof.
  intros (Hne & _ & Hl & _). destruct e as [|c t]; [done|].
  exists c, t. split; [done|]. simpl in Hl.
  destruct (Py.isspace c); [|done].
  pose proof (suffix_length _ _ (PyFacts.lstrip_suffix t)) as Hlen.
  rewrite Hl in Hlen. simpl in Hlen. lia.
Qed.

Lemma note_ok_strip e : note_ok e → note_ok (Py.strip e).
Proof.
  intros He. destruct (note_ok_visible e He) as (c & t & -> & Hc).
  destruct He as (_ & Hlen & _ & Hsep).
  assert (Py.strip (c :: t) = c :: Py.rstrip t) as Hs.
  { unfold Py.strip. rewrite PyFacts.lstrip_nonspace by done.
    by apply PyFacts.rstrip_nonspace. }
  repeat split.
  - by rewrite Hs.
  - pose proof (PyFacts.strip_length (c :: t)). lia.
  - rewrite Hs. by apply PyFacts.lstrip_nonspace.
  - by apply PyFacts.Forall_strip.
Qed.

Lemma note_ok_new n :
  Forall (λ c, is_note_sep c = false) n → Py.strip n ≠ [] →
  note_ok (take 20 (Py.strip n)).
Proof.
  intros Hsep Hne.
  destruct (PyFacts.strip_head n) as [?|(c & t & Hs & Hc)]; [done|].
  repeat split.
  - by rewrite Hs.
  - rewrite length_take. lia.
  - rewrite Hs. simpl take. by apply PyFacts.lstrip_nonspace.
  - by apply Forall_take, PyFacts.Forall_strip.
Qed.

Lemma split_notes_join_ok entries :
  Forall note_ok entries →
  split_notes (Py.join NOTE_SEP entries) = Py.strip <$> entries.
Proof.
  intros Hl. destruct (decide (entries = [])) as [->|Hne]; [done|].
  unfold split_notes, NOTE_SEP.
  rewrite PyFacts.re_split_join; [|done|done|].
  - f_equal. clear Hne. induction Hl as [|e l He Hl IH]; [done|].
    rewrite filter_cons_True, IH; [done|].
    by destruct (note_ok_strip e He) as (? & _).
  - eapply Forall_impl; [exact Hl|]. by intros e (_ & _ & _ & ?).
Qed.

Lemma split_notes_bounded max_notes_count v :
  notes_bounded max_notes_count v →
  Forall note_ok (split_notes v) ∧
  ((0 < max_notes_count)%Z → (Z.of_nat (length (split_notes v)) ≤ max_notes_count)%Z).
Proof.
  intros (entries & -> & Hok & Hlen). rewrite split_notes_join_ok by done. split.
  - apply Forall_fmap. eapply Forall_impl; [exact Hok|]. apply note_ok_strip.
  - by rewrite length_fmap.
Qed.

Lemma split_new_notes_ok value : Forall note_ok (split_new_notes value).
Proof.
  unfold split_new_notes. apply Forall_fmap, Forall_forall. intros n Hn.
  apply list_elem_of_filter in Hn as [Hne Hin]. apply note_ok_new; [|done].
  by eapply (proj1 (Forall_forall _ _) (PyFacts.re_split_pieces is_note_sep value)).
Qed.

Section ReachableFacts.
Variable allowed_fields : list str.
Variable max_notes_count : Z.
Variable now : nat → str.

Lemma merge_notes_bounded existing value :
  (existing ≠ [] → notes_bounded max_notes_count existing) →
  notes_bounded max_notes_count (merge_notes max_notes_count existing value).
Proof.
  intros Hex. unfold merge_notes.
  set (acc := append_new _ _).
  assert (Forall note_ok acc) as Hacc.
  { apply append_new_Forall; [|apply split_new_notes_ok].
    destruct existing; [done|]. by apply (split_notes_bounded max_notes_count), Hex. }
  exists (Py.last_slice max_notes_count acc). split; [done|]. split.
  - destruct (PyFacts.last_slice_suffix max_notes_count acc) as [k ->].
    by apply Forall_drop.
  - intros Hmax. rewrite PyFacts.last_slice_length by done. lia.
Qed.

Lemma update_field_lookup_ne m user_id field value session_id key' :
  _get_user_key user_id session_id ≠ key' →
  user_data (update_field allowed_fields max_notes_count now m user_id field value
               session_id).1 !! key' = user_data m !! key'.
Proof.
  intros Hne. unfold update_field. destruct (negb _); [done|]. simpl fst.
  rewrite commit_lookup_ne by done.
  destruct (user_data m !! _); [done|by rewrite lookup_insert_ne].
Qed.

Lemma update_field_other_notes m user_id field value session_id :
  field ≠ NOTES →
  notes_value (update_field allowed_fields max_notes_count now m user_id field value
                 session_id).1 (_get_user_key user_id session_id)
  = notes_value m (_get_user_key user_id session_id).
Proof.
  intros Hne. unfold update_field. destruct (negb _); [done|]. simpl fst.
  rewrite commit_notes, decide_False by done.
  rewrite DictFacts.get_set_ne by done.
  unfold notes_value. destruct (user_data m !! _) as [p|] eqn:Hp; simpl.
  - by rewrite Hp.
  - by rewrite lookup_insert_eq.
Qed.

(** What a delete leaves behind. *)
Lemma delete_field_final m user_id field session_id :
  let key := _get_user_key user_id session_id in
  final (delete_field now m user_id field session_id) = m ∨
  ∃ p p', user_data m !! key = Some p ∧
    final (delete_field now m user_id field session_id)
      = commit now m (user_data m) key p' ∧
    (p' = Dict.del field p ∨
     ∃ l, p' = put_notes l p ∧
          l `sublist_of` split_notes (default [] (Dict.get NOTES p))).
Proof.
  intros key. unfold delete_field. fold key.
  destruct (user_data m !! key) as [p|] eqn:Hp; [|by left].
  destruct (Dict.mem field p).
  { right. exists p, (Dict.del field p). eauto. }
  destruct (Dict.mem NOTES p); simpl; [|destruct (Py.isdigit field); by left].
  destruct (Py.isdigit field).
  - destruct (Py.int field) as [n|]; [|by left].
    destruct (bool_decide _); [|by left].
    right. exists p. eexists. split; [done|]. split; [done|]. right.
    eexists. split; [done|]. apply sublist_delete.
  - destruct (bool_decide _); [|by left].
    right. exists p. eexists. split; [done|]. split; [done|]. right.
    eexists. split; [done|]. apply sublist_filter.
Qed.

(** In every store reached from the empty one by updates and deletes,
    a stored notes value is a ；-joined list of entries that are not
    empty, have at most 20 characters and no leading white space, and,
    when [max_notes_count] is positive, number at most [max_notes_count]. *)
Lemma reachable_notes_bounded m :
  reachable allowed_fields max_notes_count now m →
  ∀ key v, notes_value m key = Some v → notes_bounded max_notes_count v.
Proof.
  unfold reachable. revert m.
  apply (rtc_ind_r (λ m, ∀ key v, notes_value m key = Some v →
                          notes_bounded max_notes_count v)).
  { intros key v. unfold notes_value, fresh. simpl. by rewrite lookup_empty. }
  intros m m' _ Hstep IH key v.
  destruct Hstep as [m user_id field value session_id
                    |m user_id field session_id].
  - destruct (decide (_get_user_key user_id session_id = key)) as [<-|Hne].
    + destruct (decide (field = NOTES)) as [->|Hf].
      * destruct (decide (NOTES ∈ allowed_fields)) as [Hin|Hout].
        -- rewrite update_field_notes by done. intros [= <-].
           apply merge_notes_bounded. intros Hex.
           destruct (notes_value m _) as [v0|] eqn:Hv0; [by eapply IH|done].
        -- unfold update_field. rewrite (bool_decide_eq_false_2 _ Hout).
           apply IH.
      * rewrite update_field_other_notes by done. apply IH.
    + unfold notes_value. rewrite update_field_lookup_ne by done. apply IH.
  - destruct (delete_field_final m user_id field session_id)
      as [->|(p & p' & Hp & -> & Hp')]; [apply IH|].
    destruct (decide (_get_user_key user_id session_id = key)) as [<-|Hne].
    + rewrite commit_notes.
      assert (∀ v0, Dict.get NOTES p = Some v0 → notes_bounded max_notes_count v0)
        as IHp.
      { intros v0 Hv0. apply (IH (_get_user_key user_id session_id)).
        unfold notes_value. by rewrite Hp. }
      destruct Hp' as [->|(l & -> & Hl)].
      * destruct (decide (field = NOTES)) as [->|Hf].
        -- by rewrite DictFacts.get_del_eq.
        -- rewrite DictFacts.get_del_ne by done. apply IHp.
      * rewrite put_notes_get. destruct l as [|e l']; [done|]. intros [= <-].
        destruct (Dict.get NOTES p) as [v0|] eqn:Hv0;
          [|by apply sublist_nil_r in Hl].
        destruct (split_notes_bounded max_notes_count v0 (IHp v0 eq_refl))
          as [Hok Hlen].
        exists (e :: l'). split; [done|]. split.
        -- apply Forall_forall. intros x Hx.
           apply (proj1 (Forall_forall _ _) Hok).
           by eapply sublist_subseteq.
        -- intros Hmax. apply sublist_length in Hl.
           specialize (Hlen Hmax). simpl in *. lia.
    + unfold notes_value. rewrite commit_lookup_ne by done. apply IH.
Qed.

End ReachableFacts.

(** ** More on the manager: what one operation changes *)

Lemma dict_get_set_inv {V} (k f : list N) (v : V) d :
  is_Some (Dict.get f (Dict.set k v d)) → f = k ∨ is_Some (Dict.get f d).
Proof.
  destruct (decide (k = f)) as [->|Hne]; [by left|].
  rewrite DictFacts.get_set_ne by done. by right.
Qed.

Lemma dict_get_del_inv {V} (k f : list N) (d : list (list N * V)) :
  is_Some (Dict.get f (Dict.del k d)) → f ≠ k ∧ is_Some (Dict.get f d).
Proof.
  destruct (decide (k = f)) as [->|Hne].
  - rewrite DictFacts.get_del_eq. by intros [? ?].
  - rewrite DictFacts.get_del_ne by done. done.
Qed.

Lemma put_notes_keys notes p f :
  notes `sublist_of` split_notes (default [] (Dict.get NOTES p)) →
  is_Some (Dict.get f (put_notes notes p)) → is_Some (Dict.get f p).
Proof.
  intros Hsub Hf. destruct notes as [|e l]; simpl in Hf.
  - by apply dict_get_del_inv in Hf as [_ ?].
  - apply dict_get_set_inv in Hf as [->|?]; [|done].
    destruct (Dict.get NOTES p); [done|]. by apply sublist_nil_r in Hsub.
Qed.

Section Effects.
Variable allowed_fields : list str.
Variable max_notes_count : Z.
Variable now : nat → str.

(** X1: a successful write to a field other than the notes field and the
    bookkeeping key stores the trimmed value; of that profile only the
    field and the time stamp change, and no other profile changes. *)
Theorem update_field_sets_field m user_id field value session_id :
  let key := _get_user_key user_id session_id in
  let m' := (update_field allowed_fields max_notes_count now m user_id field value
               session_id).1 in
  field ∈ allowed_fields → field ≠ NOTES → field ≠ LAST_UPDATED →
  Dict.get field (get_user_profile m' user_id session_id) = Some (Py.strip value) ∧
  (∀ other, other ≠ field → other ≠ LAST_UPDATED →
     Dict.get other (get_user_profile m' user_id session_id)
     = Dict.get other (get_user_profile m user_id session_id)) ∧
  (∀ key', key' ≠ key → user_data m' !! key' = user_data m !! key').
Proof.
  intros key m' Hin Hn Hl.
  assert (user_data m' !! key
          = Some (Dict.set LAST_UPDATED (now (clock m))
                    (Dict.set field (Py.strip value)
                       (get_user_profile m user_id session_id)))) as Hm'.
  { unfold m', update_field. fold key.
    rewrite (bool_decide_eq_true_2 _ Hin). simpl negb. cbv iota. simpl fst.
    rewrite commit_lookup, decide_False by done. do 3 f_equal.
    unfold get_user_profile. fold key.
    destruct (user_data m !! key) as [p|] eqn:Hp; simpl.
    - by rewrite Hp.
    - by rewrite lookup_insert_eq. }
  split; [|split].
  - unfold get_user_profile at 1. fold key. rewrite Hm'. simpl.
    rewrite DictFacts.get_set_ne by done. apply DictFacts.get_set_eq.
  - intros other H1 H2. unfold get_user_profile at 1. fold key. rewrite Hm'. simpl.
    by rewrite !DictFacts.get_set_ne by done.
  - intros key' Hne. by apply update_field_lookup_ne.
Qed.

Lemma split_notes_join_strip entries :
  Forall (λ e, Py.strip e ≠ [] ∧ Forall (λ c, is_note_sep c = false) e) entries →
  split_notes (Py.join NOTE_SEP entries) = Py.strip <$> entries.
Proof.
  intros Hl. destruct (decide (entries = [])) as [->|Hne]; [done|].
  unfold split_notes, NOTE_SEP.
  rewrite PyFacts.re_split_join; [|done|done|].
  - f_equal. clear Hne. induction Hl as [|e l [He _] Hl IH]; [done|].
    by rewrite filter_cons_True, IH.
  - eapply Forall_impl; [exact Hl|]. by intros e [_ ?].
Qed.

(** X2: what readers of the notes field see after an update of it: the
    old entries, then the incoming entries (trimmed, cut to 20 characters)
    that are not yet in the list, of these the last [max_notes_count], each
    trimmed again when read. *)
Theorem update_field_notes_merge m user_id value session_id :
  let key := _get_user_key user_id session_id in
  let m' := (update_field allowed_fields max_notes_count now m user_id NOTES value
               session_id).1 in
  NOTES ∈ allowed_fields →
  notes_of m' key
  = Py.strip <$> Py.last_slice max_notes_count
                   (append_new (notes_of m key) (split_new_notes (Py.strip value))).
Proof.
  intros key m' Hin. unfold notes_of at 1, m'.
  rewrite update_field_notes by done. fold key. simpl default.
  unfold merge_notes, notes_of.
  set (v0 := default [] (notes_value m key)).
  replace (match v0 with [] => [] | _ => split_notes v0 end)
    with (split_notes v0) by (by destruct v0).
  apply split_notes_join_strip.
  destruct (PyFacts.last_slice_suffix max_notes_count
              (append_new (split_notes v0) (split_new_notes (Py.strip value))))
    as [k ->].
  apply Forall_drop, append_new_Forall.
  - eapply Forall_impl; [apply split_notes_clean|].
    intros e (Hne & Hs & Hsep). by rewrite Hs.
  - eapply Forall_impl; [apply split_new_notes_ok|].
    intros e He. destruct (note_ok_strip e He) as (? & _).
    by destruct He as (_ & _ & _ & ?).
Qed.

(** X3: with [max_notes_count = 0] the slice [notes[-0:]] is the whole
    list: an update of the notes never drops an entry. *)
Theorem update_field_notes_no_cap m user_id value session_id e :
  let key := _get_user_key user_id session_id in
  let m' := (update_field allowed_fields 0 now m user_id NOTES value
               session_id).1 in
  NOTES ∈ allowed_fields → e ∈ notes_of m key → e ∈ notes_of m' key.
Proof.
  intros key m' Hin He. unfold notes_of at 1, m'.
  rewrite (update_field_notes allowed_fields 0 now) by done. fold key.
  simpl default. unfold merge_notes. rewrite PyFacts.last_slice_zero.
  set (v0 := default [] (notes_value m key)).
  change (e ∈ split_notes v0) in He.
  replace (match v0 with [] => [] | _ => split_notes v0 end)
    with (split_notes v0) by (by destruct v0).
  rewrite split_notes_join_strip.
  - assert (Py.strip e = e) as <-.
    { by destruct (proj1 (Forall_forall _ _) (split_notes_clean v0) e He)
        as (_ & ? & _). }
    apply list_elem_of_fmap_2. revert He. unfold append_new.
    generalize (split_new_notes (Py.strip value)) (split_notes v0).
    intros new. induction new as [|n new IH]; intros acc Hacc; simpl; [done|].
    apply IH. destruct (decide (n ∈ acc)); [done|]. apply elem_of_app. by left.
  - apply append_new_Forall.
    + eapply Forall_impl; [apply split_notes_clean|].
      intros x (Hne & Hs & Hsep). by rewrite Hs.
    + eapply Forall_impl; [apply split_new_notes_ok|].
      intros x Hx. destruct (note_ok_strip x Hx) as (? & _).
      by destruct Hx as (_ & _ & _ & ?).
Qed.


End Effects.

(** ** Text without surrogates, stores that can be saved *)

Module Chars.
Section Chars.
Variable P : N → Prop.

Lemma Forall_re_split sep s : Forall P s → Forall (Forall P) (Py.re_split sep s).
Proof.
  induction 1 as [|c s Hc Hs IH]; simpl; [by repeat constructor|].
  destruct (sep c); [by constructor|].
  destruct (Py.re_split sep s) as [|p ps]; [by repeat constructor|].
  inversion IH; subst. constructor; [by constructor|done].
Qed.

Lemma Forall_join sep l :
  Forall P sep → Forall (Forall P) l → Forall P (Py.join sep l).
Proof.
  intros Hsep. induction 1 as [|x l Hx Hl IH]; [constructor|].
  destruct l as [|y l]; [done|].
  change (Py.join sep (x :: y :: l)) with (x ++ sep ++ Py.join sep (y :: l)).
  rewrite !Forall_app. done.
Qed.

Lemma Forall_split_notes v : Forall P v → Forall (Forall P) (split_notes v).
Proof.
  intros Hv. unfold split_notes. apply Forall_fmap, Forall_forall.
  intros n [_ Hn]%list_elem_of_filter. simpl. apply PyFacts.Forall_strip.
  by apply (proj1 (Forall_forall _ _) (Forall_re_split is_note_sep v Hv)).
Qed.

Lemma Forall_split_new_notes v : Forall P v → Forall (Forall P) (split_new_notes v).
Proof.
  intros Hv. unfold split_new_notes. apply Forall_fmap, Forall_forall.
  intros n [_ Hn]%list_elem_of_filter. simpl. apply Forall_take, PyFacts.Forall_strip.
  by apply (proj1 (Forall_forall _ _) (Forall_re_split is_note_sep v Hv)).
Qed.

Lemma Forall_merge_notes max_notes_count existing value :
  P 0xFF1B%N → Forall P existing → Forall P value →
  Forall P (merge_notes max_notes_count existing value).
Proof.
  intros Hsep He Hv. unfold merge_notes.
  apply Forall_join; [by repeat constructor|].
  destruct (PyFacts.last_slice_suffix max_notes_count
              (append_new (match existing with [] => [] | _ => split_notes existing end)
                 (split_new_notes value))) as [k ->].
  apply Forall_drop, append_new_Forall; [|by apply Forall_split_new_notes].
  destruct existing; [constructor|by apply Forall_split_notes].
Qed.

End Chars.
End Chars.

Lemma encodable_Forall s :
  Py.encodable s = true ↔ Forall (λ c, Py.surrogate c = false) s.
Proof.
  unfold Py.encodable. induction s as [|c s IH]; simpl; [done|].
  rewrite andb_true_iff, negb_true_iff, IH, Forall_cons. done.
Qed.

Lemma encodable_app a b :
  Py.encodable a = true → Py.encodable b = true → Py.encodable (a ++ b) = true.
Proof. rewrite !encodable_Forall. apply Forall_app_2. Qed.

Lemma encodable_strip s : Py.encodable s = true → Py.encodable (Py.strip s) = true.
Proof. rewrite !encodable_Forall. apply PyFacts.Forall_strip. Qed.

Lemma get_user_key_encodable user_id session_id :
  Py.encodable user_id = true → Py.encodable (default [] session_id) = true →
  Py.encodable (_get_user_key user_id session_id) = true.
Proof.
  intros Hu Hs. destruct session_id as [[|c sid]|]; simpl; try done.
  apply (encodable_app (c :: sid)); [done|]. by apply (encodable_app (Py.lit "_")).
Qed.

Lemma dict_set_encodable k v p :
  Py.encodable k = true → Py.encodable v = true →
  encodable_profile p → encodable_profile (Dict.set k v p).
Proof.
  intros Hk Hv. unfold encodable_profile.
  induction 1 as [|[k' v'] p Hkv Hp IH]; simpl; [by repeat constructor|].
  destruct (decide (k = k')); constructor; done.
Qed.

Lemma dict_del_encodable k p :
  encodable_profile p → encodable_profile (Dict.del k p).
Proof.
  unfold encodable_profile.
  induction 1 as [|[k' v'] p Hkv Hp IH]; simpl; [constructor|].
  destruct (decide (k = k')); [done|by constructor].
Qed.

Lemma dict_get_encodable k v p :
  encodable_profile p → Dict.get k p = Some v → Py.encodable v = true.
Proof.
  unfold encodable_profile.
  induction 1 as [|[k' v'] p [_ Hv] Hp IH]; simpl; [done|].
  destruct (decide (k = k')); [by intros [= <-]|done].
Qed.

Lemma notes_encodable p :
  encodable_profile p → Py.encodable (default [] (Dict.get NOTES p)) = true.
Proof.
  intros Hp. destruct (Dict.get NOTES p) as [v|] eqn:Hv; [|done].
  by eapply dict_get_encodable.
Qed.

Lemma put_notes_encodable notes p :
  encodable_profile p →
  notes `sublist_of` split_notes (default [] (Dict.get NOTES p)) →
  encodable_profile (put_notes notes p).
Proof.
  intros Hp Hsub. destruct notes as [|e l]; unfold put_notes.
  { by apply dict_del_encodable. }
  apply dict_set_encodable; [done| |done].
  apply encodable_Forall, (Chars.Forall_join _ NOTE_SEP); [by repeat constructor|].
  apply Forall_forall. intros x Hx.
  apply (proj1 (Forall_forall _ _)
           (Chars.Forall_split_notes _ _ (proj1 (encodable_Forall _) (notes_encodable p Hp)))).
  by eapply sublist_subseteq.
Qed.

Lemma commit_dumpable now m ud key p :
  Py.encodable key = true → Py.encodable (now (clock m)) = true →
  encodable_profile p → dumpable ud → dumpable (user_data (commit now m ud key p)).
Proof.
  intros Hk Hn Hp Hud. simpl. apply map_Forall_insert_2; [|done].
  split; [done|]. by apply dict_set_encodable.
Qed.

(** ** Runs of operations *)

Section Runs.
Variable allowed_fields : list str.
Variable max_notes_count : Z.
Variable now : nat → str.

Lemma commit_effect m ud key p :
  let m' := commit now m ud key p in
  user_data m' !! key = Some (Dict.set LAST_UPDATED (now (clock m)) p) ∧
  clock m' = S (clock m) ∧ saved m' = user_data m' :: saved m ∧
  (∀ key', key' ≠ key → user_data m' !! key' = ud !! key').
Proof.
  intros m'. repeat split; [apply commit_lookup|].
  intros key' Hne. by apply commit_lookup_ne.
Qed.

(** What one operation does: nothing at all, or a change to the profile
    of its key only, followed by a save of the whole store; unless it
    clears the profile, it stamps the profile with the time read from the
    clock, and the profile gains no field outside the allow-list. *)
Lemma run_cases m o :
  let m' := run allowed_fields max_notes_count now m o in
  let key := op_key o in
  m' = m ∨
  ((∀ key', key' ≠ key → user_data m' !! key' = user_data m !! key') ∧
   saved m' = user_data m' :: saved m ∧
   ((user_data m' !! key = None ∧ clock m' = clock m) ∨
    ∃ p', user_data m' !! key = Some (Dict.set LAST_UPDATED (now (clock m)) p') ∧
          clock m' = S (clock m) ∧
          ∀ f, is_Some (Dict.get f p') →
               f ∈ allowed_fields ∨
               is_Some (Dict.get f (default [] (user_data m !! key))))).
Proof.
  destruct o as [user_id field value session_id|user_id field session_id
                |user_id session_id]; simpl.
  - unfold update_field.
    destruct (decide (field ∈ allowed_fields)) as [Hin|Hout];
      [|left; by rewrite (bool_decide_eq_false_2 _ Hout)].
    rewrite (bool_decide_eq_true_2 _ Hin). simpl negb. cbv iota. simpl fst.
    right.
    set (key := _get_user_key user_id session_id).
    set (ud := match user_data m !! key with
               | Some _ => user_data m | None => <[key:=[]]> (user_data m) end).
    assert (default [] (ud !! key) = default [] (user_data m !! key)) as Hp.
    { unfold ud. destruct (user_data m !! key) as [p|] eqn:E; simpl.
      - by rewrite E.
      - by rewrite lookup_insert_eq. }
    destruct (commit_effect m ud key
                (Dict.set field
                   (if decide (field = NOTES)
                    then merge_notes max_notes_count
                           (default [] (Dict.get NOTES (default [] (ud !! key))))
                           (Py.strip value)
                    else Py.strip value) (default [] (ud !! key))))
      as (H1 & H2 & H3 & H4).
    split; [|split; [exact H3|]].
    + intros key' Hne. rewrite H4 by done. unfold ud.
      destruct (user_data m !! key); [done|by rewrite lookup_insert_ne].
    + right. eexists. split; [exact H1|]. split; [exact H2|].
      intros f Hf. apply dict_get_set_inv in Hf as [->|Hf]; [by left|].
      right. by rewrite <- Hp.
  - destruct (delete_field_final now m user_id field session_id)
      as [->|(p & p' & Hp & -> & Hp')]; [by left|].
    right.
    destruct (commit_effect m (user_data m) (_get_user_key user_id session_id) p')
      as (H1 & H2 & H3 & H4).
    split; [exact H4|]. split; [exact H3|]. right.
    exists p'. split; [exact H1|]. split; [exact H2|].
    intros f Hf. right. rewrite Hp. simpl.
    destruct Hp' as [->|(l & -> & Hl)].
    + by apply dict_get_del_inv in Hf as [_ ?].
    + by eapply put_notes_keys.
  - unfold clear_profile.
    destruct (user_data m !! _get_user_key user_id session_id) eqn:Hp; [|by left].
    right. simpl.
    split; [|split; [done|]].
    + intros key' Hne. by rewrite lookup_delete_ne.
    + left. by rewrite lookup_delete_eq.
Qed.

Lemma on_disk_saved m ud rest :
  saved m = ud :: rest →
  on_disk m = if bool_decide (dumpable ud) then Document ud else Truncated.
Proof. unfold on_disk. by intros ->. Qed.

(** An operation whose strings hold no surrogate keeps the store
    dumpable. *)
Lemma run_dumpable m o :
  (∀ t, Py.encodable (now t) = true) → op_encodable o →
  dumpable (user_data m) →
  dumpable (user_data (run allowed_fields max_notes_count now m o)).
Proof.
  intros Hnow Ho Hm.
  destruct o as [user_id field value session_id|user_id field session_id
                |user_id session_id]; simpl.
  - destruct Ho as (Hu & Hf & Hv & Hs). unfold update_field.
    destruct (negb _); [done|]. simpl fst.
    set (key := _get_user_key user_id session_id).
    assert (Py.encodable key = true) as Hkey by by apply get_user_key_encodable.
    set (ud := match user_data m !! key with
               | Some _ => user_data m | None => <[key:=[]]> (user_data m) end).
    assert (dumpable ud) as Hud.
    { unfold ud. destruct (user_data m !! key); [done|].
      apply map_Forall_insert_2; [|done]. split; [done|constructor]. }
    assert (encodable_profile (default [] (ud !! key))) as Hp.
    { destruct (ud !! key) as [p|] eqn:E; [|constructor]. by apply (Hud key p E). }
    apply commit_dumpable; [done|done| |done].
    apply dict_set_encodable; [done| |done].
    destruct (decide (field = NOTES)); [|by apply encodable_strip].
    apply encodable_Forall, Chars.Forall_merge_notes; [done| |].
    + by apply encodable_Forall, notes_encodable.
    + by apply encodable_Forall, encodable_strip.
  - destruct (delete_field_final now m user_id field session_id)
      as [->|(p & p' & Hp & -> & Hp')]; [done|].
    destruct (Hm _ _ Hp) as [Hkey Hprof].
    apply commit_dumpable; [done|done| |done].
    destruct Hp' as [->|(l & -> & Hl)];
      [by apply dict_del_encodable|by apply put_notes_encodable].
  - unfold clear_profile.
    destruct (user_data m !! _get_user_key user_id session_id); [|done].
    simpl. by apply map_Forall_delete.
Qed.

(** X5: an operation never changes the profile of a key other than its
    own.  It changes nothing at all and leaves the file alone, or it
    rewrites the file: the file then holds the whole store as it is after
    the call when that store has no surrogate, and an incomplete document
    otherwise. *)
Theorem run_frame m o :
  let m' := run allowed_fields max_notes_count now m o in
  (∀ key', key' ≠ op_key o → user_data m' !! key' = user_data m !! key') ∧
  (m' = m ∨
   on_disk m' = if bool_decide (dumpable (user_data m'))
                then Document (user_data m') else Truncated).
Proof.
  intros m'. destruct (run_cases m o) as [Heq|(Hother & Hsaved & _)].
  - fold m' in Heq. rewrite Heq. split; [done|by left].
  - split; [exact Hother|]. right. by apply (on_disk_saved _ _ (saved m)).
Qed.

Lemma run_all_invariant (P : manager → Prop) m ops :
  P m → (∀ m o, P m → P (run allowed_fields max_notes_count now m o)) →
  P (run_all allowed_fields max_notes_count now m ops).
Proof.
  intros Hm Hstep. revert m Hm. unfold run_all.
  induction ops as [|o ops IH]; intros m Hm; simpl; [done|]. by apply IH, Hstep.
Qed.

(** X6: in every store reached from the empty one, every field of every
    profile is a field of the allow-list or the bookkeeping key. *)
Theorem run_all_fields ops key p field :
  user_data (run_all allowed_fields max_notes_count now fresh ops) !! key = Some p →
  is_Some (Dict.get field p) →
  field ∈ allowed_fields ∨ field = LAST_UPDATED.
Proof.
  revert key p field.
  apply (run_all_invariant (λ m, ∀ key p field,
           user_data m !! key = Some p → is_Some (Dict.get field p) →
           field ∈ allowed_fields ∨ field = LAST_UPDATED)).
  { intros key p field. unfold fresh. simpl. by rewrite lookup_empty. }
  intros m o IH key p field Hp Hf.
  destruct (run_cases m o) as [Heq|(Hother & _ & Hk)].
  { rewrite Heq in Hp. by eapply IH. }
  set (k := op_key o) in *.
  destruct (decide (key = k)) as [->|Hne]; [|rewrite Hother in Hp by done; by eapply IH].
  destruct Hk as [[Hnone _]|(p' & Hsome & _ & Hkeys)]; [congruence|].
  rewrite Hsome in Hp. injection Hp as <-.
  apply dict_get_set_inv in Hf as [->|Hf]; [by right|].
  destruct (Hkeys field Hf) as [?|Hold]; [by left|].
  destruct (user_data m !! k) as [p0|] eqn:Hp0; [by eapply IH|].
  simpl in Hold. by destruct Hold.
Qed.

(** X7: in every store reached from the empty one, every profile carries
    the bookkeeping key, and its value is a time read from the clock: a
    profile is never empty, also when all its fields have been deleted. *)
Theorem run_all_stamped ops key p :
  let m := run_all allowed_fields max_notes_count now fresh ops in
  user_data m !! key = Some p →
  ∃ t, t < clock m ∧ Dict.get LAST_UPDATED p = Some (now t).
Proof.
  intros m. unfold m. revert key p.
  apply (run_all_invariant (λ m, ∀ key p, user_data m !! key = Some p →
           ∃ t, t < clock m ∧ Dict.get LAST_UPDATED p = Some (now t))).
  { intros key p. unfold fresh. simpl. by rewrite lookup_empty. }
  intros m0 o IH key p Hp.
  destruct (run_cases m0 o) as [Heq|(Hother & _ & Hk)].
  { rewrite Heq in *. by eapply IH. }
  set (k := op_key o) in *.
  assert (clock m0 ≤ clock (run allowed_fields max_notes_count now m0 o)) as Hclock.
  { destruct Hk as [[_ ->]|(p' & _ & -> & _)]; lia. }
  destruct (decide (key = k)) as [->|Hne].
  - destruct Hk as [[Hnone _]|(p' & Hsome & Hc & _)]; [congruence|].
    rewrite Hsome in Hp. injection Hp as <-.
    exists (clock m0). split; [lia|]. apply DictFacts.get_set_eq.
  - rewrite Hother in Hp by done. destruct (IH key p Hp) as (t & Ht & Hget).
    exists t. split; [lia|done].
Qed.

Lemma run_all_dumpable m ops :
  (∀ t, Py.encodable (now t) = true) → Forall op_encodable ops →
  dumpable (user_data m) →
  dumpable (user_data (run_all allowed_fields max_notes_count now m ops)).
Proof.
  intros Hnow Hops. revert m. unfold run_all.
  induction Hops as [|o ops Ho _ IH]; intros m Hm; simpl; [done|].
  by apply IH, run_dumpable.
Qed.

(** X8: in every state reached from the new installation, either nothing
    has happened yet and the file has not been touched, or the file was
    last rewritten for the store that is in memory now: it holds exactly
    that store when the store has no surrogate, and an incomplete document
    otherwise.  When neither the clock nor the strings of the updates hold
    a surrogate, the store has none. *)
Theorem run_all_saved ops :
  let m := run_all allowed_fields max_notes_count now fresh ops in
  (m = fresh ∧ on_disk m = Untouched ∨
   on_disk m = if bool_decide (dumpable (user_data m))
               then Document (user_data m) else Truncated) ∧
  ((∀ t, Py.encodable (now t) = true) → Forall op_encodable ops →
   dumpable (user_data m)).
Proof.
  intros m. split.
  - subst m.
    pose (inv := λ st : manager,
            st = fresh ∧ on_disk st = Untouched ∨
            on_disk st = if bool_decide (dumpable (user_data st))
                         then Document (user_data st) else Truncated).
    apply (run_all_invariant inv); [by left|]. unfold inv.
    intros m0 o IH.
    destruct (run_cases m0 o) as [->|(_ & Hsaved & _)]; [done|].
    right. by apply (on_disk_saved _ _ (saved m0)).
  - intros Hnow Hops. apply run_all_dumpable; [done|done|].
    apply map_Forall_empty.
Qed.

(** X9: in every store reached from the empty one by updates, deletes and
    clears, a stored notes value is a ；-joined list of entries that are
    not empty, have at most 20 characters, no leading white space and no
    separator inside, and, when [max_notes_count] is positive, number at
    most [max_notes_count]. *)
Theorem run_all_notes_bounded ops key v :
  notes_value (run_all allowed_fields max_notes_count now fresh ops) key = Some v →
  notes_bounded max_notes_count v.
Proof.
  revert key v.
  apply (run_all_invariant (λ m, ∀ key v, notes_value m key = Some v →
                                  notes_bounded max_notes_count v)).
  { intros key v. unfold notes_value, fresh. simpl. by rewrite lookup_empty. }
  intros m o IH key v.
  destruct o as [user_id field value session_id|user_id field session_id
                |user_id session_id]; simpl.
  - destruct (decide (_get_user_key user_id session_id = key)) as [<-|Hne].
    + destruct (decide (field = NOTES)) as [->|Hf].
      * destruct (decide (NOTES ∈ allowed_fields)) as [Hin|Hout].
        -- rewrite update_field_notes by done. intros [= <-].
           apply merge_notes_bounded. intros Hex.
           destruct (notes_value m _) as [v0|] eqn:Hv0; [by eapply IH|done].
        -- unfold update_field. rewrite (bool_decide_eq_false_2 _ Hout).
           apply IH.
      * rewrite update_field_other_notes by done. apply IH.
    + unfold notes_value. rewrite update_field_lookup_ne by done. apply IH.
  - destruct (delete_field_final now m user_id field session_id)
      as [->|(p & p' & Hp & -> & Hp')]; [apply IH|].
    destruct (decide (_get_user_key user_id session_id = key)) as [<-|Hne].
    + rewrite commit_notes.
      assert (∀ v0, Dict.get NOTES p = Some v0 → notes_bounded max_notes_count v0)
        as IHp.
      { intros v0 Hv0. apply (IH (_get_user_key user_id session_id)).
        unfold notes_value. by rewrite Hp. }
      destruct Hp' as [->|(l & -> & Hl)].
      * destruct (decide (field = NOTES)) as [->|Hf].
        -- by rewrite DictFacts.get_del_eq.
        -- rewrite DictFacts.get_del_ne by done. apply IHp.
      * rewrite put_notes_get. destruct l as [|e l']; [done|]. intros [= <-].
        destruct (Dict.get NOTES p) as [v0|] eqn:Hv0;
          [|by apply sublist_nil_r in Hl].
        destruct (split_notes_bounded max_notes_count v0 (IHp v0 eq_refl))
          as [Hok Hlen].
        exists (e :: l'). split; [done|]. split.
        -- apply Forall_forall. intros x Hx.
           apply (proj1 (Forall_forall _ _) Hok).
           by eapply sublist_subseteq.
        -- intros Hmax. apply sublist_length in Hl.
           specialize (Hlen Hmax). simpl in *. lia.
    + unfold notes_value. rewrite commit_lookup_ne by done. apply IH.
  - unfold clear_profile, notes_value.
    destruct (user_data m !! _get_user_key user_id session_id) eqn:Hp;
      [|apply IH]. simpl.
    destruct (decide (_get_user_key user_id session_id = key)) as [<-|Hne].
    + by rewrite lookup_delete_eq.
    + rewrite lookup_delete_ne by done. apply IH.
Qed.

End Runs.

(** ** More on deletes *)

Lemma contains_empty s : Py.contains [] s = true.
Proof. by destruct s. Qed.

Section DeleteMore.
Variable now : nat → str.


(** X11: a numeric target that names no field and is a valid 1-based
    index removes exactly the note at that position; the other notes keep
    their order and no other field but the time stamp changes. *)
Theorem delete_field_by_index m user_id t session_id p n :
  let key := _get_user_key user_id session_id in
  user_data m !! key = Some p → Dict.get t p = None →
  Py.isdigit t = true → Py.int t = Some n →
  (1 ≤ n ≤ Z.of_nat (length (notes_of m key)))%Z →
  ∃ m' msg,
    delete_field now m user_id t session_id = Ret m' (true, msg) ∧
    notes_of m' key = delete (Z.to_nat (n - 1)) (notes_of m key) ∧
    ∀ f, f ≠ NOTES → f ≠ LAST_UPDATED →
         user_data m' !! key ≫= Dict.get f = Dict.get f p.
Proof.
  intros key Hp Ht Hd Hn Hr. unfold notes_of, notes_value in *.
  rewrite Hp in *. simpl in *.
  destruct (Dict.get NOTES p) as [v|] eqn:Hv; [|simpl in Hr; lia]. simpl in *.
  destruct (delete_field_index now m user_id session_id t p v n) as [msg ->];
    try done.
  destruct (commit_put_notes now m key p (delete (Z.to_nat (n - 1)) (split_notes v)))
    as (H1 & _ & _ & H4); [apply Forall_delete, split_notes_clean|].
  do 2 eexists. split; [done|]. split; [exact H1|exact H4].
Qed.

(** X12: a non-numeric target that names no field and occurs in at least
    one note removes exactly the notes it occurs in; the others keep their
    order and no other field but the time stamp changes. *)
Theorem delete_field_by_substring m user_id t session_id p :
  let key := _get_user_key user_id session_id in
  user_data m !! key = Some p → Dict.get t p = None → Py.isdigit t = false →
  (∃ e, e ∈ notes_of m key ∧ Py.contains t e = true) →
  ∃ m' msg,
    delete_field now m user_id t session_id = Ret m' (true, msg) ∧
    notes_of m' key = filter (λ e, Py.contains t e = false) (notes_of m key) ∧
    ∀ f, f ≠ NOTES → f ≠ LAST_UPDATED →
         user_data m' !! key ≫= Dict.get f = Dict.get f p.
Proof.
  intros key Hp Ht Hd (e & He & Hc). unfold notes_of, notes_value in *.
  rewrite Hp in *. simpl in *.
  destruct (Dict.get NOTES p) as [v|] eqn:Hv; [|by apply elem_of_nil in He].
  simpl in *.
  destruct (delete_field_substring now m user_id session_id t p v) as [msg ->];
    try done.
  { apply (length_filter_lt _ _ e); [done|congruence]. }
  destruct (commit_put_notes now m key p
              (filter (λ e, Py.contains t e = false) (split_notes v)))
    as (H1 & _ & _ & H4).
  { apply Forall_forall. intros x [_ Hx]%list_elem_of_filter.
    by apply (proj1 (Forall_forall _ _) (split_notes_clean v)). }
  do 2 eexists. split; [done|]. split; [exact H1|exact H4].
Qed.

(** X13: the empty string occurs in every note: an empty target, on a
    profile that has notes and no field with the empty name, deletes all
    notes and the notes field with them. *)
Theorem delete_field_empty_target m user_id session_id p :
  let key := _get_user_key user_id session_id in
  user_data m !! key = Some p → Dict.get [] p = None → notes_of m key ≠ [] →
  ∃ m' msg,
    delete_field now m user_id [] session_id = Ret m' (true, msg) ∧
    notes_value m' key = None.
Proof.
  intros key Hp Ht Hne. unfold notes_of, notes_value in *.
  rewrite Hp in *. simpl in *.
  destruct (Dict.get NOTES p) as [v|] eqn:Hv; [|done]. simpl in *.
  assert (filter (λ e, Py.contains [] e = false) (split_notes v) = []) as Hkept.
  { clear. induction (split_notes v) as [|x l IH]; [done|].
    rewrite filter_cons_False; [done|]. by rewrite contains_empty. }
  destruct (delete_field_substring now m user_id session_id [] p v) as [msg Hstep];
    try done.
  { rewrite Hkept. destruct (split_notes v); [done|simpl; lia]. }
  rewrite Hkept in Hstep. eexists _, msg. split; [exact Hstep|].
  rewrite commit_lookup. simpl. rewrite DictFacts.get_set_ne by done.
  apply DictFacts.get_del_eq.
Qed.


(** X15: a delete raises exactly when the profile exists and has notes
    and the target names no field, passes [isdigit] and is rejected by
    [int]. *)
Theorem delete_field_raises_iff m user_id t session_id :
  (∃ m' e, delete_field now m user_id t session_id = Raise m' e) ↔
  ∃ p, user_data m !! _get_user_key user_id session_id = Some p ∧
       Dict.get t p = None ∧ is_Some (Dict.get NOTES p) ∧
       Py.isdigit t = true ∧ Py.int t = None.
Proof.
  unfold delete_field.
  destruct (user_data m !! _) as [p|] eqn:Hp.
  2:{ split; [by intros (? & ? & ?)|by intros (? & ? & _)]. }
  destruct (Dict.mem t p) eqn:Ht.
  { split; [by intros (? & ? & ?)|]. intros (p' & [= <-] & Hn & _).
    apply DictFacts.mem_false in Hn. congruence. }
  destruct (Dict.mem NOTES p) eqn:Hnotes; simpl.
  - destruct (Py.isdigit t) eqn:Hd.
    + destruct (Py.int t) as [n|] eqn:Hn.
      * split; [destruct (bool_decide _); by intros (? & ? & ?)|].
        by intros (? & _ & _ & _ & _ & ?).
      * split; [|eauto]. intros _. exists p.
        split; [done|]. split; [by apply DictFacts.mem_false|].
        split; [by apply DictFacts.mem_true|done].
    + split; [destruct (bool_decide _); by intros (? & ? & ?)|].
      by intros (? & _ & _ & _ & ? & _).
  - split; [destruct (Py.isdigit t); by intros (? & ? & ?)|].
    intros (p' & [= <-] & _ & Hs & _). apply DictFacts.mem_true in Hs. congruence.
Qed.

End DeleteMore.

(** ** More on the order of deletes *)

Module OrderMore.

Lemma insert_desc_perm x l : insert_desc x l ≡ₚ x :: l.
Proof.
  induction l as [|y l IH]; simpl; [done|].
  destruct (y.1 <=? x.1)%Z; [done|]. rewrite IH. apply Permutation_swap.
Qed.

Lemma sort_desc_perm l : sort_desc l ≡ₚ l.
Proof.
  induction l as [|x l IH]; simpl; [done|]. by rewrite insert_desc_perm, IH.
Qed.

(** Inserting keeps the order among the entries of each key. *)
Lemma insert_desc_stable k x l :
  StronglySorted (λ a b : Z * list N, (b.1 ≤ a.1)%Z) l →
  filter (λ y : Z * list N, y.1 = k) (insert_desc x l)
  = filter (λ y : Z * list N, y.1 = k) (x :: l).
Proof.
  induction 1 as [|y l Hl IH Hy]; simpl; [done|].
  destruct (Z.leb_spec y.1 x.1) as [Hle|Hlt]; [done|].
  rewrite (filter_cons _ y), IH, !(filter_cons _ x), (filter_cons _ y).
  destruct (decide (x.1 = k)) as [Hx|Hx]; [|done].
  destruct (decide (y.1 = k)) as [Hy'|Hy']; [lia|done].
Qed.

Lemma sort_desc_stable k l :
  filter (λ y : Z * list N, y.1 = k) (sort_desc l)
  = filter (λ y : Z * list N, y.1 = k) l.
Proof.
  induction l as [|x l IH]; simpl; [done|].
  rewrite insert_desc_stable by apply Order.sort_desc_sorted.
  by rewrite !(filter_cons _ x), IH.
Qed.

Lemma keyed_targets l keyed :
  mapM (λ f, (λ k, (k, f)) <$> Py.int f) l = Some keyed →
  keyed.*2 = l ∧ Forall (λ kf, Py.int kf.2 = Some kf.1) keyed.
Proof.
  intros H. apply mapM_Some_1 in H.
  induction H as [|f kf l keyed Hf H [IH1 IH2]]; [done|].
  apply fmap_Some in Hf as (k & Hk & ->).
  split; [rewrite fmap_cons; simpl; by f_equal|by constructor].
Qed.

Lemma filter_by_key k (s : list (Z * list N)) :
  Forall (λ kf, Py.int kf.2 = Some kf.1) s →
  filter (λ d, Py.int d = Some k) (s.*2) = (filter (λ y : Z * list N, y.1 = k) s).*2.
Proof.
  induction 1 as [|kf s Hkf Hs IH]; [done|].
  rewrite fmap_cons, !filter_cons, IH.
  destruct (decide (Py.int kf.2 = Some k)) as [H|H];
    destruct (decide (kf.1 = k)) as [H'|H']; try done; congruence.
Qed.

End OrderMore.

(** X16: when it returns, [sorted(digit_fields, key=int, reverse=True)] is
    a rearrangement of its input, in descending order of value, and targets
    of equal value (such as 2 and 02) keep the order they were written
    in. *)
Theorem sorted_by_int_desc_stable l digits :
  sorted_by_int_desc l = Some digits →
  digits ≡ₚ l ∧
  (∃ keys, Forall2 (λ d k, Py.int d = Some k) digits keys ∧
           StronglySorted (λ a b : Z, (b ≤ a)%Z) keys) ∧
  ∀ k, filter (λ d, Py.int d = Some k) digits = filter (λ d, Py.int d = Some k) l.
Proof.
  intros H. split; [|split].
  - unfold sorted_by_int_desc in H.
    apply bind_Some in H as (keyed & Hk & [= <-]).
    destruct (OrderMore.keyed_targets _ _ Hk) as [<- _].
    apply fmap_Permutation, OrderMore.sort_desc_perm.
  - by destruct (Order.sorted_by_int_desc_spec _ _ H) as [_ ?].
  - intros k. unfold sorted_by_int_desc in H.
    apply bind_Some in H as (keyed & Hk & [= <-]).
    destruct (OrderMore.keyed_targets _ _ Hk) as [<- Hall].
    rewrite !OrderMore.filter_by_key; [by rewrite OrderMore.sort_desc_stable|done|].
    apply Forall_forall. intros kf Hkf.
    apply (proj1 (Forall_forall _ _) Hall). by apply Order.elem_of_sort_desc.
Qed.

Lemma sorted_by_int_desc_raises_iff_aux l :
  sorted_by_int_desc l = None ↔ ∃ f, f ∈ l ∧ Py.int f = None.
Proof.
  unfold sorted_by_int_desc.
  destruct (mapM _ l) as [keyed|] eqn:Hk; simpl.
  - split; [done|]. intros (f & Hf & Hn).
    apply mapM_Some_1 in Hk. exfalso. clear -Hk Hf Hn.
    induction Hk as [|x kf l keyed Hx Hk IH]; [by apply elem_of_nil in Hf|].
    apply elem_of_cons in Hf as [->|Hf]; [|by apply IH].
    by rewrite Hn in Hx.
  - split; [|done]. intros _.
    induction l as [|f l IH]; [done|]. simpl in Hk.
    destruct (Py.int f) as [k|] eqn:Hf; [|exists f; split; [by left|done]].
    simpl in Hk. destruct (mapM _ l); [done|].
    destruct IH as (f' & Hf' & Hn); [done|]. exists f'. split; [by right|done].
Qed.

(** X17: the sort raises exactly when [int] rejects one of the targets,
    whatever the other targets are. *)
Theorem sorted_by_int_desc_raises_iff l :
  (sorted_by_int_desc l = None ↔ ∃ f, f ∈ l ∧ Py.int f = None) ∧
  (is_Some (sorted_by_int_desc l) ↔ Forall (λ f, is_Some (Py.int f)) l).
Proof.
  split; [apply sorted_by_int_desc_raises_iff_aux|].
  rewrite <- not_eq_None_Some, sorted_by_int_desc_raises_iff_aux, Forall_forall.
  split.
  - intros Hno f Hf. destruct (Py.int f) eqn:E; [done|]. destruct Hno; eauto.
  - intros Hall (f & Hf & Hn). specialize (Hall f Hf). rewrite Hn in Hall.
    by destruct Hall.
Qed.

Lemma filter_digits_perm (l : list (list N)) :
  filter (λ f, Py.isdigit f = false) l ++ filter (λ f, Py.isdigit f = true) l ≡ₚ l.
Proof.
  induction l as [|f l IH]; [done|]. rewrite !filter_cons.
  destruct (Py.isdigit f) eqn:Hd.
  - rewrite decide_False, decide_True by done.
    by rewrite <- Permutation_middle, IH.
  - rewrite decide_True, decide_False by done. simpl. by rewrite IH.
Qed.

(** X18: when the sort does not raise, the order of deletion is a
    rearrangement of the targets: each target of the block is deleted
    exactly once. *)
Theorem delete_order_perm fields order :
  delete_order fields = Some order → order ≡ₚ fields.
Proof.
  unfold delete_order. intros H.
  apply bind_Some in H as (digits & Hd & [= <-]).
  unfold sorted_by_int_desc in Hd.
  apply bind_Some in Hd as (keyed & Hk & [= <-]).
  destruct (OrderMore.keyed_targets _ _ Hk) as [Hl _].
  rewrite (fmap_Permutation _ _ _ (OrderMore.sort_desc_perm keyed)), Hl.
  apply filter_digits_perm.
Qed.

Section BlockRaises.
Variable now : nat → str.

Lemma delete_field_safe m user_id session_id t :
  Py.isdigit t = false ∨ is_Some (Py.int t) →
  ∃ m' r, delete_field now m user_id t session_id = Ret m' r.
Proof.
  intros [Hd|[n Hn]]; [by apply delete_field_other_returns|].
  unfold delete_field. rewrite Hn.
  destruct (user_data m !! _) as [p|]; [|eauto].
  destruct (Dict.mem t p); [eauto|].
  destruct (Dict.mem NOTES p); simpl.
  - destruct (Py.isdigit t); destruct (bool_decide _); eauto.
  - destruct (Py.isdigit t); eauto.
Qed.

Lemma delete_each_safe m user_id session_id targets :
  Forall (λ t, Py.isdigit t = false ∨ is_Some (Py.int t)) targets →
  ∃ m1, delete_each now m user_id session_id targets = Ret m1 tt.
Proof.
  intros H. revert m. induction H as [|t ts Ht Hts IH]; intros m; simpl; [eauto|].
  destruct (delete_field_safe m user_id session_id t Ht) as (m' & r & ->).
  apply IH.
Qed.

Lemma on_llm_resp_delete_cases m user_id session_id body :
  match on_llm_resp_delete now m user_id session_id body with
  | Raise m' _ => m' = m ∧ bad_target body
  | Ret _ _ => ¬ bad_target body
  end.
Proof.
  unfold on_llm_resp_delete, delete_order, bad_target.
  destruct (sorted_by_int_desc _) as [digits|] eqn:Hs; simpl.
  - destruct (Order.sorted_by_int_desc_spec _ _ Hs) as (Hin & keys & Hk & _).
    destruct (delete_each_safe m user_id session_id
                (filter (λ f, Py.isdigit f = false) (split_targets body) ++ digits))
      as [m1 ->].
    { apply Forall_app. split.
      - apply Forall_forall. intros t [? _]%list_elem_of_filter. by left.
      - clear -Hk. induction Hk; constructor; eauto. }
    intros (t & Ht & Hd & Hn).
    assert (sorted_by_int_desc (filter (λ f, Py.isdigit f = true) (split_targets body))
            = None) as Hnone; [|congruence].
    apply sorted_by_int_desc_raises_iff_aux. exists t.
    split; [by apply list_elem_of_filter|done].
  - split; [done|].
    apply sorted_by_int_desc_raises_iff_aux in Hs as (t & Ht & Hn).
    apply list_elem_of_filter in Ht as [Hd Ht]. by exists t.
Qed.


End BlockRaises.



Section BlockOrderSpec.
Variable now : nat → str.


End BlockOrderSpec.

(** ** Targets, note lists and keys *)

(** X20: the targets of a delete block are never empty, carry no white
    space at either end and hold none of the separators. *)
Theorem split_targets_clean body :
  Forall (λ t, t ≠ [] ∧ Py.strip t = t ∧ Forall (λ c, is_target_sep c = false) t)
         (split_targets body).
Proof.
  unfold split_targets. apply Forall_fmap, Forall_forall. intros n Hn.
  apply list_elem_of_filter in Hn as [Hne Hin]. split; [done|]. split.
  - apply PyFacts.strip_idem.
  - apply PyFacts.Forall_strip.
    by eapply (proj1 (Forall_forall _ _) (PyFacts.re_split_pieces is_target_sep body)).
Qed.

(** X21: reading a notes value gives entries that are not empty, trimmed
    and free of separators, and such a list survives being written with
    ； between the entries and read again. *)
Theorem split_notes_round_trip v entries :
  Forall clean_note (split_notes v) ∧
  split_notes (Py.join NOTE_SEP (split_notes v)) = split_notes v ∧
  (Forall clean_note entries → split_notes (Py.join NOTE_SEP entries) = entries).
Proof.
  split; [apply split_notes_clean|]. split; [|apply split_notes_join].
  apply split_notes_join, split_notes_clean.
Qed.

Lemma app_sep_inj (a b x y : list N) (c : N) :
  c ∉ a → c ∉ b → a ++ c :: x = b ++ c :: y → a = b ∧ x = y.
Proof.
  revert b. induction a as [|h a IH]; intros [|h' b] Ha Hb H; simpl in *.
  - by injection H.
  - injection H as <- _. exfalso. apply Hb. by left.
  - injection H as -> _. exfalso. apply Ha. by left.
  - injection H as <- H. destruct (IH b) as [-> ->]; try done.
    + intros ?. apply Ha. by right.
    + intros ?. apply Hb. by right.
Qed.

(** X22: session-scoped keys tell users and sessions apart as long as the
    session ids hold no underscore; with an underscore in a session id two
    different pairs can share one key. *)
Theorem get_user_key_injective :
  (∀ u1 u2 s1 s2,
     s1 ≠ [] → s2 ≠ [] → 0x5F%N ∉ s1 → 0x5F%N ∉ s2 →
     _get_user_key u1 (Some s1) = _get_user_key u2 (Some s2) →
     s1 = s2 ∧ u1 = u2) ∧
  (∀ a b c,
     a ≠ [] →
     _get_user_key c (Some (a ++ Py.lit "_" ++ b))
     = _get_user_key (b ++ Py.lit "_" ++ c) (Some a)).
Proof.
  split.
  - intros u1 u2 [|c1 s1] [|c2 s2] H1 H2 Hn1 Hn2 H; try done.
    simpl in H. by apply (app_sep_inj (c1 :: s1) (c2 :: s2) u1 u2 0x5F%N).
  - intros [|x a] b c Ha; [done|]. simpl. f_equal. by rewrite <- !app_assoc.
Qed.

(** ** More on the sanitizer *)

Module SanitizerMore.
Import Py.

Lemma block_sub_sublist n t : length t ≤ n → block_sub t `sublist_of` t.
Proof.
  revert t. induction n as [|n IH]; intros t Hn.
  { destruct t; [done|simpl in Hn; lia]. }
  rewrite Sanitizer.block_sub_eq. destruct (match_block t) as [rest|] eqn:E.
  - apply Sanitizer.match_block_shorter in E as [[k ->] Hlen].
    apply sublist_inserts_l, IH. lia.
  - destruct t as [|c t]; [done|]. apply sublist_skip, IH. simpl in Hn. lia.
Qed.

Lemma strip_sublist s : strip s `sublist_of` s.
Proof.
  unfold strip. destruct (PyFacts.rstrip_prefix (lstrip s)) as [w Hw].
  destruct (PyFacts.lstrip_suffix s) as [k Hk].
  rewrite Hk at 2. apply sublist_inserts_l. rewrite Hw at 2.
  by apply sublist_inserts_r.
Qed.

Lemma strip_blocks_sublist_aux t : strip_blocks t `sublist_of` t.
Proof.
  unfold strip_blocks. etrans; [apply strip_sublist|].
  by apply (block_sub_sublist (length t)).
Qed.

Lemma sublist_same_length {A} (l1 l2 : list A) :
  l1 `sublist_of` l2 → length l2 ≤ length l1 → l1 = l2.
Proof.
  induction 1 as [|x l1 l2 H IH|x l1 l2 H IH]; simpl; intros Hlen; [done| |].
  - f_equal. apply IH. lia.
  - apply sublist_length in H. lia.
Qed.

Lemma strip_blocks_shrinks t :
  strip_blocks t = t ∨ length (strip_blocks t) < length t.
Proof.
  destruct (decide (length t ≤ length (strip_blocks t))) as [H|H]; [|right; lia].
  left. by apply sublist_same_length; [apply strip_blocks_sublist_aux|].
Qed.

Lemma iter_fixpoint n t :
  strip_blocks t = t → Nat.iter n strip_blocks t = t.
Proof. intros H. induction n as [|n IH]; simpl; [done|]. by rewrite IH. Qed.

Lemma match_block_unclosed u : Forall (λ c, c ≠ 0x5D%N) u → match_block u = None.
Proof.
  intros Hu. unfold match_block.
  destruct (expect 0x5B (lstrip u)) as [s1|] eqn:E1; [|done]. simpl.
  destruct (match_marker s1) as [s2|] eqn:E2; [|done]. simpl.
  apply Sanitizer.expect_Some in E1.
  apply Sanitizer.match_marker_shorter in E2 as [[k ->] _].
  assert (Forall (λ c, c ≠ 0x5D%N) (lstrip u)) as H by by apply PyFacts.Forall_lstrip.
  rewrite E1 in H. apply Forall_cons in H as [_ H].
  apply Forall_app in H as [_ H]. by rewrite Sanitizer.skip_body_open.
Qed.

Lemma lstrip_all_space s w : rstrip s = [] → lstrip (s ++ w) = lstrip w.
Proof.
  induction s as [|c s IH]; simpl; [done|].
  destruct (rstrip s) eqn:E; [|done].
  destruct (isspace c); [by intros _; apply IH|done].
Qed.

Lemma lstrip_visible s :
  rstrip s ≠ [] → ∃ x t, lstrip s = x :: t ∧ x ∈ s.
Proof.
  induction s as [|c s IH]; simpl; [done|]. intros H.
  destruct (isspace c) eqn:Ec.
  - destruct (rstrip s) eqn:E; [done|].
    destruct IH as (x & t & Hl & Hx); [done|]. exists x, t. split; [done|by right].
  - exists c, s. split; [done|by left].
Qed.

Lemma rstrip_cons c s :
  ¬ (isspace c = true ∧ rstrip s = []) → rstrip (c :: s) = c :: rstrip s.
Proof.
  intros H. simpl. destruct (rstrip s) eqn:E; [|done].
  destruct (isspace c); [|done]. by destruct H.
Qed.

(** Scanning up to a block that follows bracket-free text. *)
Lemma block_sub_before_block pre block rest :
  Forall (λ c, c ≠ 0x5B%N) pre →
  (∃ t, block = 0x5B%N :: t) → match_block block = Some rest →
  block_sub (pre ++ block) = rstrip pre ++ block_sub rest.
Proof.
  intros Hpre [t ->] Hm. induction Hpre as [|c pre Hc Hpre IH].
  - simpl. by rewrite Sanitizer.block_sub_eq, Hm.
  - rewrite Sanitizer.block_sub_eq.
    destruct (decide (isspace c = true ∧ rstrip pre = [])) as [[Hs Hr]|Hno].
    + assert (match_block ((c :: pre) ++ 0x5B%N :: t) = Some rest) as ->.
      { unfold match_block in *. simpl. rewrite Hs.
        by rewrite lstrip_all_space. }
      simpl. by rewrite Hr, Hs.
    + assert (match_block ((c :: pre) ++ 0x5B%N :: t) = None) as ->.
      { unfold match_block.
        assert (expect 0x5B (lstrip ((c :: pre) ++ 0x5B%N :: t)) = None) as ->;
          [|done].
        simpl. destruct (isspace c) eqn:Es.
        - destruct (lstrip_visible pre) as (x & t' & Hl & Hx).
          { intros Hr. by apply Hno. }
          rewrite (Sanitizer.lstrip_app_visible _ _ _ _ Hl). simpl.
          rewrite (proj2 (N.eqb_neq x 0x5B)); [done|].
          by apply (proj1 (Forall_forall _ _) Hpre).
        - simpl. by rewrite (proj2 (N.eqb_neq c 0x5B)). }
      rewrite (rstrip_cons c pre Hno). simpl. by rewrite IH.
Qed.

Lemma match_keyword_exact kw marker rest :
  Forall2 (λ k c, ci_match k c = true) kw marker →
  match_keyword kw (marker ++ rest) = Some rest.
Proof.
  induction 1 as [|k c kw marker Hk H IH]; simpl; [by destruct rest|].
  by rewrite Hk.
Qed.

Lemma match_marker_exact kw marker rest :
  kw = KW_PROFILE ∨ kw = KW_PROFILE ++ KW_DELETE →
  Forall2 (λ k c, ci_match k c = true) kw marker →
  match_marker (marker ++ 0x3A%N :: rest) = Some rest.
Proof.
  intros [->| ->] H; unfold match_marker.
  - by rewrite (match_keyword_exact _ _ _ H).
  - pose proof (Sanitizer.marker_exclusive (marker ++ 0x3A%N :: rest)
                  (0x3A%N :: rest) [] (match_keyword_exact _ _ _ H)) as Hex.
    rewrite app_nil_r in Hex. rewrite Hex.
    by rewrite (match_keyword_exact _ _ _ H).
Qed.

End SanitizerMore.

(** X23: the sanitizer only deletes characters: its result is the text
    with some characters left out, in the same order. *)
Theorem strip_blocks_sublist t : strip_blocks t `sublist_of` t.
Proof.
  unfold strip_blocks. etrans; [apply SanitizerMore.strip_sublist|].
  by apply (SanitizerMore.block_sub_sublist (length t)).
Qed.

(** X24: a pass of the sanitizer either leaves the text as it is or makes
    it shorter, so repeated passes reach a text that no further pass
    changes after at most as many passes as the text has characters. *)
Theorem strip_blocks_converges t :
  (strip_blocks t = t ∨ length (strip_blocks t) < length t) ∧
  strip_blocks (Nat.iter (length t) strip_blocks t)
  = Nat.iter (length t) strip_blocks t.
Proof.
  split; [apply SanitizerMore.strip_blocks_shrinks|].
  assert (∀ n s, length s ≤ n →
            strip_blocks (Nat.iter n strip_blocks s) = Nat.iter n strip_blocks s)
    as H; [|by apply H].
  induction n as [|n IH]; intros s Hn.
  { by destruct s; [|simpl in Hn; lia]. }
  destruct (SanitizerMore.strip_blocks_shrinks s) as [Hfix|Hlt].
  - by rewrite SanitizerMore.iter_fixpoint.
  - rewrite Nat.iter_succ_r. apply IH. lia.
Qed.

(** X25: a text without an opening bracket, or without a closing bracket
    (a directive cut off before its end), holds nothing to remove: the
    sanitizer only trims it. *)
Theorem strip_blocks_plain t :
  Forall (λ c, c ≠ 0x5B%N) t ∨ Forall (λ c, c ≠ 0x5D%N) t →
  strip_blocks t = Py.strip t.
Proof.
  intros [H|H]; unfold strip_blocks; f_equal.
  - by apply Sanitizer.block_sub_no_open.
  - apply Sanitizer.block_sub_block_free. intros u [k ->].
    apply Forall_app in H as [_ H]. by apply SanitizerMore.match_block_unclosed.
Qed.

(** X26: one directive block, its keyword in any mix of cases, between
    texts without opening bracket: the block goes together with the white
    space on both sides of it, so that the texts before and after it are
    joined without a space between them. *)
Theorem strip_blocks_one_block pre kw marker body post :
  kw = KW_PROFILE ∨ kw = KW_PROFILE ++ KW_DELETE →
  Forall2 (λ k c, ci_match k c = true) kw marker →
  Forall (λ c, c ≠ 0x5B%N) pre → Forall (λ c, c ≠ 0x5D%N) body →
  Forall (λ c, c ≠ 0x5B%N) post →
  strip_blocks (pre ++ 0x5B%N :: marker ++ 0x3A%N :: body ++ 0x5D%N :: post)
  = Py.strip (Py.rstrip pre ++ Py.lstrip post).
Proof.
  intros Hkw Hmarker Hpre Hbody Hpost. unfold strip_blocks. f_equal.
  rewrite (SanitizerMore.block_sub_before_block pre _ (Py.lstrip post));
    [|done|eauto|].
  - f_equal. by apply Sanitizer.block_sub_no_open, PyFacts.Forall_lstrip.
  - unfold match_block. simpl.
    rewrite (SanitizerMore.match_marker_exact kw) by done. simpl.
    by rewrite Sanitizer.skip_body_close.
Qed.

(** ** The response hook *)

Module ReFacts.
Import Py Re.

Lemma span_eq cls s : (span cls s).1 ++ (span cls s).2 = s.
Proof.
  induction s as [|c s IH]; simpl; [done|].
  destruct (cls c); [|done]. destruct (span cls s). simpl in *. by rewrite IH.
Qed.

Lemma span_app cls a b :
  Forall (λ c, cls c = true) a →
  match b with [] => True | c :: _ => cls c = false end →
  span cls (a ++ b) = (a, b).
Proof.
  intros Ha Hb. induction Ha as [|x a Hx Ha IH].
  - destruct b as [|c b]; [done|]. simpl. by rewrite Hb.
  - simpl. by rewrite Hx, IH.
Qed.

Lemma expect_shorter c s r : expect c s = Some r → length r < length s.
Proof. intros ->%Sanitizer.expect_Some. simpl. lia. Qed.

Lemma lstrip_length s : length (lstrip s) ≤ length s.
Proof. apply suffix_length, PyFacts.lstrip_suffix. Qed.

Lemma match_pair_shorter s name value rest :
  match_pair s = Some (name, value, rest) → length rest < length s.
Proof.
  unfold match_pair. pose proof (span_eq isword s) as Hs.
  destruct (span isword s) as [n r]. simpl in Hs. subst s.
  destruct n as [|x n]; [done|].
  destruct (expect 0x3D (lstrip r)) as [r2|] eqn:E; [|done]. simpl.
  apply expect_shorter in E. pose proof (lstrip_length r).
  pose proof (span_eq isvalue (lstrip r2)) as Hv.
  destruct (span isvalue (lstrip r2)) as [v rest']. simpl in Hv.
  pose proof (lstrip_length r2) as Hl. rewrite <- Hv in Hl.
  rewrite length_app in Hl |- *. simpl.
  destruct v as [|y v].
  - destruct (last_space r2); [|done]. intros [= _ _ <-]. simpl in *. lia.
  - intros [= _ _ <-]. simpl in *. lia.
Qed.

Lemma find_pairs_fuel f1 f2 s :
  length s ≤ f1 → length s ≤ f2 → find_pairs_from f1 s = find_pairs_from f2 s.
Proof.
  revert f2 s. induction f1 as [|f1 IH]; intros f2 s H1 H2.
  - destruct s; [|simpl in H1; lia]. by destruct f2.
  - destruct f2 as [|f2].
    { destruct s; [done|simpl in H2; lia]. }
    destruct s as [|c s]; [done|].
    change (find_pairs_from (S f1) (c :: s)) with
      (match match_pair (c :: s) with
       | Some (name, value, rest) => (name, value) :: find_pairs_from f1 rest
       | None => find_pairs_from f1 s end).
    change (find_pairs_from (S f2) (c :: s)) with
      (match match_pair (c :: s) with
       | Some (name, value, rest) => (name, value) :: find_pairs_from f2 rest
       | None => find_pairs_from f2 s end).
    destruct (match_pair (c :: s)) as [[[n v] r]|] eqn:E.
    + apply match_pair_shorter in E. simpl in *. f_equal. apply IH; lia.
    + simpl in *. apply IH; lia.
Qed.

Lemma find_pairs_eq s :
  find_pairs s =
  match s with
  | [] => []
  | c :: s' =>
      match match_pair s with
      | Some (name, value, rest) => (name, value) :: find_pairs rest
      | None => find_pairs s'
      end
  end.
Proof.
  unfold find_pairs. destruct s as [|c s]; [done|].
  change (find_pairs_from (length (c :: s)) (c :: s)) with
    (match match_pair (c :: s) with
     | Some (name, value, rest) => (name, value) :: find_pairs_from (length s) rest
     | None => find_pairs_from (length s) s end).
  destruct (match_pair (c :: s)) as [[[n v] r]|] eqn:E; [|done].
  apply match_pair_shorter in E. simpl in E. f_equal.
  apply find_pairs_fuel; lia.
Qed.

Lemma match_pair_not_word c s : isword c = false → match_pair (c :: s) = None.
Proof. intros H. unfold match_pair. simpl. by rewrite H. Qed.

Lemma lstrip_fixed v : v ≠ [] → lstrip v = v → ∀ w, lstrip (v ++ w) = v ++ w.
Proof.
  intros Hne Hv w. destruct v as [|c v]; [done|]. simpl in *.
  destruct (isspace c); [|done].
  pose proof (lstrip_length v) as H. rewrite Hv in H. simpl in H. lia.
Qed.

(** A plain item at the start of a body, followed by the end of the body
    or by a comma. *)
Lemma match_pair_plain name value rest :
  plain_pair (name, value) →
  match rest with [] => True | c :: _ => c = 0x2C%N end →
  match_pair (name ++ 0x3D%N :: value ++ rest) = Some (name, value, rest).
Proof.
  intros (Hn & Hw & Hv & Hval & Hl) Hrest. simpl in *. unfold match_pair.
  rewrite span_app; [|done|done].
  destruct name as [|x name]; [done|].
  simpl. rewrite lstrip_fixed by done.
  rewrite span_app; [|done|by destruct rest as [|c rest]; [|subst c]].
  by destruct value.
Qed.

Lemma findall_no_open kw fuel s :
  Forall (λ c, c ≠ 0x5B%N) s → findall_from kw fuel s = [].
Proof.
  intros Hs. revert fuel. induction Hs as [|c s Hc Hs IH]; intros [|fuel]; try done.
  change (findall_from kw (S fuel) (c :: s)) with
    (match match_directive kw (c :: s) with
     | Some (group, rest) => group :: findall_from kw fuel rest
     | None => findall_from kw fuel s end).
  assert (match_directive kw (c :: s) = None) as ->; [|apply IH].
  unfold match_directive, expect. by rewrite (proj2 (N.eqb_neq c 0x5B) Hc).
Qed.

End ReFacts.

(** X27: a block body written as [name=value] items separated by a comma
    and a space is read back as exactly those items, in order, whatever
    the values hold besides commas and closing brackets (a further [=], a
    full-width comma). *)
Theorem find_pairs_render items :
  Forall plain_pair items → Re.find_pairs (render_pairs items) = items.
Proof.
  induction 1 as [|[name value] items Hitem Hitems IH]; [done|].
  assert (name ≠ []) as Hn by apply Hitem.
  destruct items as [|item items].
  - simpl. rewrite ReFacts.find_pairs_eq.
    pose proof (ReFacts.match_pair_plain name value [] Hitem I) as Hm.
    rewrite app_nil_r in Hm. rewrite Hm.
    destruct name; [done|]. simpl. by destruct value.
  - change (render_pairs ((name, value) :: item :: items))
      with (name ++ 0x3D%N :: value ++ 0x2C%N :: 0x20%N :: render_pairs (item :: items)).
    rewrite ReFacts.find_pairs_eq.
    rewrite (ReFacts.match_pair_plain name value) by done.
    destruct name; [done|]. simpl. f_equal.
    rewrite ReFacts.find_pairs_eq, ReFacts.match_pair_not_word by done.
    rewrite ReFacts.find_pairs_eq, ReFacts.match_pair_not_word by done.
    exact IH.
Qed.

(** X28: an item with nothing behind its [=] is not a pair at all and
    stores nothing, while one white space character behind the [=] makes
    a pair whose value is that character, which is stored as the empty
    string. *)
Theorem find_pairs_no_value name w :
  Forall (λ c, Re.isword c = true) name → name ≠ [] → Py.isspace w = true →
  Re.find_pairs (name ++ [0x3D%N]) = [] ∧
  Re.find_pairs (name ++ [0x3D%N; w]) = [(name, [w])] ∧
  Py.strip [w] = [].
Proof.
  intros Hname Hne Hw. split; [|split].
  - clear Hne. induction Hname as [|c name Hc Hname IH].
    + by rewrite ReFacts.find_pairs_eq.
    + rewrite ReFacts.find_pairs_eq.
      assert (Re.match_pair ((c :: name) ++ [0x3D%N]) = None) as ->; [|exact IH].
      unfold Re.match_pair.
      rewrite (ReFacts.span_app Re.isword (c :: name) [0x3D%N]); [done| |done].
      by constructor.
  - rewrite ReFacts.find_pairs_eq.
    assert (Re.match_pair (name ++ [0x3D%N; w]) = Some (name, [w], [])) as ->.
    { unfold Re.match_pair.
      rewrite (ReFacts.span_app Re.isword name [0x3D%N; w]); [|done|done].
      destruct name; [done|]. simpl. by rewrite Hw. }
    by destruct name.
  - unfold Py.strip. simpl. by rewrite Hw.
Qed.

Module ReChars.
Section ReChars.
Variable P : N → Prop.

Lemma Forall_span cls s :
  Forall P s → Forall P (Re.span cls s).1 ∧ Forall P (Re.span cls s).2.
Proof.
  intros H. pose proof (ReFacts.span_eq cls s) as E.
  destruct (Re.span cls s) as [a b]. simpl in *. subst s.
  by apply Forall_app in H.
Qed.

Lemma last_space_elem s w : Re.last_space s = Some w → w ∈ s.
Proof.
  revert w. induction s as [|c s IH]; intros w; simpl; [done|].
  destruct (Py.isspace c); [|done].
  destruct (Re.last_space s) as [w'|]; intros [= <-]; [right; by apply IH|by left].
Qed.

Lemma Forall_match_pair s name value rest :
  Re.match_pair s = Some (name, value, rest) → Forall P s →
  Forall P name ∧ Forall P value ∧ Forall P rest.
Proof.
  unfold Re.match_pair. intros H Hs.
  destruct (Forall_span Re.isword s Hs) as [Hn Hr].
  destruct (Re.span Re.isword s) as [n r]. simpl in *.
  destruct n as [|x n]; [done|].
  destruct (expect 0x3D (Py.lstrip r)) as [r2|] eqn:E; [|done]. simpl in H.
  apply Sanitizer.expect_Some in E.
  assert (Forall P r2) as Hr2.
  { apply (PyFacts.Forall_lstrip P) in Hr. rewrite E in Hr.
    by apply Forall_cons in Hr as [_ ?]. }
  destruct (Forall_span Re.isvalue (Py.lstrip r2)
              (PyFacts.Forall_lstrip P _ Hr2)) as [Hv Hrest].
  destruct (Re.span Re.isvalue (Py.lstrip r2)) as [v rest']. simpl in *.
  destruct v as [|y v].
  - destruct (Re.last_space r2) as [w|] eqn:Ew; [|done]. simpl in H.
    injection H as <- <- <-. split; [done|]. split; [|done].
    constructor; [|constructor].
    apply (proj1 (Forall_forall _ _) Hr2). by apply last_space_elem.
  - by injection H as <- <- <-.
Qed.

Lemma Forall_find_pairs s :
  Forall P s → Forall (λ nv, Forall P nv.1 ∧ Forall P nv.2) (Re.find_pairs s).
Proof.
  unfold Re.find_pairs. generalize (length s) as fuel. intros fuel. revert s.
  induction fuel as [|fuel IH]; intros s Hs; [by destruct s|].
  destruct s as [|c s]; [done|].
  change (Re.find_pairs_from (S fuel) (c :: s)) with
    (match Re.match_pair (c :: s) with
     | Some (name, value, rest) => (name, value) :: Re.find_pairs_from fuel rest
     | None => Re.find_pairs_from fuel s end).
  destruct (Re.match_pair (c :: s)) as [[[n v] r]|] eqn:E.
  - destruct (Forall_match_pair _ _ _ _ E Hs) as (? & ? & ?).
    constructor; [done|by apply IH].
  - apply IH. by apply Forall_cons in Hs as [_ ?].
Qed.

Lemma Forall_match_directive kw s group rest :
  Re.match_directive kw s = Some (group, rest) → Forall P s →
  Forall P group ∧ Forall P rest.
Proof.
  unfold Re.match_directive. intros H Hs.
  destruct (expect 0x5B s) as [s1|] eqn:E1; [|done]. simpl in H.
  apply Sanitizer.expect_Some in E1. subst s. apply Forall_cons in Hs as [_ Hs1].
  destruct (match_keyword kw s1) as [s2'|] eqn:E2; [|done]. simpl in H.
  destruct (expect 0x3A s2') as [s2|] eqn:E3; [|done]. simpl in H.
  apply Sanitizer.match_keyword_suffix in E2 as [pre ->].
  apply Forall_app in Hs1 as [_ Hs2'].
  apply Sanitizer.expect_Some in E3. subst s2'. apply Forall_cons in Hs2' as [_ Hs2].
  destruct (Forall_span (λ c, negb (c =? 0x5D)%N) s2 Hs2) as [Hb Hr].
  destruct (Re.span _ s2) as [body rest0]. simpl in *.
  destruct (expect 0x5D rest0) as [s3|] eqn:E4; [|done]. simpl in H.
  apply Sanitizer.expect_Some in E4. subst rest0. apply Forall_cons in Hr as [_ Hs3].
  destruct (Py.lstrip body) as [|g0 g] eqn:Eb.
  - destruct (Re.last_space body) as [w|] eqn:Ew; [|done].
    injection H as <- <-. split; [|done]. constructor; [|constructor].
    apply (proj1 (Forall_forall _ _) Hb). by apply last_space_elem.
  - injection H as <- <-. split; [|done]. rewrite <- Eb.
    by apply PyFacts.Forall_lstrip.
Qed.

Lemma Forall_findall kw fuel s :
  Forall P s → Forall (Forall P) (Re.findall_from kw fuel s).
Proof.
  revert s. induction fuel as [|fuel IH]; intros s Hs; [by destruct s|].
  destruct s as [|c s]; [done|].
  change (Re.findall_from kw (S fuel) (c :: s)) with
    (match Re.match_directive kw (c :: s) with
     | Some (group, rest) => group :: Re.findall_from kw fuel rest
     | None => Re.findall_from kw fuel s end).
  destruct (Re.match_directive kw (c :: s)) as [[g r]|] eqn:E.
  - destruct (Forall_match_directive _ _ _ _ E Hs) as [? ?].
    constructor; [done|by apply IH].
  - apply IH. by apply Forall_cons in Hs as [_ ?].
Qed.

End ReChars.
End ReChars.

Section HookFacts.
Variable allowed_fields : list str.
Variable max_notes_count : Z.
Variable now : nat → str.
Variable response : Type.
Variable completion_text : response → str.
Variable set_completion_text : str → response → response.
Variable chain : response → list component.
Variable set_chain : list component → response → response.

Lemma delete_blocks_cases m user_id session_id bodies :
  match delete_blocks now m user_id session_id bodies with
  | Raise _ _ => Exists bad_target bodies
  | Ret _ _ => Forall (λ body, ¬ bad_target body) bodies
  end.
Proof.
  revert m. induction bodies as [|body bodies IH]; intros m; simpl; [done|].
  pose proof (on_llm_resp_delete_cases now m user_id session_id body) as H.
  destruct (on_llm_resp_delete now m user_id session_id body) as [m1 []|m1 e].
  - specialize (IH m1).
    destruct (delete_blocks now m1 user_id session_id bodies);
      [by constructor|by apply Exists_cons_tl].
  - apply Exists_cons_hd, H.
Qed.

(** X29: on a text without opening bracket the hook calls no method of
    the manager: the store, the clock and the file are as before.  The
    trimmed text is assigned to [completion_text], and the chain, as the
    assignment left it, is cleaned. *)
Theorem on_llm_resp_plain m user_id session_id resp :
  Forall (λ c, c ≠ 0x5B%N) (completion_text resp) → completion_text resp ≠ [] →
  on_llm_resp allowed_fields max_notes_count now
    completion_text set_completion_text chain set_chain m user_id session_id resp
  = Ret m (clean_chain chain set_chain
             (set_completion_text (Py.strip (completion_text resp)) resp)).
Proof.
  intros Hplain Hne. unfold on_llm_resp, Re.profile_matches, Re.delete_matches.
  destruct (completion_text resp) as [|c text] eqn:E; [done|].
  rewrite !ReFacts.findall_no_open by done. simpl.
  unfold strip_blocks. by rewrite Sanitizer.block_sub_no_open.
Qed.

(** While the clock and the strings of the operations hold no surrogate,
    no save raises. *)
Lemma run_healthy m0 m o :
  (∀ t, Py.encodable (now t) = true) → op_encodable o →
  healthy_since m0 m →
  healthy_since m0 (run allowed_fields max_notes_count now m o).
Proof.
  intros Hnow Ho [Hm (new & Hsaved & Hnew)].
  pose proof (run_dumpable allowed_fields max_notes_count now m o Hnow Ho Hm) as Hd.
  split; [done|].
  destruct (run_cases allowed_fields max_notes_count now m o)
    as [->|(_ & Hs & _)]; [eauto|].
  exists (user_data (run allowed_fields max_notes_count now m o) :: new).
  rewrite Hs, Hsaved. split; [done|by constructor].
Qed.

Lemma update_pairs_healthy m0 m user_id session_id pairs :
  (∀ t, Py.encodable (now t) = true) →
  Py.encodable user_id = true → Py.encodable (default [] session_id) = true →
  Forall (λ nv, Py.encodable nv.1 = true ∧ Py.encodable nv.2 = true) pairs →
  healthy_since m0 m →
  healthy_since m0 (update_pairs allowed_fields max_notes_count now m user_id
                      session_id pairs).
Proof.
  intros Hnow Hu Hs Hpairs. revert m. unfold update_pairs.
  induction Hpairs as [|[name value] pairs [Hn Hv] _ IH]; intros m Hm; simpl; [done|].
  apply IH.
  apply (run_healthy m0 m (Update user_id (Py.strip name) (Py.strip value) session_id));
    [done| |done].
  simpl in *. by repeat split; try apply encodable_strip.
Qed.

Lemma update_blocks_healthy m0 m user_id session_id bodies :
  (∀ t, Py.encodable (now t) = true) →
  Py.encodable user_id = true → Py.encodable (default [] session_id) = true →
  Forall (λ body, Py.encodable body = true) bodies →
  healthy_since m0 m →
  healthy_since m0 (update_blocks allowed_fields max_notes_count now m user_id
                      session_id bodies).
Proof.
  intros Hnow Hu Hs Hbodies. revert m. unfold update_blocks.
  induction Hbodies as [|body bodies Hb _ IH]; intros m Hm; simpl; [done|].
  apply IH, update_pairs_healthy; try done.
  eapply Forall_impl;
    [apply (ReChars.Forall_find_pairs (λ c, Py.surrogate c = false) body),
       encodable_Forall, Hb|].
  intros [name value] [? ?]. simpl. by rewrite !encodable_Forall.
Qed.

Lemma delete_each_healthy m0 m user_id session_id targets :
  (∀ t, Py.encodable (now t) = true) → healthy_since m0 m →
  healthy_since m0 (final (delete_each now m user_id session_id targets)).
Proof using allowed_fields max_notes_count now.
  intros Hnow. revert m. induction targets as [|t targets IH]; intros m Hm; simpl;
    [done|].
  pose proof (run_healthy m0 m (Delete user_id t session_id) Hnow I Hm) as Hstep.
  simpl in Hstep.
  destruct (delete_field now m user_id t session_id) as [m' r|m' e]; simpl in *;
    [by apply IH|done].
Qed.

Lemma delete_blocks_healthy m0 m user_id session_id bodies :
  (∀ t, Py.encodable (now t) = true) → healthy_since m0 m →
  healthy_since m0 (final (delete_blocks now m user_id session_id bodies)).
Proof using allowed_fields max_notes_count now.
  intros Hnow. revert m. induction bodies as [|body bodies IH]; intros m Hm; simpl;
    [done|].
  assert (healthy_since m0
            (final (on_llm_resp_delete now m user_id session_id body))) as Hstep.
  { unfold on_llm_resp_delete. destruct (delete_order _); [|done].
    by apply delete_each_healthy. }
  destruct (on_llm_resp_delete now m user_id session_id body) as [m' r|m' e];
    simpl in *; [by apply IH|done].
Qed.

(** X30: as long as the store, the text, the ids and the clock hold no
    surrogate, no save of the hook raises, and the hook raises exactly when
    one of the delete blocks of the text holds a target that passes
    [isdigit] and that [int] rejects; the response is then left as it was,
    directives included.  Whenever the hook returns on a text that is not
    empty, the sanitized text has been assigned and the chain cleaned,
    whatever the updates and deletes did. *)
Theorem on_llm_resp_raises_iff m user_id session_id resp :
  let text := completion_text resp in
  let outcome := on_llm_resp allowed_fields max_notes_count now
                   completion_text set_completion_text chain set_chain
                   m user_id session_id resp in
  dumpable (user_data m) → Py.encodable text = true →
  Py.encodable user_id = true → Py.encodable (default [] session_id) = true →
  (∀ t, Py.encodable (now t) = true) →
  healthy_since m (final outcome) ∧
  ((∃ m' e, outcome = Raise m' e) ↔ Exists bad_target (Re.delete_matches text)) ∧
  (∀ m' r, outcome = Ret m' r →
           r = match text with
               | [] => resp
               | _ => clean_chain chain set_chain
                        (set_completion_text (strip_blocks text) resp)
               end).
Proof.
  intros text outcome Hm Htext Hu Hs Hnow.
  assert (healthy_since m m) as Hm0 by (split; [done|by exists []]).
  unfold outcome, on_llm_resp. fold text.
  destruct text as [|c text'] eqn:E.
  { split; [done|]. split; [|by intros ? ? [= _ <-]].
    split; [by intros (? & ? & ?)|]. by intros ?%Exists_nil. }
  rewrite <- E in *. clear E c text'.
  set (m1 := update_blocks allowed_fields max_notes_count now m user_id
               session_id (Re.profile_matches text)).
  assert (healthy_since m m1) as Hm1.
  { apply update_blocks_healthy; try done.
    eapply Forall_impl;
      [apply (ReChars.Forall_findall (λ c, Py.surrogate c = false) KW_PROFILE),
         encodable_Forall, Htext|].
    intros body. by rewrite encodable_Forall. }
  pose proof (delete_blocks_healthy m m1 user_id session_id
                (Re.delete_matches text) Hnow Hm1) as Hm2.
  pose proof (delete_blocks_cases m1 user_id session_id
                (Re.delete_matches text)) as H.
  destruct (delete_blocks now m1 user_id session_id (Re.delete_matches text))
    as [m2 []|m2 e]; simpl in Hm2.
  - split; [done|]. split.
    + split; [by intros (? & ? & ?)|]. intros Hex. exfalso.
      apply Exists_exists in Hex as (body & Hin & Hbad).
      by apply (proj1 (Forall_forall _ _) H body Hin).
    + intros m' r Hr. by injection Hr as _ <-.
  - split; [done|]. split; [|done]. split; [done|eauto].
Qed.

End HookFacts.

(** ** The properties above at work *)


Lemma update_field_sets_field_witness :
  let m := single_profile USER [(CITY, Py.lit "Paris"); (JOB, Py.lit "cook")] in
  let m' := (update_field [CITY; JOB] 5 fixed_clock m USER CITY (Py.lit " Rome ")
               None).1 in
  Dict.get CITY (get_user_profile m' USER None) = Some (Py.lit "Rome") ∧
  (∀ other, other ≠ CITY → other ≠ LAST_UPDATED →
     Dict.get other (get_user_profile m' USER None)
     = Dict.get other (get_user_profile m USER None)) ∧
  (∀ key', key' ≠ USER → user_data m' !! key' = user_data m !! key').
Proof.
  apply (update_field_sets_field [CITY; JOB] 5 fixed_clock
           (single_profile USER [(CITY, Py.lit "Paris"); (JOB, Py.lit "cook")])
           USER CITY (Py.lit " Rome ") None).
  - apply (bool_decide_unpack _). exact I.
  - discriminate.
  - discriminate.
Defined.

Lemma update_field_notes_merge_witness :
  let m := single_profile USER
             [(NOTES, [0x7231; 0x7B11; 0xFF1B; 0x8BDD; 0x591A]%N)] in   (* 爱笑；话多 *)
  let m' := (update_field [NICKNAME; NOTES] 2 fixed_clock m USER NOTES
               [0x722C; 0x5C71]%N None).1 in                               (* 爬山 *)
  notes_of m' USER = [[0x8BDD; 0x591A]%N; [0x722C; 0x5C71]%N].          (* 话多, 爬山 *)
Proof.
  etrans.
  - apply (update_field_notes_merge [NICKNAME; NOTES] 2 fixed_clock
             (single_profile USER [(NOTES, [0x7231; 0x7B11; 0xFF1B; 0x8BDD; 0x591A]%N)])
             USER [0x722C; 0x5C71]%N None).
    apply (bool_decide_unpack _). exact I.
  - reflexivity.
Defined.

Lemma update_field_notes_no_cap_witness :
  let m := single_profile USER [(NOTES, Py.lit "tea;jazz")] in
  Py.lit "tea" ∈ notes_of (update_field [NOTES] 0 fixed_clock m USER NOTES
                             (Py.lit "chess;go;golf") None).1 USER.
Proof.
  apply (update_field_notes_no_cap [NOTES] fixed_clock
           (single_profile USER [(NOTES, Py.lit "tea;jazz")])
           USER (Py.lit "chess;go;golf") None (Py.lit "tea")).
  - apply (bool_decide_unpack _). exact I.
  - apply (bool_decide_unpack _). vm_compute. exact I.
Defined.

Lemma run_all_fields_witness : CITY ∈ [CITY; NOTES] ∨ CITY = LAST_UPDATED.
Proof.
  eapply (run_all_fields [CITY; NOTES] 5 fixed_clock
            [Update USER CITY (Py.lit "Paris") None;
             Update USER JOB (Py.lit "cook") None;
             Delete USER NOTES None] USER _ CITY).
  - vm_compute. reflexivity.
  - vm_compute. eauto.
Defined.

Lemma run_all_stamped_witness :
  ∃ t, t < 2 ∧ Some (fixed_clock 1) = Some (fixed_clock t).
Proof.
  refine (run_all_stamped [CITY; NOTES] 5 fixed_clock
            [Update USER CITY (Py.lit "Paris") None; Delete USER CITY None]
            USER [(LAST_UPDATED, fixed_clock 1)] _).
  vm_compute. reflexivity.
Defined.

Lemma run_all_notes_bounded_witness :
  notes_bounded 2 (Py.join NOTE_SEP [Py.lit "jazz"; Py.lit "chess"]).
Proof.
  eapply (run_all_notes_bounded [NOTES] 2 fixed_clock
            [Update USER NOTES (Py.lit "tea; jazz") None;
             Update USER NOTES (Py.lit "chess") None] USER).
  vm_compute. reflexivity.
Defined.


Lemma delete_field_by_index_witness :
  let m := single_profile USER [(NOTES, Py.lit "a;b;c")] in
  ∃ m' msg,
    delete_field fixed_clock m USER (Py.lit "2") None = Ret m' (true, msg) ∧
    notes_of m' USER = [Py.lit "a"; Py.lit "c"] ∧
    ∀ f, f ≠ NOTES → f ≠ LAST_UPDATED →
         user_data m' !! USER ≫= Dict.get f = Dict.get f [(NOTES, Py.lit "a;b;c")].
Proof.
  apply (delete_field_by_index fixed_clock
           (single_profile USER [(NOTES, Py.lit "a;b;c")])
           USER (Py.lit "2") None [(NOTES, Py.lit "a;b;c")] 2%Z).
  - reflexivity.
  - reflexivity.
  - reflexivity.
  - reflexivity.
  - vm_compute. split; discriminate.
Defined.

Lemma delete_field_by_substring_witness :
  let m := single_profile USER [(NOTES, Py.lit "green tea;jazz;black tea")] in
  ∃ m' msg,
    delete_field fixed_clock m USER (Py.lit "tea") None = Ret m' (true, msg) ∧
    notes_of m' USER = [Py.lit "jazz"] ∧
    ∀ f, f ≠ NOTES → f ≠ LAST_UPDATED →
         user_data m' !! USER ≫= Dict.get f
         = Dict.get f [(NOTES, Py.lit "green tea;jazz;black tea")].
Proof.
  apply (delete_field_by_substring fixed_clock
           (single_profile USER [(NOTES, Py.lit "green tea;jazz;black tea")])
           USER (Py.lit "tea") None [(NOTES, Py.lit "green tea;jazz;black tea")]).
  - reflexivity.
  - reflexivity.
  - reflexivity.
  - exists (Py.lit "green tea"). split; [|reflexivity].
    apply (bool_decide_unpack _). vm_compute. exact I.
Defined.

Lemma delete_field_empty_target_witness :
  let m := single_profile USER [(NOTES, Py.lit "tea;jazz")] in
  ∃ m' msg,
    delete_field fixed_clock m USER [] None = Ret m' (true, msg) ∧
    notes_value m' USER = None.
Proof.
  apply (delete_field_empty_target fixed_clock
           (single_profile USER [(NOTES, Py.lit "tea;jazz")])
           USER None [(NOTES, Py.lit "tea;jazz")]).
  - reflexivity.
  - reflexivity.
  - vm_compute. discriminate.
Defined.

Lemma sorted_by_int_desc_stable_witness :
  let l := [Py.lit "1"; Py.lit "2"; Py.lit "02"; Py.lit "10"] in
  let digits := [Py.lit "10"; Py.lit "2"; Py.lit "02"; Py.lit "1"] in
  digits ≡ₚ l ∧
  (∃ keys, Forall2 (λ d k, Py.int d = Some k) digits keys ∧
           StronglySorted (λ a b : Z, (b ≤ a)%Z) keys) ∧
  ∀ k, filter (λ d, Py.int d = Some k) digits = filter (λ d, Py.int d = Some k) l.
Proof.
  apply (sorted_by_int_desc_stable
           [Py.lit "1"; Py.lit "2"; Py.lit "02"; Py.lit "10"]
           [Py.lit "10"; Py.lit "2"; Py.lit "02"; Py.lit "1"]).
  reflexivity.
Defined.

Lemma delete_order_perm_witness :
  [NICKNAME; Py.lit "2"; Py.lit "1"] ≡ₚ [Py.lit "1"; NICKNAME; Py.lit "2"].
Proof.
  apply (delete_order_perm [Py.lit "1"; NICKNAME; Py.lit "2"]
           [NICKNAME; Py.lit "2"; Py.lit "1"]).
  reflexivity.
Defined.

Lemma strip_blocks_plain_witness :
  strip_blocks (Py.lit " see you [Profile: a=b ") = Py.lit "see you [Profile: a=b".
Proof.
  etrans.
  - apply (strip_blocks_plain (Py.lit " see you [Profile: a=b ")).
    right. apply (bool_decide_unpack _). vm_compute. exact I.
  - reflexivity.
Defined.

Lemma strip_blocks_one_block_witness :
  strip_blocks (Py.lit "Nice to meet you  [pRoFiLe: name=Ann] How are you?")
  = Py.lit "Nice to meet youHow are you?".
Proof.
  etrans.
  - apply (strip_blocks_one_block (Py.lit "Nice to meet you  ") KW_PROFILE
             (Py.lit "pRoFiLe") (Py.lit " name=Ann") (Py.lit " How are you?")).
    + by left.
    + repeat constructor.
    + apply (bool_decide_unpack _). vm_compute. exact I.
    + apply (bool_decide_unpack _). vm_compute. exact I.
    + apply (bool_decide_unpack _). vm_compute. exact I.
  - reflexivity.
Defined.

Lemma find_pairs_render_witness :
  Re.find_pairs
    (render_pairs [(NICKNAME, [0x5C0F; 0x660E]%N);
                   (NOTES, [0x7231; 0x7B11; 0xFF1B; 0x8BDD; 0x591A]%N)])
  = [(NICKNAME, [0x5C0F; 0x660E]%N);
     (NOTES, [0x7231; 0x7B11; 0xFF1B; 0x8BDD; 0x591A]%N)].
Proof.
  apply (find_pairs_render
           [(NICKNAME, [0x5C0F; 0x660E]%N);
            (NOTES, [0x7231; 0x7B11; 0xFF1B; 0x8BDD; 0x591A]%N)]).
  repeat constructor; discriminate.
Defined.

Lemma find_pairs_no_value_witness :
  Re.find_pairs (CITY ++ [0x3D%N]) = [] ∧
  Re.find_pairs (CITY ++ [0x3D%N; 0x20%N]) = [(CITY, [0x20%N])] ∧
  Py.strip [0x20%N] = [].
Proof.
  apply (find_pairs_no_value CITY 0x20%N).
  - repeat constructor.
  - discriminate.
  - reflexivity.
Defined.

(** A greeting with white space around it, in a response whose chain holds
    an image and the text: nothing is stored or saved, and the trimmed text
    ends up in one plain component, first in the chain. *)
Lemma on_llm_resp_plain_witness :
  on_llm_resp [CITY] 5 fixed_clock
    sample_text sample_set_text sample_chain sample_set_chain fresh USER None
    (Py.lit " hello ", [Other 1; Plain (Py.lit " hello ")])
  = Ret fresh (Py.lit "hello", [Plain (Py.lit "hello"); Other 1]).
Proof.
  etrans.
  - apply (on_llm_resp_plain [CITY] 5 fixed_clock _
             sample_text sample_set_text sample_chain sample_set_chain fresh USER None
             (Py.lit " hello ", [Other 1; Plain (Py.lit " hello ")])).
    + apply (bool_decide_unpack _). vm_compute. exact I.
    + discriminate.
  - reflexivity.
Defined.

(** An update block followed by a delete block whose target is the
    superscript two: the update is made and saved, then the hook raises. *)
Lemma on_llm_resp_raises_iff_witness :
  let text := Py.lit "Hi [Profile: city=Paris] [ProfileDelete: " ++ [0xB2%N]
              ++ Py.lit "]" in
  let outcome := on_llm_resp [CITY] 5 fixed_clock
                   sample_text sample_set_text sample_chain sample_set_chain
                   fresh USER None (text, []) in
  healthy_since fresh (final outcome) ∧
  (∃ m' e, outcome = Raise m' e) ∧
  user_data (final outcome) !! USER ≫= Dict.get CITY = Some (Py.lit "Paris").
Proof.
  intros text outcome.
  destruct (on_llm_resp_raises_iff [CITY] 5 fixed_clock _
              sample_text sample_set_text sample_chain sample_set_chain
              fresh USER None (text, []))
    as (Hhealthy & Hiff & _).
  - apply map_Forall_empty.
  - reflexivity.
  - reflexivity.
  - reflexivity.
  - intros t. reflexivity.
  - split; [exact Hhealthy|]. split; [|reflexivity].
    apply Hiff. apply Exists_cons_hd. exists [0xB2%N].
    split; [|split; reflexivity].
    apply (bool_decide_unpack _). vm_compute. exact I.
Defined.

(** A lone surrogate as the value of an update: the store in memory takes
    it, and the file is left incomplete. *)
Lemma run_frame_witness :
  let m' := run [CITY] 5 fixed_clock fresh (Update USER CITY [0xD800%N] None) in
  user_data m' !! USER ≫= Dict.get CITY = Some [0xD800%N] ∧
  on_disk m' = Truncated.
Proof.
  intros m'. split; [reflexivity|].
  destruct (proj2 (run_frame [CITY] 5 fixed_clock fresh
                     (Update USER CITY [0xD800%N] None))) as [H|H].
  - apply (f_equal clock) in H. discriminate H.
  - etrans; [exact H|reflexivity].
Defined.

(** An update and a clear of another user's profile: the file holds the
    store. *)
Lemma run_all_saved_witness :
  let m := run_all [CITY] 5 fixed_clock fresh
             [Update USER CITY (Py.lit "Paris") None; Clear JOB None] in
  dumpable (user_data m) ∧ on_disk m = Document (user_data m).
Proof.
  intros m.
  destruct (run_all_saved [CITY] 5 fixed_clock
              [Update USER CITY (Py.lit "Paris") None; Clear JOB None])
    as [Hdisk Hdump].
  assert (dumpable (user_data m)) as Hd.
  { apply Hdump; [intros t; reflexivity|]. repeat constructor. }
  split; [exact Hd|]. destruct Hdisk as [[Hfresh _]|Hdisk].
  - apply (f_equal clock) in Hfresh. discriminate Hfresh.
  - etrans; [exact Hdisk|reflexivity].
Defined.
